(** * Verification of the DATA_SCIENCE repository

    Two programs are modelled:
    - [assignment1.py]: an employee roster kept in a Python dict;
    - [main_sqlite.py]: the food-rescue dashboard, whose CSV loader
      ([import_csv_data]), bootstrap ([init_database]), query helpers
      ([run_query], [execute_query], [log_audit]) and the CRUD actions of
      its pages are embedded over an explicit model of the SQLite store.

    All definitions come first; the theorems follow. *)

From Stdlib Require Import ZArith QArith Lia Ascii String DecimalString.
From stdpp Require Import base option list strings gmap.

Local Open Scope Z_scope.
Local Open Scope string_scope.
Local Open Scope list_scope.

(* ===================================================================== *)
(** * Part I. Definitions                                                 *)
(* ===================================================================== *)

(* --------------------------------------------------------------------- *)
(** ** assignment1.py: the employee roster                                *)
(* --------------------------------------------------------------------- *)

(** The value stored under an id: the dict literal
    [{"Name": .., "Age": .., "Department": .., "Salary": ..}]. *)
Record employee_info := EmployeeInfo {
  Name : string;
  Age : Z;
  Department : string;
  Salary : Q
}.

(** A line written by [print]; the two messages of [add_employee] are kept
    structured so that their arguments can be inspected. *)
Inductive roster_output :=
  | AddedSuccessfully (id : Z) (name : string)
  | AlreadyExists (id : Z).

(** [class Employee]: the only attribute is [self.dict]. *)
Record Employee := mkEmployee { dict : gmap Z employee_info }.

(** [Employee.__init__] *)
Definition Employee_init : Employee := mkEmployee ∅.

(** [Employee.add_employee]: the object after the call and what was printed. *)
Definition add_employee (self : Employee) (id : Z) (name : string) (age : Z)
    (department : string) (salary : Q) : Employee * list roster_output :=
  match dict self !! id with
  | None =>
      (mkEmployee (<[id := EmployeeInfo name age department salary]> (dict self)),
       [AddedSuccessfully id name])
  | Some _ => (self, [AlreadyExists id])
  end.

(* --------------------------------------------------------------------- *)
(** ** main_sqlite.py: values, frames and the library functions           *)
(* --------------------------------------------------------------------- *)

(** A number held by a pandas column or bound to a SQL parameter: a Python
    [int] or a finite [float]. *)
Inductive number :=
  | NInt (z : Z)
  | NReal (q : Q).

(** What [pd.to_datetime] produces for a value it can read. Only the
    calendar date is kept, the format ['%Y-%m-%d'] prints nothing else. *)
Record Timestamp := mkTimestamp { ts_year : nat; ts_month : nat; ts_day : nat }.

(** One value of a DataFrame, and one value of a stored row. [CNull] is
    pandas' missing value (NaN, None, NaT) and SQLite's NULL: the sqlite3
    module binds a NaN float as NULL. *)
Inductive cell :=
  | CNull
  | CNum (n : number)
  | CStr (s : string)
  | CTime (t : Timestamp).

Global Instance Q_eq_dec : EqDecision Q.
Proof. solve_decision. Defined.
Global Instance number_eq_dec : EqDecision number.
Proof. solve_decision. Defined.
Global Instance Timestamp_eq_dec : EqDecision Timestamp.
Proof. solve_decision. Defined.
Global Instance cell_eq_dec : EqDecision cell.
Proof. solve_decision. Defined.

(** [pd.DataFrame] as read from a CSV file: the header and the rows in file
    order, every row holding one cell per column. *)
Record DataFrame := mkFrame {
  columns : list string;
  rows : list (list cell)
}.

(** [n < 0] *)
Definition number_negative (n : number) : bool :=
  match n with
  | NInt z => (z <? 0)%Z
  | NReal q => (Qnum q <? 0)%Z
  end.

(** The column names of the five tables the program creates (source lines
    45-101); the program's own INSERT statements list them as they are
    written here. *)
Definition program_columns : list string :=
  ["provider_id"; "name"; "type"; "address"; "city"; "contact";
   "receiver_id"; "food_id"; "food_name"; "quantity"; "expiry_date";
   "provider_type"; "location"; "food_type"; "meal_type";
   "claim_id"; "status"; "timestamp";
   "id"; "operation"; "user"; "details"; "ts_utc"].

(** The functions of Python, pandas and SQLite that the program calls and
    whose code is not part of the repository.
    - [to_datetime col] is [pd.to_datetime(col, errors='coerce')] on a whole
      column: [None] stands for NaT. It works on the column because pandas
      may infer one format for all values.
    - [parse_numeric s] is [pd.to_numeric(.., errors='coerce')] on a string
      value: [None] stands for NaN.
    - [to_float64 n] is the number the quantity column holds in place of [n]
      once line 125 has assigned the missing value: pandas then keeps the
      column as float64, which holds every integer up to 2^53 in magnitude
      as it is and rounds larger ones; rounding never changes the sign. A
      float without fractional part that SQLite stores in an INTEGER column
      is read as the integer.
    - [number_str n] is [str] of a numeric value, as [astype(str)] gives it.
    - [strip s] is [str.strip()] with no argument: [s] without the white
      space, in the sense of Unicode, at its two ends. Stripping twice is
      stripping once.
    - [sql_columns labels] is what SQLite reads in the column list of
      [INSERT INTO t (<labels joined by ', '>) VALUES (?, .., ?)], with one
      [?] per label: the names it lists, or [None] when the statement does
      not compile (a label that is not spelled as one name, no label at
      all). The column names of the program are read as they are written.
    - [text_to_rowid s] is SQLite's conversion of a text value to an integer
      when it is stored in an [INTEGER PRIMARY KEY] column. *)
Class Externals := {
  to_datetime : list cell → list (option Timestamp);
  to_datetime_length : ∀ col, length (to_datetime col) = length col;
  parse_numeric : string → option number;
  to_float64 : number → number;
  to_float64_exact : ∀ z,
    (- 2 ^ 53 ≤ z ≤ 2 ^ 53)%Z → to_float64 (NInt z) = NInt z;
  to_float64_sign : ∀ n,
    number_negative n = false → number_negative (to_float64 n) = false;
  number_str : number → string;
  strip : string → string;
  strip_idempotent : ∀ s, strip (strip s) = strip s;
  sql_columns : list string → option (list string);
  sql_columns_program : ∀ labels,
    labels ≠ [] → Forall (λ c, c ∈ program_columns) labels →
    sql_columns labels = Some labels;
  text_to_rowid : string → option Z
}.

(** *** Strings *)

(** Decimal digits of [n], left-padded with zeros to [width] characters. *)
Definition zero_padded (width n : nat) : string :=
  let digits := NilEmpty.string_of_uint (Nat.to_uint n) in
  String.concat "" (replicate (width - String.length digits) "0") +:+ digits.

(** [Timestamp.strftime('%Y-%m-%d')] *)
Definition strftime_Ymd (t : Timestamp) : string :=
  zero_padded 4 (ts_year t) +:+ "-" +:+ zero_padded 2 (ts_month t) +:+ "-"
  +:+ zero_padded 2 (ts_day t).

(** *** Column access *)

(** Position of a column label in the header ([df.columns.get_loc]). *)
Fixpoint index_of (c : string) (cols : list string) : option nat :=
  match cols with
  | [] => None
  | c' :: cols' => if decide (c = c') then Some 0%nat else S <$> index_of c cols'
  end.

(** The cell of [row] in column [i]. *)
Definition get_cell (i : nat) (row : list cell) : cell := default CNull (row !! i).

(** [df[c]] as a list of values, for the column at position [i]. *)
Definition column_values (i : nat) (rs : list (list cell)) : list cell :=
  get_cell i <$> rs.

(** [df[c] = values], row by row. *)
Definition assign_column (i : nat) (rs : list (list cell)) (values : list cell)
    : list (list cell) :=
  zip_with (λ r v, <[i := v]> r) rs values.

(** [df[c] = df[c].<f>], a value-wise transformation of one column. *)
Definition map_column (i : nat) (f : cell → cell) (rs : list (list cell))
    : list (list cell) :=
  (λ r, <[i := f (get_cell i r)]> r) <$> rs.

(* --------------------------------------------------------------------- *)
(** ** import_csv_data: the cleaning rules (source lines 113-133)          *)
(* --------------------------------------------------------------------- *)

Section Cleaning.
Context `{Externals}.

(** [pd.to_numeric(v, errors='coerce')] on one value. *)
Definition to_numeric (c : cell) : option number :=
  match c with
  | CNum n => Some n
  | CStr s => parse_numeric s
  | CNull | CTime _ => None
  end.

(** The mask [df['quantity'] < 0]: a comparison with NaN is false. *)
Definition lt_zero (c : cell) : bool :=
  match c with
  | CNum n => number_negative n
  | _ => false
  end.

(** [.dt.strftime('%Y-%m-%d')] on one value; NaT gives a missing value. *)
Definition dt_strftime (c : cell) : cell :=
  match c with
  | CTime t => CStr (strftime_Ymd t)
  | _ => CNull
  end.

(** [str(v)] as [astype(str)] applies it. *)
Definition astype_str (c : cell) : string :=
  match c with
  | CNull => "nan"
  | CNum n => number_str n
  | CStr s => s
  | CTime t => strftime_Ymd t +:+ " 00:00:00"
  end.

(** [df.dropna(subset=[c])] for the column at position [i]. *)
Definition dropna (i : nat) (rs : list (list cell)) : list (list cell) :=
  filter (λ r, get_cell i r ≠ CNull) rs.

(** [df.drop_duplicates(subset=[c], keep='first')] for the column at
    position [i]; [seen] holds the keys of the rows already kept. *)
Fixpoint drop_duplicates_from (i : nat) (seen : list cell)
    (rs : list (list cell)) : list (list cell) :=
  match rs with
  | [] => []
  | r :: rs' =>
      if decide (get_cell i r ∈ seen) then drop_duplicates_from i seen rs'
      else r :: drop_duplicates_from i (get_cell i r :: seen) rs'
  end.

Definition drop_duplicates (i : nat) (rs : list (list cell)) : list (list cell) :=
  drop_duplicates_from i [] rs.

(** Lines 117-120: parse the expiry dates, drop the rows where that failed,
    print the others as ISO dates. *)
Definition clean_expiry_date (df : DataFrame) : DataFrame :=
  match index_of "expiry_date" (columns df) with
  | None => df
  | Some i =>
      let parsed := to_datetime (column_values i (rows df)) in
      let rs1 := assign_column i (rows df) (from_option CTime CNull <$> parsed) in
      let rs2 := dropna i rs1 in
      mkFrame (columns df) (map_column i dt_strftime rs2)
  end.

(** What the assignment of line 125 makes of a value it does not blank:
    the column is float64 from then on. *)
Definition as_float64 (c : cell) : cell :=
  match c with
  | CNum n => CNum (to_float64 n)
  | _ => c
  end.

(** Lines 123-125: make the quantity numeric, then blank the negative ones;
    the mask is computed on the numbers [to_numeric] gave. *)
Definition clean_quantity (df : DataFrame) : DataFrame :=
  match index_of "quantity" (columns df) with
  | None => df
  | Some i =>
      let rs1 := map_column i (λ c, from_option CNum CNull (to_numeric c)) (rows df) in
      mkFrame (columns df)
        (map_column i (λ c, if lt_zero c then CNull else as_float64 c) rs1)
  end.

(** Lines 128-129: [df['contact'].astype(str).str.strip()]. *)
Definition clean_contact (df : DataFrame) : DataFrame :=
  match index_of "contact" (columns df) with
  | None => df
  | Some i => mkFrame (columns df) (map_column i (λ c, CStr (strip (astype_str c))) (rows df))
  end.

(** Lines 132-133: de-duplication, for providers and receivers only. *)
Definition deduplicate (table : string) (df : DataFrame) : DataFrame :=
  if decide (table ∈ ["providers"; "receivers"]) then
    match index_of "contact" (columns df) with
    | None => df
    | Some i => mkFrame (columns df) (drop_duplicates i (rows df))
    end
  else df.

(** The frame that reaches the insert loop. *)
Definition clean (table : string) (df : DataFrame) : DataFrame :=
  deduplicate table (clean_contact (clean_quantity (clean_expiry_date df))).

(** [df.empty]: no rows, or no columns. *)
Definition frame_empty (df : DataFrame) : bool :=
  bool_decide (rows df = []) || bool_decide (columns df = []).

End Cleaning.

(* --------------------------------------------------------------------- *)
(** ** The SQLite store                                                    *)
(* --------------------------------------------------------------------- *)

(** One column of a [CREATE TABLE] statement, with the constraints the
    program's schemas use. *)
Record column := mkColumn {
  col_name : string;
  col_primary_key : bool;              (* INTEGER PRIMARY KEY *)
  col_not_null : bool;                 (* NOT NULL *)
  col_check : option (list string);    (* CHECK (c IN (...)) *)
  col_default : cell                   (* DEFAULT, NULL when not given *)
}.

(** A table: its definition, the AUTOINCREMENT counter that SQLite keeps in
    [sqlite_sequence], and the stored rows, each row holding one cell per
    column of the schema. The rows are listed in the order in which they
    were inserted; that is not the order in which a SELECT returns them
    (by key), so only what does not depend on the order of [contents] says
    something about what the program reads back. *)
Record table := mkTable {
  schema : list column;
  autoincrement : bool;
  sequence : Z;
  contents : list (list cell)
}.

(** The tables of a database file, by name. *)
Abbreviation database := (gmap string table).

(** The SQL statements the program sends. The WHERE clause of every UPDATE
    and DELETE in the program is [key_col = ?]. *)
Inductive statement :=
  | DropTableIfExists (t : string)
  | CreateTable (if_not_exists : bool) (t : string) (cols : list column)
      (autoinc : bool)
  | InsertInto (t : string) (cols : list string) (values : list (list cell))
  | UpdateWhere (t : string) (sets : list (string * cell)) (key_col : string)
      (key : cell)
  | DeleteWhere (t : string) (key_col : string) (key : cell).

(** How an [INTEGER PRIMARY KEY] column reads the value given for it. *)
Inductive rowid_request :=
  | AutoRowid             (* NULL: SQLite picks the id *)
  | GivenRowid (z : Z)
  | BadRowid.             (* datatype mismatch *)

Definition number_to_Q (n : number) : Q :=
  match n with
  | NInt z => inject_Z z
  | NReal q => q
  end.

(** The comparison [stored = ?] of a WHERE clause; NULL equals nothing. *)
Definition sql_eq (a b : cell) : bool :=
  match a, b with
  | CNum x, CNum y => Qeq_bool (number_to_Q x) (number_to_Q y)
  | CStr x, CStr y => bool_decide (x = y)
  | _, _ => false
  end.

(** *** Names *)

(** SQLite compares the names of columns without regard to the case of
    the ASCII letters. *)
Definition lower (a : Ascii.ascii) : Ascii.ascii :=
  let n := Ascii.nat_of_ascii a in
  if ((65 <=? n) && (n <=? 90))%nat then Ascii.ascii_of_nat (n + 32) else a.

Fixpoint lower_case (s : string) : string :=
  match s with
  | EmptyString => EmptyString
  | String a s' => String (lower a) (lower_case s')
  end.

Definition same_name (a b : string) : bool :=
  bool_decide (lower_case a = lower_case b).

(** Position of the column that [name] names in a schema. *)
Fixpoint column_index (cols : list column) (name : string) : option nat :=
  match cols with
  | [] => None
  | c :: cols' =>
      if same_name (col_name c) name then Some 0%nat
      else S <$> column_index cols' name
  end.

(** The names under which every table has its row id. *)
Definition is_rowid_alias (name : string) : bool :=
  bool_decide (lower_case name ∈ ["rowid"; "oid"; "_rowid_"]).

(** Position of the primary-key column of a schema. *)
Fixpoint primary_key_index (cols : list column) : option nat :=
  match cols with
  | [] => None
  | c :: cols' =>
      if col_primary_key c then Some 0%nat else S <$> primary_key_index cols'
  end.

(** The column that a name in the column list of an INSERT stands for: a
    column of the table, or else, under a name of the row id, the
    [INTEGER PRIMARY KEY] column, which is the row id. (A table without
    such a column keeps its row id apart from its columns; the program
    creates none.) *)
Definition named_column (cols : list column) (name : string) : option nat :=
  match column_index cols name with
  | Some j => Some j
  | None => if is_rowid_alias name then primary_key_index cols else None
  end.

(** A SQLite INTEGER: a signed 64-bit integer. *)
Definition int64 (z : Z) : bool := ((- 2 ^ 63 <=? z) && (z <? 2 ^ 63))%Z.

Section Store.
Context `{Externals}.

Definition rowid_in_range (z : Z) : rowid_request :=
  if int64 z then GivenRowid z else BadRowid.

Definition rowid_of_cell (c : cell) : rowid_request :=
  match c with
  | CNull => AutoRowid
  | CNum (NInt z) => GivenRowid z
  | CNum (NReal q) =>
      let r := Qred q in
      if decide (Qden r = 1%positive) then rowid_in_range (Qnum r) else BadRowid
  | CStr s => from_option rowid_in_range BadRowid (text_to_rowid s)
  | CTime _ => BadRowid
  end.

(** The row ids in use in a table. *)
Definition rowids (pk : nat) (rs : list (list cell)) : list Z :=
  omap (λ r, match get_cell pk r with CNum (NInt z) => Some z | _ => None end) rs.

(** The id SQLite picks for a NULL key: one more than the largest id in use
    (and, under AUTOINCREMENT, than the largest id ever used); 1 in an
    empty table. (Once the largest id is 2^63 - 1 SQLite does otherwise;
    the model goes on counting.) *)
Definition next_rowid (tb : table) (pk : nat) : Z :=
  let in_use :=
    match rowids pk (contents tb) with
    | [] => 0
    | z :: zs => foldr Z.max z zs
    end in
  (if autoincrement tb then Z.max in_use (sequence tb) else in_use) + 1.

(** Whether a value can be bound to a [?]: the sqlite3 module has no
    adapter for a pandas Timestamp, and raises OverflowError on an integer
    that is not a signed 64-bit integer. *)
Definition bindable (c : cell) : bool :=
  match c with
  | CTime _ => false
  | CNum (NInt z) => int64 z
  | _ => true
  end.

(** NOT NULL and CHECK of one column on the value to store. *)
Definition column_accepts (c : column) (v : cell) : bool :=
  (negb (col_not_null c) || bool_decide (v ≠ CNull))
  && match col_check c, v with
     | None, _ => true
     | Some _, CNull => true
     | Some allowed, CStr s => bool_decide (s ∈ allowed)
     | Some _, _ => false
     end.

(** Whether [INSERT INTO t (names) ..] compiles: every name of the list
    stands for a column. *)
Definition insert_compiles (sch : list column) (names : list string) : bool :=
  forallb (λ name, bool_decide (is_Some (named_column sch name))) names.

(** Whether the values [vals] can be bound to the [?] of the statement, one
    per listed name. *)
Definition insert_binds (names : list string) (vals : list cell) : bool :=
  bool_decide (length names = length vals) && forallb bindable vals.

(** The value an INSERT gives to the column at position [j] of the schema:
    the value listed for it, or the column's default. When the list names
    a column more than once, the first of its values counts; for the
    [INTEGER PRIMARY KEY] column, the last. *)
Definition inserted_value (sch : list column) (names : list string)
    (vals : list cell) (j : nat) (c : column) : cell :=
  let given :=
    snd <$> filter (λ nv, named_column sch nv.1 = Some j) (zip names vals) in
  let chosen :=
    if bool_decide (primary_key_index sch = Some j) then last given
    else head given in
  default (col_default c) chosen.

(** The row an INSERT builds, before the key is settled. The values are
    kept as they were bound: the conversions SQLite applies by the declared
    type of a column (a number stored as text in a TEXT column, a text that
    reads as a number stored as that number in an INTEGER, DATE or DATETIME
    column) are not modelled. *)
Definition inserted_row (sch : list column) (names : list string)
    (vals : list cell) : list cell :=
  imap (inserted_value sch names vals) sch.

(** [INSERT INTO t (names) VALUES (vals)] on the table itself; [None] when
    the statement raises. A key given explicitly must be an integer not in
    use. *)
Definition insert_row (tb : table) (names : list string) (vals : list cell)
    : option table :=
  if negb (insert_compiles (schema tb) names && insert_binds names vals)
  then None
  else
    let row := inserted_row (schema tb) names vals in
    if negb (forallb (λ cv, column_accepts cv.1 cv.2) (zip (schema tb) row))
    then None
    else
      match primary_key_index (schema tb) with
      | None => Some (mkTable (schema tb) (autoincrement tb) (sequence tb)
                              (contents tb ++ [row]))
      | Some pk =>
          let store z :=
            Some (mkTable (schema tb) (autoincrement tb)
                    (if autoincrement tb then Z.max (sequence tb) z else sequence tb)
                    (contents tb ++ [<[pk := CNum (NInt z)]> row])) in
          match rowid_of_cell (get_cell pk row) with
          | BadRowid => None
          | AutoRowid => store (next_rowid tb pk)
          | GivenRowid z =>
              if decide (z ∈ rowids pk (contents tb)) then None else store z
          end
      end.

(** A multi-row VALUES list inserts its rows in order. *)
Fixpoint insert_rows (tb : table) (cols : list string)
    (values : list (list cell)) : option table :=
  match values with
  | [] => Some tb
  | vals :: values' => tb' ← insert_row tb cols vals; insert_rows tb' cols values'
  end.

(** One assignment [c = v] of an UPDATE on a stored row. *)
Definition assign_in_row (cols : list column) (row : list cell)
    (set : string * cell) : list cell :=
  match column_index cols set.1 with
  | Some i => <[i := set.2]> row
  | None => row
  end.

(** Whether [UPDATE t SET sets WHERE key_col = key] compiles and its values
    can be bound. *)
Definition update_binds (sch : list column) (sets : list (string * cell))
    (key_col : string) (key : cell) : bool :=
  bool_decide (is_Some (column_index sch key_col))
  && forallb (λ s, bool_decide (is_Some (column_index sch s.1)) && bindable s.2)
       sets
  && bindable key.

(** [UPDATE t SET sets WHERE key_col = key]; no UPDATE of the program
    assigns a key column, so key uniqueness is not re-checked here. *)
Definition update_rows (tb : table) (sets : list (string * cell))
    (key_col : string) (key : cell) : option table :=
  match column_index (schema tb) key_col with
  | None => None
  | Some k =>
      if negb (update_binds (schema tb) sets key_col key)
      then None
      else
        let rs := (λ r, if sql_eq (get_cell k r) key
                        then foldl (assign_in_row (schema tb)) r sets else r)
                  <$> contents tb in
        if forallb (λ r, forallb (λ cv, column_accepts cv.1 cv.2)
                           (zip (schema tb) r)) rs
        then Some (mkTable (schema tb) (autoincrement tb) (sequence tb) rs)
        else None
  end.

(** [DELETE FROM t WHERE key_col = key] *)
Definition delete_rows (tb : table) (key_col : string) (key : cell)
    : option table :=
  match column_index (schema tb) key_col with
  | None => None
  | Some k =>
      if bindable key
      then Some (mkTable (schema tb) (autoincrement tb) (sequence tb)
                   (filter (λ r, sql_eq (get_cell k r) key = false) (contents tb)))
      else None
  end.

(** [cursor.execute(stmt)] on the tables a connection sees; [None] when
    the statement raises, and then no table has changed. *)
Definition apply_statement (stmt : statement) (db : database) : option database :=
  match stmt with
  | DropTableIfExists t => Some (delete t db)
  | CreateTable if_not_exists t cols autoinc =>
      match db !! t with
      | Some _ => if if_not_exists then Some db else None
      | None => Some (<[t := mkTable cols autoinc 0 []]> db)
      end
  | InsertInto t cols values =>
      tb ← db !! t; tb' ← insert_rows tb cols values; Some (<[t := tb']> db)
  | UpdateWhere t sets key_col key =>
      tb ← db !! t; tb' ← update_rows tb sets key_col key; Some (<[t := tb']> db)
  | DeleteWhere t key_col key =>
      tb ← db !! t; tb' ← delete_rows tb key_col key; Some (<[t := tb']> db)
  end.

(** Whether SQLite begins to run [stmt] on the tables [db]: the statement
    compiles and its values are bound. From then on the connection is in a
    write transaction, also when the statement goes on to fail on a
    constraint. A statement that does not compile, or whose values the
    sqlite3 module cannot bind, raises before that. *)
Definition runs (stmt : statement) (db : database) : bool :=
  match stmt with
  | DropTableIfExists _ | CreateTable _ _ _ _ => false
  | InsertInto t names values =>
      match db !! t with
      | Some tb =>
          insert_compiles (schema tb) names && forallb (insert_binds names) values
      | None => false
      end
  | UpdateWhere t sets key_col key =>
      match db !! t with
      | Some tb => update_binds (schema tb) sets key_col key
      | None => false
      end
  | DeleteWhere t key_col key =>
      match db !! t with
      | Some tb =>
          bool_decide (is_Some (column_index (schema tb) key_col)) && bindable key
      | None => false
      end
  end.

(** Whether [stmt] has to write to the file: dropping a table that is not
    there and creating, with IF NOT EXISTS, a table that is there do not. *)
Definition writes (stmt : statement) (db : database) : bool :=
  match stmt with
  | DropTableIfExists t => bool_decide (is_Some (db !! t))
  | CreateTable _ t _ _ => bool_decide (db !! t = None)
  | InsertInto _ _ _ | UpdateWhere _ _ _ _ | DeleteWhere _ _ _ => true
  end.

End Store.

(* --------------------------------------------------------------------- *)
(** ** Connections to the database file                                    *)
(* --------------------------------------------------------------------- *)

(** An open sqlite3 connection: the committed content of the file, the
    tables as the connection sees them, whether it is in a write
    transaction, whose write lock on the file it then holds, and whether
    it is shut out from writing because another connection holds that
    lock. *)
Record session := mkSession {
  file : database;
  view : database;
  in_transaction : bool;
  blocked : bool
}.

(** One input file: [pd.read_csv] raises on it, or returns a frame. *)
Inductive csv_file :=
  | Unreadable
  | Readable (df : DataFrame).

(** What the program reads and writes: the directory [ROOT/data] (absent, or
    its files by name), the file [food_rescue.db] (absent, or its committed
    tables), the number of connections opened and not closed, and whether
    one of these holds the write lock of the file. *)
Record world := mkWorld {
  data_dir : option (gmap string csv_file);
  db_file : option database;
  open_connections : nat;
  write_locked : bool
}.

(** How a call ends: it returns a value or lets an exception escape. *)
Inductive result (A : Type) :=
  | Return (a : A)
  | Raise.
Arguments Return {A} a.
Arguments Raise {A}.

(** The two readings of the clock at one instant. The program only calls
    [datetime.now()], which is [local_now]. *)
Record clock := mkClock {
  local_now : string;     (* datetime.now().strftime('%Y-%m-%d %H:%M:%S') *)
  utc_now : string        (* the same instant printed in UTC *)
}.

Definition is_ddl (stmt : statement) : bool :=
  match stmt with
  | DropTableIfExists _ | CreateTable _ _ _ _ => true
  | _ => false
  end.

Section Connections.
Context `{Externals}.

(** [get_db_connection]: [sqlite3.connect] creates the file when missing. *)
Definition get_db_connection (w : world) : session * world :=
  let db := default ∅ (db_file w) in
  (mkSession db db false (write_locked w),
   mkWorld (data_dir w) (Some db) (S (open_connections w)) (write_locked w)).

(** [cursor.execute(stmt)]. The sqlite3 module opens a transaction before
    INSERT, UPDATE and DELETE; a DROP or CREATE outside a transaction is
    committed at once. [None] when the statement raises: a statement that
    has to write raises 'database is locked' while another connection holds
    the write lock. *)
Definition execute (stmt : statement) (s : session) : option session :=
  if blocked s && writes stmt (view s) then None
  else
    db ← apply_statement stmt (view s);
    Some (if is_ddl stmt then
            if in_transaction s then mkSession (file s) db true (blocked s)
            else mkSession db db false (blocked s)
          else mkSession (file s) db true (blocked s)).

(** The connection after [stmt] raised: no table has changed, but a
    statement that SQLite had begun to run has taken the write lock, and
    the transaction opened for it stays open. *)
Definition after_raise (stmt : statement) (s : session) : session :=
  if negb (blocked s) && runs stmt (view s)
  then mkSession (file s) (view s) true (blocked s)
  else s.

(** [conn.commit()] *)
Definition commit (s : session) : session :=
  mkSession (view s) (view s) false (blocked s).

(** [conn.close()]: what was not committed is lost, and the lock the
    connection held is released. *)
Definition close (s : session) (w : world) : world :=
  mkWorld (data_dir w) (Some (file s)) (pred (open_connections w))
    (write_locked w).

(** Returning, or raising, while the connection is still open. Nothing
    closes it afterwards: the connection object is in a reference cycle,
    and Python frees it only if and when its cycle collector runs. The
    model takes it that it does not. So the connection stays counted as
    open; its uncommitted work never reaches the file; and when it is in a
    write transaction it keeps the write lock, so that from then on every
    statement that has to write raises in every other connection. *)
Definition leave_open (s : session) (w : world) : world :=
  mkWorld (data_dir w) (Some (file s)) (open_connections w)
    (write_locked w || in_transaction s).

(** Statements executed one after the other, up to the first that raises. *)
Fixpoint execute_all (stmts : list statement) (s : session) : bool * session :=
  match stmts with
  | [] => (true, s)
  | stmt :: stmts' =>
      match execute stmt s with
      | None => (false, after_raise stmt s)
      | Some s' => execute_all stmts' s'
      end
  end.

End Connections.

(* --------------------------------------------------------------------- *)
(** ** The schemas (source lines 45-101 and 181-237)                       *)
(* --------------------------------------------------------------------- *)

Definition plain (name : string) : column := mkColumn name false false None CNull.
Definition primary (name : string) : column := mkColumn name true false None CNull.

Definition providers_schema : list column :=
  [primary "provider_id"; mkColumn "name" false true None CNull; plain "type";
   plain "address"; plain "city"; plain "contact"].

Definition receivers_schema : list column :=
  [primary "receiver_id"; plain "name"; plain "type"; plain "city"; plain "contact"].

Definition food_listings_schema : list column :=
  [primary "food_id"; plain "food_name"; plain "quantity"; plain "expiry_date";
   plain "provider_id"; plain "provider_type"; plain "location";
   plain "food_type"; plain "meal_type"].

Definition claims_schema : list column :=
  [primary "claim_id"; plain "food_id"; plain "receiver_id";
   mkColumn "status" false false (Some ["Pending"; "Completed"; "Cancelled"]) CNull;
   plain "timestamp"].

Definition audit_log_schema : list column :=
  [primary "id"; mkColumn "operation" false true None CNull;
   mkColumn "user" false false None (CStr "streamlit"); plain "details";
   mkColumn "ts_utc" false true None CNull].

(** The five CREATE TABLE statements, in source order. *)
Definition create_tables (if_not_exists : bool) : list statement :=
  [CreateTable if_not_exists "providers" providers_schema false;
   CreateTable if_not_exists "receivers" receivers_schema false;
   CreateTable if_not_exists "food_listings" food_listings_schema false;
   CreateTable if_not_exists "claims" claims_schema false;
   CreateTable if_not_exists "audit_log" audit_log_schema true].

(** Lines 38-42. *)
Definition drop_tables : list statement :=
  [DropTableIfExists "claims"; DropTableIfExists "food_listings";
   DropTableIfExists "receivers"; DropTableIfExists "providers";
   DropTableIfExists "audit_log"].

(* --------------------------------------------------------------------- *)
(** ** import_csv_data (source lines 18-159)                               *)
(* --------------------------------------------------------------------- *)

(** A name matched by [glob('*.csv')]. *)
Definition is_csv_name (name : string) : bool :=
  String.prefix "vsc." (String.rev name).

(** [list(DATA_DIR.glob('*.csv'))] *)
Definition csv_files (dir : gmap string csv_file) : list string :=
  filter (λ name, is_csv_name name = true) (elements (dom dir)).

Definition import_order : list string :=
  ["providers"; "receivers"; "food_listings"; "claims"].

Section Loader.
Context `{Externals}.

(** Lines 143-144: one INSERT per row of the cleaned frame, with the names
    that SQLite reads in the header. [false] when an INSERT raised; the
    rows before it have been executed. *)
Fixpoint insert_each (table : string) (names : list string)
    (rs : list (list cell)) (s : session) : bool * session :=
  match rs with
  | [] => (true, s)
  | r :: rs' =>
      match execute (InsertInto table names [r]) s with
      | None => (false, after_raise (InsertInto table names [r]) s)
      | Some s' => insert_each table names rs' s'
      end
  end.

(** Lines 107-154, the body of the loop for one table. [false] when the
    [except] branch was taken. With a header that does not make a column
    list, the first INSERT raises before it runs. *)
Definition import_table (dir : gmap string csv_file) (table : string)
    (s : session) : bool * session :=
  match dir !! (table +:+ "_data.csv") with
  | None => (true, s)
  | Some Unreadable => (false, s)
  | Some (Readable df0) =>
      let df := clean table df0 in
      if frame_empty df then (true, s)
      else
        match sql_columns (columns df) with
        | None => (false, s)
        | Some names => insert_each table names (rows df) s
        end
  end.

(** Lines 106-154: the loop; the [except] branch returns at once. *)
Fixpoint import_loop (dir : gmap string csv_file) (tables : list string)
    (s : session) : bool * session :=
  match tables with
  | [] => (true, s)
  | table :: tables' =>
      match import_table dir table s with
      | (false, s') => (false, s')
      | (true, s') => import_loop dir tables' s'
      end
  end.

(** [import_csv_data]. The messages written with [st.info], [st.write],
    [st.success], [st.warning] and [st.error] are not modelled. Lines
    38-101 are outside the [try]: an exception there escapes, with the
    connection open. *)
Definition import_csv_data (w : world) : result bool * world :=
  match data_dir w with
  | None => (Return false, w)
  | Some dir =>
      if bool_decide (csv_files dir = []) then (Return false, w)
      else
        let '(s0, w0) := get_db_connection w in
        match execute_all (drop_tables ++ create_tables false) s0 with
        | (false, s1) => (Raise, leave_open s1 w0)
        | (true, s1) =>
            match import_loop dir import_order s1 with
            | (false, s2) => (Return false, leave_open s2 w0)
            | (true, s2) => (Return true, close (commit s2) w0)
            end
        end
  end.

End Loader.

(* --------------------------------------------------------------------- *)
(** ** init_database (source lines 161-281)                                *)
(* --------------------------------------------------------------------- *)

Definition int (z : Z) : cell := CNum (NInt z).

Definition sample_providers : list (list cell) :=
  [[int 1; CStr "Restaurant A"; CStr "Restaurant"; CStr "New York"; CStr "+1-555-0101"];
   [int 2; CStr "Cafe B"; CStr "Cafe"; CStr "Los Angeles"; CStr "+1-555-0102"];
   [int 3; CStr "Grocery C"; CStr "Grocery"; CStr "Chicago"; CStr "+1-555-0103"];
   [int 4; CStr "Bakery D"; CStr "Bakery"; CStr "Houston"; CStr "+1-555-0104"];
   [int 5; CStr "Hotel E"; CStr "Hotel"; CStr "Phoenix"; CStr "+1-555-0105"]].

Definition sample_receivers : list (list cell) :=
  [[int 1; CStr "Food Bank A"; CStr "Food Bank"; CStr "New York"; CStr "+1-555-0201"];
   [int 2; CStr "Shelter B"; CStr "Shelter"; CStr "Los Angeles"; CStr "+1-555-0202"];
   [int 3; CStr "Community C"; CStr "Community"; CStr "Chicago"; CStr "+1-555-0203"];
   [int 4; CStr "Church D"; CStr "Church"; CStr "Houston"; CStr "+1-555-0204"];
   [int 5; CStr "School E"; CStr "School"; CStr "Phoenix"; CStr "+1-555-0205"]].

Definition sample_food_listings : list (list cell) :=
  [[int 1; CStr "Bread"; int 50; CStr "2025-01-15"; int 1; CStr "Restaurant";
    CStr "Kitchen A"; CStr "Bread"; CStr "Breakfast"];
   [int 2; CStr "Rice"; int 100; CStr "2025-02-01"; int 2; CStr "Cafe";
    CStr "Storage B"; CStr "Grain"; CStr "Lunch"];
   [int 3; CStr "Vegetables"; int 75; CStr "2025-01-20"; int 3; CStr "Grocery";
    CStr "Warehouse C"; CStr "Vegetables"; CStr "Dinner"];
   [int 4; CStr "Fruits"; int 60; CStr "2025-01-25"; int 4; CStr "Bakery";
    CStr "Bakery D"; CStr "Fruits"; CStr "Snack"];
   [int 5; CStr "Milk"; int 30; CStr "2025-01-18"; int 5; CStr "Hotel";
    CStr "Kitchen E"; CStr "Dairy"; CStr "Breakfast"];
   [int 6; CStr "Cheese"; int 25; CStr "2025-01-30"; int 1; CStr "Restaurant";
    CStr "Kitchen A"; CStr "Dairy"; CStr "Lunch"];
   [int 7; CStr "Pasta"; int 80; CStr "2025-02-05"; int 2; CStr "Cafe";
    CStr "Storage B"; CStr "Grain"; CStr "Dinner"];
   [int 8; CStr "Meat"; int 40; CStr "2025-01-22"; int 3; CStr "Grocery";
    CStr "Warehouse C"; CStr "Protein"; CStr "Dinner"]].

Definition sample_claims : list (list cell) :=
  [[int 1; int 1; int 1; CStr "Completed"; CStr "2025-01-10 10:00:00"];
   [int 2; int 2; int 2; CStr "Pending"; CStr "2025-01-11 14:30:00"];
   [int 3; int 3; int 3; CStr "Completed"; CStr "2025-01-12 09:15:00"];
   [int 4; int 4; int 4; CStr "Cancelled"; CStr "2025-01-13 16:45:00"];
   [int 5; int 5; int 5; CStr "Pending"; CStr "2025-01-14 11:20:00"]].

(** Lines 240-277: the four INSERT statements of the fallback. *)
Definition insert_sample_data : list statement :=
  [InsertInto "providers" ["provider_id"; "name"; "type"; "city"; "contact"]
     sample_providers;
   InsertInto "receivers" ["receiver_id"; "name"; "type"; "city"; "contact"]
     sample_receivers;
   InsertInto "food_listings"
     ["food_id"; "food_name"; "quantity"; "expiry_date"; "provider_id";
      "provider_type"; "location"; "food_type"; "meal_type"]
     sample_food_listings;
   InsertInto "claims" ["claim_id"; "food_id"; "receiver_id"; "status"; "timestamp"]
     sample_claims].

Section Bootstrap.
Context `{Externals}.

(** Lines 176-281: the fallback to sample data. Nothing catches an
    exception here, and nothing closes the connection then. *)
Definition use_sample_data (w : world) : result unit * world :=
  let '(s0, w0) := get_db_connection w in
  match execute_all (create_tables true ++ insert_sample_data) s0 with
  | (false, s1) => (Raise, leave_open s1 w0)
  | (true, s1) => (Return (), close (commit s1) w0)
  end.

Definition init_database (w : world) : result unit * world :=
  match db_file w with
  | Some _ => (Return (), w)
  | None =>
      let found_csv :=
        match data_dir w with
        | Some dir => negb (bool_decide (csv_files dir = []))
        | None => false
        end in
      if found_csv then
        match import_csv_data w with
        | (Return true, w') => (Return (), w')
        | (Return false, w') => use_sample_data w'
        | (Raise, w') => (Raise, w')
        end
      else use_sample_data w
  end.

End Bootstrap.

(* --------------------------------------------------------------------- *)
(** ** run_query, execute_query, log_audit (source lines 283-315)          *)
(* --------------------------------------------------------------------- *)

(** Rows an UPDATE or DELETE matches in the tables [db]. *)
Definition matching_rows (db : database) (t key_col : string) (key : cell) : nat :=
  match db !! t with
  | None => 0
  | Some tb =>
      match column_index (schema tb) key_col with
      | None => 0
      | Some k => length (filter (λ r, sql_eq (get_cell k r) key = true) (contents tb))
      end
  end%nat.

(** [cursor.rowcount] after [stmt] ran on the tables [db]. *)
Definition rowcount (stmt : statement) (db : database) : Z :=
  match stmt with
  | InsertInto _ _ values => Z.of_nat (length values)
  | UpdateWhere t _ key_col key | DeleteWhere t key_col key =>
      Z.of_nat (matching_rows db t key_col key)
  | _ => -1
  end.

Section Queries.
Context `{Externals}.

(** [run_query]. A SELECT is given by what [pd.read_sql_query] returns for
    it on the tables it reads, [None] when it raises. The [finally] clause
    closes the connection on both paths. *)
Definition run_query (query : database → option DataFrame) (w : world)
    : result DataFrame * world :=
  let '(s, w0) := get_db_connection w in
  match query (view s) with
  | Some df => (Return df, close s w0)
  | None => (Raise, close s w0)
  end.

(** [execute_query] *)
Definition execute_query (stmt : statement) (w : world) : result Z * world :=
  let '(s, w0) := get_db_connection w in
  match execute stmt s with
  | Some s' => (Return (rowcount stmt (view s)), close (commit s') w0)
  | None => (Raise, close s w0)
  end.

(** [log_audit] *)
Definition log_audit (now : clock) (operation details : string) (w : world)
    : result Z * world :=
  execute_query
    (InsertInto "audit_log" ["operation"; "user"; "details"; "ts_utc"]
       [[CStr operation; CStr "streamlit"; CStr details; CStr (local_now now)]])
    w.

End Queries.

(* --------------------------------------------------------------------- *)
(** ** The mutating actions of the pages (source lines 397-581, 718-726)   *)
(* --------------------------------------------------------------------- *)

(** One submitted form or pressed button, with the values of its widgets. *)
Inductive action :=
  | CreateListing (food_id : number) (food_name : string) (quantity : number)
      (expiry_date : string) (provider_id : cell)
      (provider_type location food_type meal_type : string)
  | UpdateListing (picked_id : number) (food_name : string) (quantity : number)
      (expiry_date : string) (provider_id : number)
      (provider_type location food_type meal_type : string)
  | DeleteListing (del_id : number)
  | CreateClaim (claim_id : number) (food_id receiver_id : cell) (status : string)
  | UpdateClaim (claim_id : Z) (new_status : string)
  | AddProvider (provider_id : number) (name type_ address city contact : string)
  | EditProvider (provider_id : number) (name type_ address city contact : string)
  | DeleteProvider (provider_id : number)
  | AddReceiver (receiver_id : number) (name type_ city contact : string)
  | EditReceiver (receiver_id : number) (name type_ city contact : string)
  | DeleteReceiver (receiver_id : number).

Section Actions.
Context `{Externals}.

(** The statement an action passes to [execute_query]. *)
Definition action_statement (now : clock) (a : action) : statement :=
  match a with
  | CreateListing food_id food_name quantity expiry_date provider_id
      provider_type location food_type meal_type =>
      InsertInto "food_listings"
        ["food_id"; "food_name"; "quantity"; "expiry_date"; "provider_id";
         "provider_type"; "location"; "food_type"; "meal_type"]
        [[CNum food_id; CStr food_name; CNum quantity; CStr expiry_date;
          provider_id; CStr provider_type; CStr location; CStr food_type;
          CStr meal_type]]
  | UpdateListing picked_id food_name quantity expiry_date provider_id
      provider_type location food_type meal_type =>
      UpdateWhere "food_listings"
        [("food_name", CStr food_name); ("quantity", CNum quantity);
         ("expiry_date", CStr expiry_date); ("provider_id", CNum provider_id);
         ("provider_type", CStr provider_type); ("location", CStr location);
         ("food_type", CStr food_type); ("meal_type", CStr meal_type)]
        "food_id" (CNum picked_id)
  | DeleteListing del_id => DeleteWhere "food_listings" "food_id" (CNum del_id)
  | CreateClaim claim_id food_id receiver_id status =>
      InsertInto "claims"
        ["claim_id"; "food_id"; "receiver_id"; "status"; "timestamp"]
        [[CNum claim_id; food_id; receiver_id; CStr status; CStr (local_now now)]]
  | UpdateClaim claim_id new_status =>
      UpdateWhere "claims" [("status", CStr new_status)] "claim_id" (int claim_id)
  | AddProvider provider_id name type_ address city contact =>
      InsertInto "providers"
        ["provider_id"; "name"; "type"; "address"; "city"; "contact"]
        [[CNum provider_id; CStr name; CStr type_; CStr address; CStr city;
          CStr contact]]
  | EditProvider provider_id name type_ address city contact =>
      UpdateWhere "providers"
        [("name", CStr name); ("type", CStr type_); ("address", CStr address);
         ("city", CStr city); ("contact", CStr contact)]
        "provider_id" (CNum provider_id)
  | DeleteProvider provider_id =>
      DeleteWhere "providers" "provider_id" (CNum provider_id)
  | AddReceiver receiver_id name type_ city contact =>
      InsertInto "receivers" ["receiver_id"; "name"; "type"; "city"; "contact"]
        [[CNum receiver_id; CStr name; CStr type_; CStr city; CStr contact]]
  | EditReceiver receiver_id name type_ city contact =>
      UpdateWhere "receivers"
        [("name", CStr name); ("type", CStr type_); ("city", CStr city);
         ("contact", CStr contact)]
        "receiver_id" (CNum receiver_id)
  | DeleteReceiver receiver_id =>
      DeleteWhere "receivers" "receiver_id" (CNum receiver_id)
  end.

(** The operation name an action passes to [log_audit]. *)
Definition action_operation (a : action) : string :=
  match a with
  | CreateListing _ _ _ _ _ _ _ _ _ => "create_listing"
  | UpdateListing _ _ _ _ _ _ _ _ _ => "update_listing"
  | DeleteListing _ => "delete_listing"
  | CreateClaim _ _ _ _ => "create_claim"
  | UpdateClaim _ _ => "update_claim"
  | AddProvider _ _ _ _ _ _ => "create_provider"
  | EditProvider _ _ _ _ _ _ => "update_provider"
  | DeleteProvider _ => "delete_provider"
  | AddReceiver _ _ _ _ _ => "create_receiver"
  | EditReceiver _ _ _ _ _ => "update_receiver"
  | DeleteReceiver _ => "delete_receiver"
  end.

(** The detail text, an f-string over the key of the row. *)
Definition action_details (a : action) : string :=
  match a with
  | CreateListing id _ _ _ _ _ _ _ _ | UpdateListing id _ _ _ _ _ _ _ _
  | DeleteListing id => "food_id=" +:+ number_str id
  | CreateClaim id _ _ _ => "claim_id=" +:+ number_str id
  | UpdateClaim id new_status =>
      "claim_id=" +:+ number_str (NInt id) +:+ ", status=" +:+ new_status
  | AddProvider id _ _ _ _ _ | EditProvider id _ _ _ _ _ | DeleteProvider id =>
      "provider_id=" +:+ number_str id
  | AddReceiver id _ _ _ _ | EditReceiver id _ _ _ _ | DeleteReceiver id =>
      "receiver_id=" +:+ number_str id
  end.

(** An action: [execute_query] on its statement, then [log_audit]. An
    exception of the first call skips the second. *)
Definition perform (now : clock) (a : action) (w : world) : result unit * world :=
  match execute_query (action_statement now a) w with
  | (Raise, w1) => (Raise, w1)
  | (Return _, w1) =>
      match log_audit now (action_operation a) (action_details a) w1 with
      | (Raise, w2) => (Raise, w2)
      | (Return _, w2) => (Return (), w2)
      end
  end.

(** The button [Re-import CSV Data] of the admin page. *)
Definition reimport (w : world) : result bool * world := import_csv_data w.

End Actions.

(** The audit rows stored in the database file. *)
Definition audit_rows (w : world) : list (list cell) :=
  match db_file w with
  | Some db => from_option contents [] (db !! "audit_log")
  | None => []
  end.

(** The rows of table [t] stored in the database file. *)
Definition stored_rows (t : string) (w : world) : list (list cell) :=
  match db_file w with
  | Some db => from_option contents [] (db !! t)
  | None => []
  end.

(* --------------------------------------------------------------------- *)
(** ** A concrete instance of the library functions                        *)
(* --------------------------------------------------------------------- *)

(** Enough of Python, pandas and SQLite to run the program on concrete
    inputs: dates are read in the forms YYYY-MM-DD and YYYY/MM/DD only,
    numbers as decimal integers with an optional minus sign; a character
    of a string is a code point below 256; a label is read as a name when
    it is spelled like one (letters, digits and underscores, not starting
    with a digit), and SQL's keywords are not told apart. *)

(** White space among the code points below 256: tab to carriage return,
    the four separators, space, next line (U+0085) and no-break space
    (U+00A0). *)
Definition is_whitespace (a : Ascii.ascii) : bool :=
  let n := Ascii.nat_of_ascii a in
  ((9 <=? n) && (n <=? 13) || (28 <=? n) && (n <=? 32)
   || (n =? 133) || (n =? 160))%nat.

Fixpoint lstrip (s : string) : string :=
  match s with
  | EmptyString => EmptyString
  | String a s' => if is_whitespace a then lstrip s' else s
  end.

Fixpoint rstrip (s : string) : string :=
  match s with
  | EmptyString => EmptyString
  | String a s' =>
      match rstrip s' with
      | EmptyString => if is_whitespace a then EmptyString else String a EmptyString
      | t => String a t
      end
  end.

Definition strip_both (s : string) : string := rstrip (lstrip s).

(** The float64 nearest to an integer, ties to the even mantissa; it is an
    integer again. *)
Definition nearest_float64 (z : Z) : Z :=
  (if Z.abs z <=? 2 ^ 53 then z
   else
     let k := Z.log2 (Z.abs z) - 52 in
     let m := Z.abs z / 2 ^ k in
     let r := Z.abs z mod 2 ^ k in
     let half := 2 ^ (k - 1) in
     let m' := if (half <? r) || ((r =? half) && Z.odd m) then m + 1 else m in
     Z.sgn z * (m' * 2 ^ k))%Z.

Definition name_start (a : Ascii.ascii) : bool :=
  let n := Ascii.nat_of_ascii a in
  ((65 <=? n) && (n <=? 90) || (97 <=? n) && (n <=? 122) || (n =? 95))%nat.

Definition name_char (a : Ascii.ascii) : bool :=
  let n := Ascii.nat_of_ascii a in
  name_start a || ((48 <=? n) && (n <=? 57))%nat.

Fixpoint all_name_chars (s : string) : bool :=
  match s with
  | EmptyString => true
  | String a s' => name_char a && all_name_chars s'
  end.

Definition spelled_as_name (s : string) : bool :=
  match s with
  | EmptyString => false
  | String a s' => name_start a && all_name_chars s'
  end.

Definition digit (a : Ascii.ascii) : option nat :=
  let n := Ascii.nat_of_ascii a in
  if ((48 <=? n) && (n <=? 57))%nat then Some (n - 48)%nat else None.

Fixpoint digits_value (acc : nat) (s : string) : option nat :=
  match s with
  | EmptyString => Some acc
  | String a s' => d ← digit a; digits_value (10 * acc + d)%nat s'
  end.

Definition parse_nat (s : string) : option nat :=
  if decide (s = "") then None else digits_value 0 s.

Definition parse_int (s : string) : option Z :=
  match s with
  | String "-"%char s' => n ← parse_nat s'; Some (- Z.of_nat n)
  | _ => Z.of_nat <$> parse_nat s
  end.

Definition parse_iso_date (c : cell) : option Timestamp :=
  match c with
  | CStr s =>
      if bool_decide (String.length s = 10%nat
                      ∧ substring 4 1 s = substring 7 1 s
                      ∧ substring 4 1 s ∈ ["-"; "/"])
      then
        y ← parse_nat (substring 0 4 s);
        m ← parse_nat (substring 5 2 s);
        d ← parse_nat (substring 8 2 s);
        if ((1 <=? m) && (m <=? 12) && (1 <=? d) && (d <=? 31))%nat
        then Some (mkTimestamp y m d) else None
      else None
  | _ => None
  end.

Definition int_str (z : Z) : string :=
  match z with
  | Z0 => "0"
  | Zpos p => NilEmpty.string_of_uint (Pos.to_uint p)
  | Zneg p => "-" +:+ NilEmpty.string_of_uint (Pos.to_uint p)
  end.

#[export, refine] Instance simple_externals : Externals := {|
  to_datetime col := parse_iso_date <$> col;
  to_datetime_length col := length_fmap parse_iso_date col;
  parse_numeric s := NInt <$> parse_int s;
  to_float64 n :=
    match n with
    | NInt z => NInt (nearest_float64 z)
    | NReal q => NReal q
    end;
  number_str n :=
    match n with
    | NInt z => int_str z
    | NReal q => int_str (Qnum q) +:+ "/" +:+ int_str (Zpos (Qden q))
    end;
  strip := strip_both;
  sql_columns labels :=
    if forallb spelled_as_name labels && negb (bool_decide (labels = []))
    then Some labels else None;
  text_to_rowid := parse_int
|}.
Proof.
  - (* to_float64_exact *)
    intros z Hz. unfold nearest_float64.
    rewrite (proj2 (Z.leb_le _ _)); [reflexivity|]. lia.
  - (* to_float64_sign *)
    intros [z|q]; [|done]. cbn. unfold nearest_float64.
    intros Hz%Z.ltb_ge. apply Z.ltb_ge.
    destruct (Z.abs z <=? 2 ^ 53)%Z; [done|].
    apply Z.mul_nonneg_nonneg; [by apply Z.sgn_nonneg|].
    apply Z.mul_nonneg_nonneg; [|by apply Z.pow_nonneg].
    assert (0 ≤ Z.abs z / 2 ^ (Z.log2 (Z.abs z) - 52))%Z.
    { destruct (Z.le_gt_cases 0 (Z.log2 (Z.abs z) - 52)).
      - apply Z.div_pos; [lia|]. by apply Z.pow_pos_nonneg.
      - rewrite Z.pow_neg_r by done. by rewrite Z.div_0_r. }
    destruct (_ || _); lia.
  - (* strip_idempotent *)
    assert (Hcons : ∀ a s, rstrip (String a s)
              = match rstrip s with
                | EmptyString =>
                    if is_whitespace a then EmptyString else String a EmptyString
                | t => String a t
                end) by reflexivity.
    assert (Hr : ∀ s, rstrip (rstrip s) = rstrip s).
    { induction s as [|a s IH]; [done|]. rewrite Hcons.
      destruct (rstrip s) as [|b t] eqn:Ht.
      - destruct (is_whitespace a) eqn:Ha; [done|]. rewrite Hcons. cbn [rstrip].
        by rewrite Ha.
      - by rewrite Hcons, IH. }
    assert (Hhead : ∀ a s, is_whitespace a = false →
              ∃ t, rstrip (String a s) = String a t).
    { intros a s Ha. rewrite Hcons. destruct (rstrip s); rewrite ?Ha; eauto. }
    assert (Hl : ∀ s, lstrip s = EmptyString
                      ∨ ∃ a t, lstrip s = String a t ∧ is_whitespace a = false).
    { induction s as [|a s IH]; [by left|]. cbn [lstrip].
      destruct (is_whitespace a) eqn:Ha; [done|]. right. eauto. }
    intros s. unfold strip_both.
    destruct (Hl s) as [->|(a & t & -> & Ha)]; [done|].
    destruct (Hhead a t Ha) as [t' Ht']. rewrite Ht'.
    cbn [lstrip]. rewrite Ha, <- Ht'. apply Hr.
  - (* sql_columns_program *)
    intros labels Hne Hall.
    rewrite (bool_decide_eq_false_2 _ Hne), andb_true_r.
    assert (Hnames : forallb spelled_as_name labels = true).
    { apply forallb_forall. intros c Hc%list_elem_of_In.
      eapply Forall_forall in Hall; [|exact Hc]. unfold program_columns in Hall.
      repeat (apply elem_of_cons in Hall as [->|Hall]; [reflexivity|]).
      by apply elem_of_nil in Hall. }
    by rewrite Hnames.
Defined.


(* --------------------------------------------------------------------- *)
(** ** Definitions used to state the properties                            *)
(* --------------------------------------------------------------------- *)

(** The five tables of the program. *)
Definition program_tables : list string :=
  ["audit_log"; "providers"; "receivers"; "food_listings"; "claims"].

(** The new, empty table that [CREATE TABLE] makes for each of them. *)
Definition empty_table (t : string) : table :=
  if decide (t = "providers") then mkTable providers_schema false 0 []
  else if decide (t = "receivers") then mkTable receivers_schema false 0 []
  else if decide (t = "food_listings") then mkTable food_listings_schema false 0 []
  else if decide (t = "claims") then mkTable claims_schema false 0 []
  else mkTable audit_log_schema true 0 [].

(** The tables after lines 38-101 ran on [db]: the five program tables are
    new and empty, any other table is as it was. *)
Definition fresh_database (db : database) : database :=
  foldl (λ acc t, <[t := empty_table t]> acc) db program_tables.

Section LoaderSpec.
Context `{Externals}.

(** What the loop body does to the table [tb] named [t], as a function of
    the input directory alone; [None] when the [except] branch is taken. *)
Definition load_into (dir : gmap string csv_file) (t : string) (tb : table)
    : option table :=
  match dir !! (t +:+ "_data.csv") with
  | None => Some tb
  | Some Unreadable => None
  | Some (Readable df0) =>
      let df := clean t df0 in
      if frame_empty df then Some tb
      else names ← sql_columns (columns df); insert_rows tb names (rows df)
  end.

(** The table named [t] after its step of the loop, starting from the
    empty table that lines 45-101 created. *)
Definition loaded_table (dir : gmap string csv_file) (t : string)
    : option table :=
  load_into dir t (empty_table t).

(** The session in which the loop of [import_csv_data] ends when no other
    connection holds the write lock, with the flag that tells whether it
    ran to the end. *)
Definition import_session (dir : gmap string csv_file) (w : world)
    : bool * session :=
  let db := fresh_database (default ∅ (db_file w)) in
  import_loop dir import_order (mkSession db db false false).

(** The tables on file after a load that ran to the end, started on the
    tables [db]. *)
Definition loaded_database (dir : gmap string csv_file) (db : database)
    : database :=
  foldl (λ acc t, <[t := default (empty_table t) (loaded_table dir t)]> acc)
    (fresh_database db) import_order.

(** Every step of the loop succeeds on the files of [dir]. *)
Definition all_steps_succeed (dir : gmap string csv_file) : Prop :=
  Forall (λ t, is_Some (loaded_table dir t)) import_order.

End LoaderSpec.

(** The fixed sample dataset as the fallback stores it (source lines
    240-277); the providers have no address. *)
Definition sample_database : database :=
  {[ "providers" :=
       mkTable providers_schema false 0
         ((λ r, take 3 r ++ CNull :: drop 3 r) <$> sample_providers);
     "receivers" := mkTable receivers_schema false 0 sample_receivers;
     "food_listings" := mkTable food_listings_schema false 0 sample_food_listings;
     "claims" := mkTable claims_schema false 0 sample_claims;
     "audit_log" := mkTable audit_log_schema true 0 [] ]}.

(* --------------------------------------------------------------------- *)
(** ** Concrete inputs                                                     *)
(* --------------------------------------------------------------------- *)

Definition providers_header : list string :=
  ["provider_id"; "name"; "type"; "address"; "city"; "contact"].

(** The scenario of the specification: three providers, the first two
    sharing a contact once it is trimmed. *)
Definition shared_contact_providers : DataFrame :=
  mkFrame providers_header
    [[int 1; CStr "A"; CStr "Cafe"; CStr "1 Main St"; CStr "Pune"; CStr "X"];
     [int 2; CStr "B"; CStr "Hotel"; CStr "2 Main St"; CStr "Pune"; CStr " X "];
     [int 3; CStr "C"; CStr "Bakery"; CStr "3 Main St"; CStr "Pune"; CStr "Y"]].

(** Two providers with the same id and different contacts: the second
    INSERT violates the primary key. *)
Definition same_id_providers : DataFrame :=
  mkFrame providers_header
    [[int 1; CStr "A"; CStr "Cafe"; CStr "1 Main St"; CStr "Pune"; CStr "X"];
     [int 1; CStr "B"; CStr "Hotel"; CStr "2 Main St"; CStr "Pune"; CStr "Y"]].

(** No database file yet, and a providers file that cannot be loaded. *)
Definition same_id_world : world :=
  mkWorld (Some {[ "providers_data.csv" := Readable same_id_providers ]}) None 0 false.

(** A good providers file next to a receivers file that cannot be read. *)
Definition unreadable_receivers_dir : gmap string csv_file :=
  {[ "providers_data.csv" := Readable shared_contact_providers;
     "receivers_data.csv" := Unreadable ]}.

Definition unreadable_receivers_world : world :=
  mkWorld (Some unreadable_receivers_dir) None 0 false.

(** The table a statement names. *)
Definition statement_table (stmt : statement) : string :=
  match stmt with
  | DropTableIfExists t | CreateTable _ t _ _ | InsertInto t _ _
  | UpdateWhere t _ _ _ | DeleteWhere t _ _ => t
  end.

(** The row [log_audit] stores under the id [id]. *)
Definition audit_entry (id : Z) (operation details ts : string) : list cell :=
  [int id; CStr operation; CStr "streamlit"; CStr details; CStr ts].

(** A host five and a half hours ahead of UTC, at one instant. *)
Definition clock_ist : clock :=
  mkClock "2025-03-01 14:30:00" "2025-03-01 09:00:00".

(** A database made from the providers file by the bootstrap, on which one
    receiver was then added through the form. *)
Definition shared_contact_world : world :=
  mkWorld (Some {[ "providers_data.csv" := Readable shared_contact_providers ]})
    None 0 false.

Definition add_receiver_9 : action :=
  AddReceiver (NInt 9) "Shelter Z" "Shelter" "Pune" "Z".

Definition world_with_audit_row : world :=
  (perform clock_ist add_receiver_9 (init_database shared_contact_world).2).2.

(* --------------------------------------------------------------------- *)
(** ** The cleaning rules in the words of the specification                *)
(* --------------------------------------------------------------------- *)

Section CleaningSpec.
Context `{Externals}.

(** The de-duplication key of a row: its contact as text, trimmed. *)
Definition contact_key (i : nat) (r : list cell) : string :=
  strip (astype_str (get_cell i r)).

(** The row with its contact replaced by its key. *)
Definition with_trimmed_contact (i : nat) (r : list cell) : list cell :=
  <[i := CStr (contact_key i r)]> r.

(** First-seen de-duplication: a row is kept when no earlier row of the
    batch has its key; [earlier] holds the rows that came before [rs]. *)
Fixpoint first_seen_after (key : list cell → string)
    (earlier rs : list (list cell)) : list (list cell) :=
  match rs with
  | [] => []
  | r :: rs' =>
      (if decide (key r ∈ key <$> earlier) then [] else [r])
      ++ first_seen_after key (earlier ++ [r]) rs'
  end.

Definition first_seen (key : list cell → string) (rs : list (list cell))
    : list (list cell) :=
  first_seen_after key [] rs.

(** The quantity rule on one value: absent unless it reads as a number
    that is not negative, which the column then holds as a float64. *)
Definition cleaned_quantity (c : cell) : cell :=
  match to_numeric c with
  | Some n => if number_negative n then CNull else CNum (to_float64 n)
  | None => CNull
  end.

(** The stored form of a listing whose expiry date was read as [ts]; the
    quantity is column 2 and the expiry date column 3 of the schema. *)
Definition cleaned_listing (ts : Timestamp) (r : list cell) : list cell :=
  <[2%nat := cleaned_quantity (get_cell 2 r)]> (<[3%nat := CStr (strftime_Ymd ts)]> r).

(** What a listing contributes to the table, given what [to_datetime] made
    of its expiry date: nothing when the date could not be read. *)
Definition loaded_listing (rp : list cell * option Timestamp)
    : option (list cell) :=
  ts ← rp.2; Some (cleaned_listing ts rp.1).

(** A schema whose first column is the key and for which an INSERT that
    lists all the columns, by their names and in their order, compiles and
    builds the row it is given. The schemas of the program are such. *)
Definition direct_schema (sch : list column) : Prop :=
  primary_key_index sch = Some 0%nat
  ∧ insert_compiles sch (col_name <$> sch) = true
  ∧ ∀ r, length r = length sch →
         inserted_row sch (col_name <$> sch) r = r.

(** A row that fits a schema of [n] columns and carries an integer id. *)
Definition row_fits (n : nat) (r : list cell) : Prop :=
  length r = n ∧ ∃ z, r !! 0%nat = Some (int z).

(** A well-formed batch for table [t]: the header is the list of the
    table's columns, every row has one cell per column and an integer in
    the id column. *)
Definition well_formed (t : string) (df : DataFrame) : Prop :=
  columns df = col_name <$> schema (empty_table t)
  ∧ Forall (row_fits (length (columns df))) (rows df).

End CleaningSpec.

Definition food_listings_header : list string :=
  ["food_id"; "food_name"; "quantity"; "expiry_date"; "provider_id";
   "provider_type"; "location"; "food_type"; "meal_type"].

(** Two listings with quantity -5; the expiry date of the first cannot be
    read, that of the second is written with slashes. *)
Definition negative_quantity_listings : DataFrame :=
  mkFrame food_listings_header
    [[int 1; CStr "Bread"; int (-5); CStr "not-a-date"; int 1; CStr "Cafe";
      CStr "Kitchen A"; CStr "Bread"; CStr "Breakfast"];
     [int 2; CStr "Rice"; int (-5); CStr "2025/02/01"; int 1; CStr "Cafe";
      CStr "Storage B"; CStr "Grain"; CStr "Lunch"]].

Definition negative_quantity_dir : gmap string csv_file :=
  {[ "food_listings_data.csv" := Readable negative_quantity_listings ]}.

Definition negative_quantity_world : world :=
  mkWorld (Some negative_quantity_dir) None 0 false.

(* --------------------------------------------------------------------- *)
(** ** assignment1.py: searching, and the menu loop                        *)
(* --------------------------------------------------------------------- *)

(** What [search_employee] prints for the id that [int(input(...))] gave:
    the five lines of the employee found, or that there is none. *)
Inductive search_output :=
  | EmployeeFound (emp_id : Z) (info : employee_info)
  | EmployeeNotFound.

(** [Employee.search_employee], after its [int(input(...))]. *)
Definition search_employee (self : Employee) (emp_id : Z) : search_output :=
  match dict self !! emp_id with
  | Some info => EmployeeFound emp_id info
  | None => EmployeeNotFound
  end.

(** How the script ends: [break] on choice 4, or an exception of [int],
    [float] or [input] that nothing catches. *)
Inductive session_end :=
  | Exited
  | ValueErrorRaised
  | EOFErrorRaised.

Section Menu.
(** [int(s)] and [float(s)] of Python on a line of input; [None] when they
    raise ValueError. *)
Variable py_int : string → option Z.
Variable py_float : string → option Q.

(** The [while True] loop (source lines 38-64) on the lines that [input]
    will return, in order: how the script ends and the roster it ends with.
    What is printed is not modelled; [view_employee] and [search_employee]
    only print. *)
Fixpoint run_session (lines : list string) (emp : Employee)
    : session_end * Employee :=
  match lines with
  | [] => (EOFErrorRaised, emp)
  | choice_line :: rest =>
      match py_int choice_line with
      | None => (ValueErrorRaised, emp)
      | Some choice =>
          if decide (choice = 1) then
            match rest with
            | [] => (EOFErrorRaised, emp)
            | id_line :: rest1 =>
                match py_int id_line with
                | None => (ValueErrorRaised, emp)
                | Some id =>
                    match rest1 with
                    | [] | [_] => (EOFErrorRaised, emp)
                    | name :: age_line :: rest2 =>
                        match py_int age_line with
                        | None => (ValueErrorRaised, emp)
                        | Some age =>
                            match rest2 with
                            | [] | [_] => (EOFErrorRaised, emp)
                            | department :: salary_line :: rest3 =>
                                match py_float salary_line with
                                | None => (ValueErrorRaised, emp)
                                | Some salary =>
                                    run_session rest3
                                      (add_employee emp id name age department
                                         salary).1
                                end
                            end
                        end
                    end
                end
            end
          else if decide (choice = 2) then run_session rest emp
          else if decide (choice = 3) then
            match rest with
            | [] => (EOFErrorRaised, emp)
            | id_line :: rest1 =>
                match py_int id_line with
                | None => (ValueErrorRaised, emp)
                | Some _ => run_session rest1 emp
                end
            end
          else if decide (choice = 4) then (Exited, emp)
          else run_session rest emp
      end
  end.

End Menu.

(** A data directory whose only CSV file is not one of the four expected
    ones, next to no database file, and next to a database that holds the
    sample dataset. *)
Definition unrelated_csv_dir : gmap string csv_file :=
  {[ "notes.csv" := Unreadable ]}.

Definition unrelated_csv_new_world : world :=
  mkWorld (Some unrelated_csv_dir) None 0 false.

Definition unrelated_csv_sample_world : world :=
  mkWorld (Some unrelated_csv_dir) (Some sample_database) 0 false.

(** NOT NULL and CHECK of every column of a schema on a row that has one
    cell per column. *)
Definition row_accepted (sch : list column) (r : list cell) : bool :=
  forallb (λ cv, column_accepts cv.1 cv.2) (zip sch r).

(** The table and the integer key of the row an action inserts, for the
    four actions that create a row under a key typed as an integer. *)
Definition created_key (a : action) : option (string * Z) :=
  match a with
  | CreateListing (NInt z) _ _ _ _ _ _ _ _ => Some ("food_listings", z)
  | CreateClaim (NInt z) _ _ _ => Some ("claims", z)
  | AddProvider (NInt z) _ _ _ _ _ => Some ("providers", z)
  | AddReceiver (NInt z) _ _ _ _ => Some ("receivers", z)
  | _ => None
  end.




(** A claims file whose second row has a status the schema does not
    allow. *)
Definition bad_status_claims : DataFrame :=
  mkFrame ["claim_id"; "food_id"; "receiver_id"; "status"; "timestamp"]
    [[int 1; int 7; int 3; CStr "Pending"; CStr "2025-03-01 10:00:00"];
     [int 2; int 9; int 3; CStr "Done"; CStr "2025-03-02 10:00:00"]].

Definition bad_status_world : world :=
  mkWorld (Some {[ "claims_data.csv" := Readable bad_status_claims ]}) None 0 false.

(** A providers file whose second row has no name. *)
Definition nameless_provider : DataFrame :=
  mkFrame providers_header
    [[int 1; CStr "A"; CStr "Cafe"; CStr "1 Main St"; CStr "Pune"; CStr "X"];
     [int 2; CNull; CStr "Hotel"; CStr "2 Main St"; CStr "Pune"; CStr "Y"]].

Definition nameless_provider_world : world :=
  mkWorld (Some {[ "providers_data.csv" := Readable nameless_provider ]}) None 0 false.

(** A listings file whose quantities were read as text: one is a number,
    the other is not. *)
Definition text_quantity_listings : DataFrame :=
  mkFrame food_listings_header
    [[int 1; CStr "Bread"; CStr "12"; CStr "2025-03-01"; int 1; CStr "Cafe";
      CStr "Kitchen A"; CStr "Bread"; CStr "Breakfast"];
     [int 2; CStr "Rice"; CStr "n/a"; CStr "2025-03-02"; int 1; CStr "Cafe";
      CStr "Storage B"; CStr "Grain"; CStr "Lunch"]].

Definition text_quantity_dir : gmap string csv_file :=
  {[ "food_listings_data.csv" := Readable text_quantity_listings ]}.

Definition text_quantity_world : world :=
  mkWorld (Some text_quantity_dir) None 0 false.

(** The audit table after [log_audit] appended one entry to [tb]. *)
Definition with_audit_entry (tb : table) (operation details ts : string)
    : table :=
  mkTable (schema tb) (autoincrement tb)
    (if autoincrement tb then Z.max (sequence tb) (next_rowid tb 0)
     else sequence tb)
    (contents tb
     ++ [audit_entry (next_rowid tb 0) operation details ts]).

(** The row the provider form stores. *)
Definition provider_row (z : Z) (name type_ address city contact : string)
    : list cell :=
  [int z; CStr name; CStr type_; CStr address; CStr city; CStr contact].

(** The table after an INSERT stored [row] under the id [z]. *)
Definition with_row (tb : table) (z : Z) (row : list cell) : table :=
  mkTable (schema tb) (autoincrement tb)
    (if autoincrement tb then Z.max (sequence tb) z else sequence tb)
    (contents tb ++ [row]).

(** The table after a DELETE removed the rows whose cell [k] equals
    [key]. *)
Definition without_key (tb : table) (k : nat) (key : cell) : table :=
  mkTable (schema tb) (autoincrement tb) (sequence tb)
    (filter (λ r, sql_eq (get_cell k r) key = false) (contents tb)).

(** The state after the bootstrap loaded the providers file of the
    scenario (providers 1 and 3), and the state after the bootstrap fell
    back to the sample data. *)
Definition loaded_world : world := (init_database shared_contact_world).2.

Definition sample_world : world :=
  (init_database (mkWorld None None 0 false)).2.

(** The tables on file in a state, and one of them. *)
Definition tables_of (w : world) : database := default ∅ (db_file w).

Definition table_of (t : string) (w : world) : table :=
  default (empty_table t) (tables_of w !! t).
(* ===================================================================== *)
(** * Part II. Theorems                                                   *)
(* ===================================================================== *)

Local Set Warnings "-clear-no-such-hyp".

(* --------------------------------------------------------------------- *)
(** ** The employee roster                                                *)
(* --------------------------------------------------------------------- *)

Lemma add_employee_new_id (self : Employee) id name age department salary :
  dict self !! id = None →
  add_employee self id name age department salary
  = (mkEmployee (<[id := EmployeeInfo name age department salary]> (dict self)),
     [AddedSuccessfully id name]).
Proof. intros Hnew. unfold add_employee. by rewrite Hnew. Qed.

(** C10. Calling [add_employee] with an id that is already a key of the
    mapping returns the very same object: no entry is overwritten, added or
    removed, and the only effect is the message that the id already
    exists. *)
Theorem add_employee_existing_id (self : Employee) id name age department salary :
  id ∈ dom (dict self) →
  add_employee self id name age department salary = (self, [AlreadyExists id]).
Proof.
  intros [info Hinfo]%elem_of_dom. unfold add_employee. by rewrite Hinfo.
Qed.

Lemma add_employee_existing_id_witness :
  let roster := (add_employee Employee_init 7 "Asha" 31 "Data" (52000 # 1)).1 in
  7 ∈ dom (dict roster)
  ∧ add_employee roster 7 "Ravi" 45 "Ops" (1 # 1) = (roster, [AlreadyExists 7])
  ∧ dict roster !! 7 = Some (EmployeeInfo "Asha" 31 "Data" (52000 # 1)).
Proof.
  assert (Hin : 7 ∈ dom (dict (add_employee Employee_init 7 "Asha" 31 "Data" (52000 # 1)).1)).
  { apply elem_of_dom. eexists. cbn. apply lookup_insert_eq. }
  split; [exact Hin|]. split.
  - exact (add_employee_existing_id _ 7 "Ravi" 45 "Ops" (1 # 1) Hin).
  - cbn. apply lookup_insert_eq.
Defined.

(* --------------------------------------------------------------------- *)
(** ** The store: dropping and creating the tables                         *)
(* --------------------------------------------------------------------- *)

Section StoreFacts.
Context `{Externals}.

Lemma fresh_database_lookup (db : database) (t : string) :
  fresh_database db !! t
  = if decide (t ∈ program_tables) then Some (empty_table t) else db !! t.
Proof.
  unfold fresh_database, program_tables. cbn [foldl].
  case_decide as Ht.
  - repeat (apply elem_of_cons in Ht as [->|Ht]; [by simplify_map_eq|]).
    by apply elem_of_nil in Ht.
  - rewrite !lookup_insert_ne; [done|..]; intros <-; apply Ht; set_solver.
Qed.

(** While no other connection holds the write lock, lines 38-101 never
    raise, commit as they go and leave five empty tables. *)
Lemma execute_setup (db : database) :
  execute_all (drop_tables ++ create_tables false) (mkSession db db false false)
  = (true, mkSession (fresh_database db) (fresh_database db) false false).
Proof.
  assert (Heq : execute_all (drop_tables ++ create_tables false)
                  (mkSession db db false false)
    = let db' := <["audit_log" := empty_table "audit_log"]> (<["claims" := empty_table "claims"]>
        (<["food_listings" := empty_table "food_listings"]>
        (<["receivers" := empty_table "receivers"]>
        (<["providers" := empty_table "providers"]>
        (delete "audit_log" (delete "providers" (delete "receivers"
          (delete "food_listings" (delete "claims" db)))))))))
      in (true, mkSession db' db' false false)).
  { unfold drop_tables, create_tables, execute_all, execute. cbn.
    by simplify_map_eq. }
  rewrite Heq. cbn zeta. f_equal.
  assert (Hdb : ∀ a b : database,
            a = b → mkSession a a false false = mkSession b b false false)
    by (by intros ?? ->).
  apply Hdb, map_eq. intros t. rewrite fresh_database_lookup.
  case_decide as Ht.
  - unfold program_tables in Ht.
    repeat (apply elem_of_cons in Ht as [->|Ht]; [by simplify_map_eq|]).
    by apply elem_of_nil in Ht.
  - rewrite !lookup_insert_ne, !lookup_delete_ne; [done|..];
      intros <-; apply Ht; unfold program_tables; set_solver.
Qed.

End StoreFacts.

(* --------------------------------------------------------------------- *)
(** ** The cleaning rules                                                  *)
(* --------------------------------------------------------------------- *)

Section CleaningFacts.
Context `{Externals}.

Lemma get_cell_insert (i : nat) (v : cell) (r : list cell) :
  (i < length r)%nat → get_cell i (<[i := v]> r) = v.
Proof. intros Hi. unfold get_cell. by rewrite list_lookup_insert_eq. Qed.

Lemma get_cell_insert_ne (i j : nat) (v : cell) (r : list cell) :
  i ≠ j → get_cell j (<[i := v]> r) = get_cell j r.
Proof. intros Hne. unfold get_cell. by rewrite list_lookup_insert_ne. Qed.

(** Lines 118-120 on the rows: a row stays exactly when its date was read,
    and then holds the date in ISO form. *)
Lemma expiry_rows (i : nat) (rs : list (list cell)) (parsed : list (option Timestamp)) :
  Forall (λ r, (i < length r)%nat) rs →
  map_column i dt_strftime
    (dropna i (assign_column i rs (from_option CTime CNull <$> parsed)))
  = omap (λ rp, ts ← rp.2; Some (<[i := CStr (strftime_Ymd ts)]> rp.1))
      (zip rs parsed).
Proof.
  unfold map_column, dropna, assign_column.
  intros Hlen. revert parsed.
  induction Hlen as [|r rs Hr _ IH]; intros [|p parsed]; try done.
  cbn [fmap list_fmap zip_with omap list_omap zip]. rewrite filter_cons.
  rewrite get_cell_insert by done.
  destruct p as [ts|]; cbn.
  - rewrite decide_True by done. cbn.
    rewrite get_cell_insert by done. rewrite list_insert_insert_eq.
    f_equal. apply IH.
  - rewrite decide_False by (by intros []). apply IH.
Qed.

(** Lines 124-125 on the rows. *)
Lemma quantity_rows (k : nat) (rs : list (list cell)) :
  Forall (λ r, (k < length r)%nat) rs →
  map_column k (λ c, if lt_zero c then CNull else as_float64 c)
    (map_column k (λ c, from_option CNum CNull (to_numeric c)) rs)
  = (λ r, <[k := cleaned_quantity (get_cell k r)]> r) <$> rs.
Proof.
  unfold map_column. intros Hlen. rewrite <- list_fmap_compose.
  apply Forall_fmap_ext_1. eapply Forall_impl; [exact Hlen|].
  intros r Hr. cbn. rewrite get_cell_insert by done.
  rewrite list_insert_insert_eq. f_equal. unfold cleaned_quantity.
  destruct (to_numeric (get_cell k r)) as [n|]; cbn; [|done].
  by destruct (number_negative n).
Qed.

(** Lines 129 and 133 on the rows: the rows kept are the first of each
    key, with the contact trimmed. *)
Lemma drop_duplicates_from_first_seen (i : nat) (seen : list cell)
    (earlier rs : list (list cell)) :
  Forall (λ r, (i < length r)%nat) rs →
  (∀ c, c ∈ seen ↔ ∃ k, c = CStr k ∧ k ∈ contact_key i <$> earlier) →
  drop_duplicates_from i seen (with_trimmed_contact i <$> rs)
  = with_trimmed_contact i <$> first_seen_after (contact_key i) earlier rs.
Proof.
  intros Hlen. revert seen earlier.
  induction Hlen as [|r rs Hr _ IH]; intros seen earlier Hseen; [done|].
  cbn [fmap list_fmap drop_duplicates_from first_seen_after].
  change (list_fmap _ _ (with_trimmed_contact i) rs)
    with (with_trimmed_contact i <$> rs).
  assert (Hkey : get_cell i (with_trimmed_contact i r) = CStr (contact_key i r))
    by (by apply get_cell_insert).
  rewrite !Hkey.
  assert (Hext : ∀ k, k ∈ contact_key i <$> (earlier ++ [r])
                      ↔ k ∈ contact_key i <$> earlier ∨ k = contact_key i r).
  { intros k. rewrite fmap_app, elem_of_app. cbn.
    by rewrite list_elem_of_singleton. }
  destruct (decide (contact_key i r ∈ contact_key i <$> earlier)) as [Hin|Hnin].
  - rewrite decide_True by (apply Hseen; eauto). cbn.
    apply IH. intros c. rewrite Hseen. split.
    + intros (k & -> & Hk). exists k. split; [done|]. apply Hext. by left.
    + intros (k & -> & [Hk| ->]%Hext); eauto.
  - rewrite decide_False.
    2:{ intros (k & [= <-] & Hk)%Hseen. done. }
    cbn. f_equal. apply IH. intros c. rewrite elem_of_cons, Hseen. split.
    + intros [->|(k & -> & Hk)].
      * eexists. split; [done|]. apply Hext. by right.
      * exists k. split; [done|]. apply Hext. by left.
    + intros (k & -> & [Hk| ->]%Hext); [right; eauto|by left].
Qed.

Lemma drop_duplicates_first_seen (i : nat) (rs : list (list cell)) :
  Forall (λ r, (i < length r)%nat) rs →
  drop_duplicates i (with_trimmed_contact i <$> rs)
  = with_trimmed_contact i <$> first_seen (contact_key i) rs.
Proof.
  intros Hlen. apply drop_duplicates_from_first_seen; [done|].
  intros c. cbn. split; [by intros ?%elem_of_nil|].
  by intros (k & _ & ?%elem_of_nil).
Qed.

(** First-seen de-duplication keeps as many rows as there are keys. *)
Lemma first_seen_after_length (key : list cell → string)
    (earlier rs : list (list cell)) :
  length (first_seen_after key earlier rs)
  = size ((list_to_set (key <$> rs) : gset string)
          ∖ list_to_set (key <$> earlier)).
Proof.
  revert earlier. induction rs as [|r rs IH]; intros earlier.
  - cbn. by rewrite difference_disjoint_L, size_empty by set_solver.
  - cbn [first_seen_after fmap list_fmap list_to_set].
    rewrite length_app, IH, fmap_app, list_to_set_app_L. cbn.
    destruct (decide (key r ∈ key <$> earlier)) as [Hin|Hnin]; cbn.
    + f_equal. apply set_eq. intros k. set_unfold. naive_solver.
    + assert (Hsplit : ({[key r]} ∪ list_to_set (key <$> rs) : gset string)
                ∖ list_to_set (key <$> earlier)
              = {[key r]} ∪ (list_to_set (key <$> rs)
                  ∖ (list_to_set (key <$> earlier) ∪ ({[key r]} ∪ ∅)))).
      { apply set_eq. intros k. set_unfold.
        destruct (decide (k = key r)); naive_solver. }
      rewrite Hsplit.
      rewrite (size_union (C := gset string) {[key r]})
        by (set_unfold; naive_solver).
      by rewrite size_singleton.
Qed.

Lemma first_seen_length (key : list cell → string) (rs : list (list cell)) :
  length (first_seen key rs) = size (list_to_set (key <$> rs) : gset string).
Proof.
  unfold first_seen. rewrite first_seen_after_length. cbn.
  by rewrite difference_empty_L.
Qed.

End CleaningFacts.

(* --------------------------------------------------------------------- *)
(** ** The loader, table by table                                          *)
(* --------------------------------------------------------------------- *)

Section LoaderFacts.
Context `{Externals}.

(** While no other connection holds the write lock, an INSERT changes the
    view of one table and nothing on file. *)
Lemma execute_insert (t : string) names r (s : session) (tb : table) :
  blocked s = false → view s !! t = Some tb →
  execute (InsertInto t names [r]) s
  = (λ tb', mkSession (file s) (<[t := tb']> (view s)) true false)
      <$> insert_row tb names r.
Proof.
  intros Hfree Ht. unfold execute. rewrite Hfree. cbn. rewrite Ht. cbn.
  destruct (insert_row tb names r); reflexivity.
Qed.

(** A statement that raised has changed no table, on file or in view. *)
Lemma after_raise_tables (stmt : statement) (s : session) :
  file (after_raise stmt s) = file s
  ∧ view (after_raise stmt s) = view s
  ∧ blocked (after_raise stmt s) = blocked s.
Proof. unfold after_raise. by destruct (_ && _). Qed.

(** The insert loop of one table ends with the table that [insert_rows]
    computes, and fails exactly when [insert_rows] does. It never touches
    the file or another table. *)
Lemma insert_each_spec (t : string) names rs (s : session) (tb : table) :
  blocked s = false → view s !! t = Some tb →
  ∃ s', insert_each t names rs s
        = (bool_decide (is_Some (insert_rows tb names rs)), s')
        ∧ file s' = file s
        ∧ blocked s' = false
        ∧ (∀ t', t' ≠ t → view s' !! t' = view s !! t')
        ∧ (∀ tb', insert_rows tb names rs = Some tb' → view s' !! t = Some tb').
Proof.
  revert s tb. induction rs as [|r rs IH]; intros s tb Hfree Ht.
  - exists s. cbn. split_and!; try done. by intros tb' [= <-].
  - cbn [insert_each insert_rows]. rewrite (execute_insert _ _ _ _ _ Hfree Ht).
    destruct (insert_row tb names r) as [tb1|]; cbn.
    + destruct (IH (mkSession (file s) (<[t := tb1]> (view s)) true false) tb1)
        as (s' & Heq & Hfile & Hfree' & Hother & Hview).
      { done. }
      { cbn. apply lookup_insert_eq. }
      exists s'. rewrite Heq. split_and!; try done.
      intros t' Hne. rewrite (Hother t' Hne). cbn. by apply lookup_insert_ne.
    + destruct (after_raise_tables (InsertInto t names [r]) s)
        as (Hfile & Hview & Hblocked).
      eexists. split; [reflexivity|]. rewrite Hfile, Hview, Hblocked.
      split_and!; try done.
Qed.

(** The same for the whole loop body of one table. *)
Lemma import_table_spec (dir : gmap string csv_file) (t : string) (s : session)
    (tb : table) :
  blocked s = false → view s !! t = Some tb →
  ∃ s', import_table dir t s = (bool_decide (is_Some (load_into dir t tb)), s')
        ∧ file s' = file s
        ∧ blocked s' = false
        ∧ (∀ t', t' ≠ t → view s' !! t' = view s !! t')
        ∧ (∀ tb', load_into dir t tb = Some tb' → view s' !! t = Some tb').
Proof.
  intros Hfree Ht. unfold import_table, load_into.
  destruct (dir !! (t +:+ "_data.csv")) as [[|df0]|].
  - exists s. split_and!; try done.
  - destruct (frame_empty (clean t df0)).
    + exists s. split_and!; try done. by intros tb' [= <-].
    + destruct (sql_columns (columns (clean t df0))) as [names|]; cbn.
      * by apply insert_each_spec.
      * exists s. split_and!; try done.
  - exists s. split_and!; try done. by intros tb' [= <-].
Qed.

(** The loop over the tables [ts], started where each of them is empty.
    It runs to the end exactly when every step succeeds; it leaves the file
    alone; on success every table holds what its step loaded; when the step
    of [t] is the first to fail, the tables before [t] hold what was loaded
    and the tables after [t] were not touched. *)
Lemma import_loop_spec (dir : gmap string csv_file) (ts : list string) (s : session) :
  blocked s = false → NoDup ts →
  (∀ t, t ∈ ts → view s !! t = Some (empty_table t)) →
  ∃ s', import_loop dir ts s
        = (bool_decide (Forall (λ t, is_Some (loaded_table dir t)) ts), s')
      ∧ file s' = file s
      ∧ (∀ t', t' ∉ ts → view s' !! t' = view s !! t')
      ∧ (Forall (λ t, is_Some (loaded_table dir t)) ts →
         ∀ t, t ∈ ts → view s' !! t = loaded_table dir t)
      ∧ (∀ done t rest, ts = done ++ t :: rest →
           Forall (λ t, is_Some (loaded_table dir t)) done →
           loaded_table dir t = None →
           (∀ t', t' ∈ done → view s' !! t' = loaded_table dir t')
           ∧ (∀ t', t' ∈ rest → view s' !! t' = view s !! t')).
Proof.
  revert s. induction ts as [|t0 ts IH]; intros s Hfree Hnodup Hempty.
  - exists s. cbn. split_and!; try done.
    + intros _ t Ht. by apply elem_of_nil in Ht.
    + intros [|??] ??; discriminate.
  - apply NoDup_cons in Hnodup as [Hnotin Hnodup].
    destruct (import_table_spec dir t0 s (empty_table t0))
      as (s1 & Heq1 & Hfile1 & Hfree1 & Hother1 & Hview1).
    { done. }
    { apply Hempty. left. }
    fold (loaded_table dir t0) in Heq1, Hview1.
    cbn [import_loop]. rewrite Heq1.
    destruct (loaded_table dir t0) as [tb1|] eqn:Hload.
    + rewrite bool_decide_eq_true_2 by eauto.
      destruct (IH s1 Hfree1 Hnodup) as (s' & Heq & Hfile & Hother & Hall & Hsplit).
      { intros t Ht. rewrite Hother1; [apply Hempty; by right|].
        intros ->. done. }
      exists s'. rewrite Heq. split_and!.
      * f_equal. apply bool_decide_ext. rewrite Forall_cons. rewrite Hload.
        split; [|tauto]. intros ?. split; [eauto|done].
      * congruence.
      * intros t' [Hne Hnin]%not_elem_of_cons.
        rewrite (Hother t' Hnin). by apply Hother1.
      * intros [_ Hok]%Forall_cons t [->|Ht]%elem_of_cons.
        -- rewrite (Hother t0 Hnotin), Hload. by apply Hview1.
        -- by apply Hall.
      * intros [|d done] t rest Hts Hdone Hfail.
        { injection Hts as -> ->. congruence. }
        injection Hts as -> ->. apply Forall_cons in Hdone as [_ Hdone].
        destruct (Hsplit done t rest eq_refl Hdone Hfail) as [Hd Hr]. split.
        -- intros t' [->|Ht']%elem_of_cons.
           ++ rewrite Hother by done. rewrite Hload. by apply Hview1.
           ++ by apply Hd.
        -- intros t' Ht'. rewrite (Hr t' Ht'). apply Hother1. intros ->.
           apply Hnotin, elem_of_app. right. by right.
    + rewrite bool_decide_eq_false_2 by (by intros []).
      exists s1. split_and!; try done.
      * f_equal. symmetry. apply bool_decide_eq_false_2.
        intros [Hok _]%Forall_cons. rewrite Hload in Hok. by destruct Hok.
      * intros t' [Hne _]%not_elem_of_cons. by apply Hother1.
      * intros [Hok _]%Forall_cons. rewrite Hload in Hok. by destruct Hok.
      * intros [|d done] t rest Hts Hdone Hfail.
        -- injection Hts as -> ->. split; [by intros ? ?%elem_of_nil|].
           intros t' Ht'. apply Hother1. intros ->. done.
        -- injection Hts as -> ->. apply Forall_cons in Hdone as [Hok _].
           rewrite Hload in Hok. by destruct Hok.
Qed.

Lemma import_order_program_tables (t : string) :
  t ∈ import_order → t ∈ program_tables.
Proof. unfold import_order, program_tables. set_unfold. tauto. Qed.

Lemma NoDup_import_order : NoDup import_order.
Proof. unfold import_order. compute_done. Qed.

Lemma loaded_database_lookup (dir : gmap string csv_file) (db : database) (t : string) :
  loaded_database dir db !! t
  = if decide (t ∈ import_order)
    then Some (default (empty_table t) (loaded_table dir t))
    else fresh_database db !! t.
Proof.
  unfold loaded_database, import_order. cbn [foldl].
  case_decide as Ht.
  - repeat (apply elem_of_cons in Ht as [->|Ht]; [by simplify_map_eq|]).
    by apply elem_of_nil in Ht.
  - rewrite !lookup_insert_ne; [done|..]; intros <-; apply Ht; set_unfold; tauto.
Qed.

(** The session at the end of the loop of [import_csv_data]. *)
Lemma import_session_spec (dir : gmap string csv_file) (w : world) :
  let db := fresh_database (default ∅ (db_file w)) in
  ∃ s', import_session dir w = (bool_decide (all_steps_succeed dir), s')
      ∧ file s' = db
      ∧ (all_steps_succeed dir → view s' = loaded_database dir (default ∅ (db_file w)))
      ∧ (∀ done t rest, import_order = done ++ t :: rest →
           Forall (λ t, is_Some (loaded_table dir t)) done →
           loaded_table dir t = None →
           (∀ t', t' ∈ done → view s' !! t' = loaded_table dir t')
           ∧ (∀ t', t' ∈ rest → view s' !! t' = Some (empty_table t'))).
Proof.
  intros db. unfold import_session. fold db.
  assert (Hfresh : ∀ t, t ∈ import_order → db !! t = Some (empty_table t)).
  { intros t Ht. unfold db. rewrite fresh_database_lookup.
    by rewrite decide_True by by apply import_order_program_tables. }
  destruct (import_loop_spec dir import_order (mkSession db db false false)
              eq_refl NoDup_import_order Hfresh)
    as (s' & Heq & Hfile & Hother & Hall & Hsplit).
  exists s'. split_and!; try done.
  - intros Hok. apply map_eq. intros t. rewrite loaded_database_lookup.
    case_decide as Ht.
    + rewrite (Hall Hok t Ht).
      eapply Forall_forall in Hok as [tb ->]; [done|done].
    + by rewrite (Hother t Ht).
  - intros done t rest Hsp Hdone Hfail.
    destruct (Hsplit done t rest Hsp Hdone Hfail) as [Hd Hr]. split; [done|].
    intros t' Ht'. rewrite (Hr t' Ht'). apply Hfresh. rewrite Hsp.
    apply elem_of_app. right. by right.
Qed.

(** [import_csv_data] in terms of the loop's last session, when no other
    connection holds the write lock. Lines 38-101 cannot raise then. *)
Lemma import_csv_data_unfold (w : world) (dir : gmap string csv_file) :
  data_dir w = Some dir → csv_files dir ≠ [] → write_locked w = false →
  import_csv_data w
  = match import_session dir w with
    | (true, s) => (Return true, close (commit s) (get_db_connection w).2)
    | (false, s) => (Return false, leave_open s (get_db_connection w).2)
    end.
Proof.
  intros Hdir Hcsv Hfree. unfold import_csv_data. rewrite Hdir.
  rewrite bool_decide_eq_false_2 by done.
  unfold get_db_connection, import_session. rewrite Hfree.
  cbn -[execute_all import_loop].
  rewrite execute_setup. reflexivity.
Qed.

(** The outcome of [import_csv_data] on a directory with CSV files, when no
    other connection holds the write lock: it returns True and commits the
    loaded tables when every step succeeds; otherwise it returns False, the
    file holds the five empty tables, and the connection is still open,
    with the write lock when an INSERT had begun to run. *)
Lemma import_csv_data_eq (w : world) (dir : gmap string csv_file) :
  data_dir w = Some dir → csv_files dir ≠ [] → write_locked w = false →
  import_csv_data w
  = if bool_decide (all_steps_succeed dir)
    then (Return true,
          mkWorld (Some dir) (Some (loaded_database dir (default ∅ (db_file w))))
            (open_connections w) false)
    else (Return false,
          mkWorld (Some dir) (Some (fresh_database (default ∅ (db_file w))))
            (S (open_connections w)) (in_transaction (import_session dir w).2)).
Proof.
  intros Hdir Hcsv Hfree. rewrite (import_csv_data_unfold w dir Hdir Hcsv Hfree).
  destruct (import_session_spec dir w) as (s' & Heq & Hfile & Hall & _).
  rewrite Heq. case_bool_decide as Hok.
  - unfold close, commit, get_db_connection. cbn. rewrite Hdir, Hfree.
    by rewrite (Hall Hok).
  - unfold leave_open, get_db_connection. cbn. by rewrite Hdir, Hfile, Hfree.
Qed.

(** While another connection holds the write lock, the statements of lines
    38-101 raise before any of them has changed a table: of a DROP and a
    CREATE of the same table, one has to write. *)
Lemma execute_setup_blocked (db : database) :
  ∃ s, execute_all (drop_tables ++ create_tables false) (mkSession db db false true)
       = (false, s)
     ∧ file s = db ∧ in_transaction s = false.
Proof.
  unfold drop_tables, create_tables. cbn [app].
  assert (Hdrop : ∀ t (d : database) rest,
    execute_all (DropTableIfExists t :: rest) (mkSession d d false true)
    = if bool_decide (is_Some (d !! t))
      then (false, mkSession d d false true)
      else execute_all rest (mkSession d d false true)).
  { intros t d rest. cbn [execute_all]. unfold execute, after_raise. cbn.
    case_bool_decide as Ht; [done|]. cbn.
    rewrite delete_id; [done|]. by apply eq_None_not_Some. }
  assert (Hcreate : ∀ t cols auto (d : database) rest,
    d !! t = None →
    execute_all (CreateTable false t cols auto :: rest) (mkSession d d false true)
    = (false, mkSession d d false true)).
  { intros t cols auto d rest Ht. cbn [execute_all]. unfold execute, after_raise.
    cbn. by rewrite bool_decide_eq_true_2. }
  rewrite !Hdrop.
  repeat (case_bool_decide; [by eexists|]).
  rewrite Hcreate; [by eexists|]. by apply eq_None_not_Some.
Qed.

(** So a load on a file that a connection left open keeps locked raises,
    with its own connection open and the file as it was. *)
Lemma import_csv_data_locked (w : world) (dir : gmap string csv_file) :
  data_dir w = Some dir → csv_files dir ≠ [] → write_locked w = true →
  import_csv_data w
  = (Raise,
     mkWorld (Some dir) (Some (default ∅ (db_file w))) (S (open_connections w))
       true).
Proof.
  intros Hdir Hcsv Hlocked. unfold import_csv_data. rewrite Hdir.
  rewrite bool_decide_eq_false_2 by done.
  unfold get_db_connection. rewrite Hlocked.
  destruct (execute_setup_blocked (default ∅ (db_file w)))
    as (s & -> & Hfile & Htx).
  unfold leave_open. cbn. by rewrite Hdir, Hfile.
Qed.

(** A load returns True only on a directory with CSV files on which every
    step succeeds, with no other connection holding the write lock; the
    file then holds what the steps loaded and the connection is closed. *)
Lemma import_csv_data_true (w w' : world) (dir : gmap string csv_file) :
  data_dir w = Some dir → import_csv_data w = (Return true, w') →
  csv_files dir ≠ [] ∧ write_locked w = false ∧ all_steps_succeed dir
  ∧ w' = mkWorld (Some dir)
           (Some (loaded_database dir (default ∅ (db_file w))))
           (open_connections w) false.
Proof.
  intros Hdir Himport.
  destruct (decide (csv_files dir = [])) as [Hcsv|Hcsv].
  { unfold import_csv_data in Himport.
    rewrite Hdir, bool_decide_eq_true_2 in Himport by done. discriminate. }
  destruct (write_locked w) eqn:Hlock.
  { rewrite (import_csv_data_locked w dir Hdir Hcsv Hlock) in Himport.
    discriminate. }
  rewrite (import_csv_data_eq w dir Hdir Hcsv Hlock) in Himport.
  case_bool_decide as Hok; [|discriminate]. by injection Himport as <-.
Qed.

End LoaderFacts.

(* --------------------------------------------------------------------- *)
(** ** The loader as a whole                                               *)
(* --------------------------------------------------------------------- *)

Section LoaderTheorems.
Context `{Externals}.

Lemma fresh_database_fresh (db : database) :
  fresh_database (fresh_database db) = fresh_database db.
Proof.
  apply map_eq. intros t. rewrite !fresh_database_lookup.
  by case_decide.
Qed.

Lemma fresh_database_loaded (dir : gmap string csv_file) (db : database) :
  fresh_database (loaded_database dir db) = fresh_database db.
Proof.
  apply map_eq. intros t. rewrite !fresh_database_lookup.
  case_decide as Ht; [done|]. rewrite loaded_database_lookup.
  rewrite decide_False; [|by intros ?%import_order_program_tables].
  rewrite fresh_database_lookup. by rewrite decide_False.
Qed.

Lemma loaded_database_fresh (dir : gmap string csv_file) (db db' : database) :
  fresh_database db' = fresh_database db →
  loaded_database dir db' = loaded_database dir db.
Proof. intros Heq. unfold loaded_database. by rewrite Heq. Qed.

(** C7. Running the loader a second time over the same input directory
    leaves the database file with exactly the tables it held after the
    first run: every run first drops and recreates the tables, so what it
    stores depends on the input files only. *)
Theorem import_csv_data_idempotent (w : world) :
  db_file (import_csv_data (import_csv_data w).2).2
  = db_file (import_csv_data w).2.
Proof.
  destruct (data_dir w) as [dir|] eqn:Hdir.
  - destruct (decide (csv_files dir = [])) as [Hcsv|Hcsv].
    + assert (Hw : import_csv_data w = (Return false, w)).
      { unfold import_csv_data. rewrite Hdir. by rewrite bool_decide_eq_true_2. }
      rewrite Hw. cbn. by rewrite Hw.
    + destruct (write_locked w) eqn:Hlock.
      { rewrite (import_csv_data_locked w dir Hdir Hcsv Hlock). cbn [snd].
        by rewrite (import_csv_data_locked (mkWorld (Some dir) _ _ true) dir
                      eq_refl Hcsv eq_refl). }
      rewrite (import_csv_data_eq w dir Hdir Hcsv Hlock).
      case_bool_decide as Hok; cbn [snd].
      * rewrite (import_csv_data_eq (mkWorld (Some dir) _ _ false) dir eq_refl
                   Hcsv eq_refl).
        rewrite bool_decide_eq_true_2 by done. cbn.
        f_equal. apply loaded_database_fresh, fresh_database_loaded.
      * destruct (in_transaction (import_session dir w).2).
        -- by rewrite (import_csv_data_locked (mkWorld (Some dir) _ _ true) dir
                         eq_refl Hcsv eq_refl).
        -- rewrite (import_csv_data_eq (mkWorld (Some dir) _ _ false) dir eq_refl
                      Hcsv eq_refl).
           rewrite bool_decide_eq_false_2 by done. cbn.
           f_equal. apply fresh_database_fresh.
  - assert (Hw : import_csv_data w = (Return false, w)).
    { unfold import_csv_data. by rewrite Hdir. }
    rewrite Hw. cbn. by rewrite Hw.
Qed.

(** C5, as the program has it. On a file that no other connection keeps
    locked, when the step of table [t] is the first whose read, cleaning or
    insertion raises, the loader returns False from inside the loop,
    without touching the tables after [t] and without closing its
    connection. Dropping and recreating the tables is not undone: the file
    does not get back the contents it had before the run. But the rows
    that the steps before [t] inserted are in the loader's connection only
    and are never committed: on file every one of the five tables is
    empty. *)
Theorem import_csv_data_aborts_without_rollback (w : world)
    (dir : gmap string csv_file) (done : list string) (t : string)
    (rest : list string) :
  data_dir w = Some dir → csv_files dir ≠ [] → write_locked w = false →
  import_order = done ++ t :: rest →
  Forall (λ t', is_Some (loaded_table dir t')) done →
  loaded_table dir t = None →
  ∃ s, import_session dir w = (false, s)
     ∧ import_csv_data w = (Return false, leave_open s (get_db_connection w).2)
     ∧ db_file (import_csv_data w).2
       = Some (fresh_database (default ∅ (db_file w)))
     ∧ (∀ t', t' ∈ program_tables → stored_rows t' (import_csv_data w).2 = [])
     ∧ open_connections (import_csv_data w).2 = S (open_connections w)
     ∧ (∀ t', t' ∈ done → view s !! t' = loaded_table dir t')
     ∧ (∀ t', t' ∈ rest → view s !! t' = Some (empty_table t')).
Proof.
  intros Hdir Hcsv Hfree Hsplit Hdone Hfail.
  destruct (import_session_spec dir w) as (s & Heq & Hfile & _ & Hparts).
  assert (Hnot : ¬ all_steps_succeed dir).
  { unfold all_steps_succeed. rewrite Hsplit.
    intros [_ [Hbad _]%Forall_cons]%Forall_app. rewrite Hfail in Hbad.
    by destruct Hbad. }
  rewrite bool_decide_eq_false_2 in Heq by done.
  destruct (Hparts done t rest Hsplit Hdone Hfail) as [Hd Hr].
  exists s. rewrite (import_csv_data_unfold w dir Hdir Hcsv Hfree), Heq.
  split_and!; try done.
  - cbn. by rewrite Hfile.
  - intros t' Ht'. unfold stored_rows. cbn. rewrite Hfile.
    rewrite fresh_database_lookup, decide_True by done.
    unfold empty_table. by repeat case_decide.
Qed.

End LoaderTheorems.

(* --------------------------------------------------------------------- *)
(** ** Inserting well-formed rows                                          *)
(* --------------------------------------------------------------------- *)

Section InsertFacts.
Context `{Externals}.

(** A row that fits the schema is stored as it is, when SQLite accepts
    it. *)
Lemma insert_row_fits (tb tb' : table) (r : list cell) :
  direct_schema (schema tb) →
  row_fits (length (schema tb)) r →
  insert_row tb (col_name <$> schema tb) r = Some tb' →
  schema tb' = schema tb ∧ contents tb' = contents tb ++ [r].
Proof.
  intros (Hpk & _ & Hrow) [Hlen [z Hz]]. unfold insert_row.
  rewrite (Hrow r Hlen), Hpk.
  assert (Hid : get_cell 0 r = int z) by (unfold get_cell; by rewrite Hz).
  rewrite Hid. cbn [rowid_of_cell int].
  assert (Hsame : <[0%nat := int z]> r = r) by (by apply list_insert_id).
  unfold int in Hsame. rewrite Hsame.
  intros Hins. repeat case_match; simplify_eq; by cbn.
Qed.

Lemma insert_rows_fit (tb tb' : table) (rs : list (list cell)) :
  direct_schema (schema tb) →
  Forall (row_fits (length (schema tb))) rs →
  insert_rows tb (col_name <$> schema tb) rs = Some tb' →
  contents tb' = contents tb ++ rs.
Proof.
  intros Hsch Hfit. revert tb Hsch Hfit.
  induction rs as [|r rs IH]; intros tb Hsch Hfit Hins.
  - injection Hins as <-. by rewrite app_nil_r.
  - apply Forall_cons in Hfit as [Hr Hrs]. cbn in Hins.
    destruct (insert_row tb _ r) as [tb1|] eqn:H1; [|discriminate].
    cbn in Hins.
    destruct (insert_row_fits tb tb1 r Hsch Hr H1) as [Hsch1 Hcont].
    rewrite <- Hsch1 in Hins.
    rewrite (IH tb1); [|by rewrite Hsch1..|done].
    rewrite Hcont. by rewrite <- app_assoc.
Qed.

Lemma empty_table_contents (t : string) : contents (empty_table t) = [].
Proof. unfold empty_table. by repeat case_decide. Qed.

(** A row of [n] cells, cell by cell. *)
Lemma list_of_length {A} (n : nat) (l : list A) :
  length l = n → l = take n l.
Proof. intros <-. by rewrite firstn_all. Qed.

(** The four tables of the loader have such schemas, and SQLite reads
    their headers as they are written. *)
Lemma import_order_schema (t : string) :
  t ∈ import_order →
  direct_schema (schema (empty_table t))
  ∧ sql_columns (col_name <$> schema (empty_table t))
    = Some (col_name <$> schema (empty_table t)).
Proof.
  unfold import_order. intros Ht.
  repeat (apply elem_of_cons in Ht as [->|Ht];
    [split;
      [split_and!; [reflexivity|reflexivity|];
       intros r Hr;
       repeat (destruct r as [|? r]; [discriminate Hr|]);
       destruct r; [reflexivity|discriminate Hr]
      |apply sql_columns_program; [discriminate|];
       repeat (apply Forall_cons; split; [compute_done|]); constructor]
    |]).
  by apply elem_of_nil in Ht.
Qed.

(** The table a step loads from a file whose cleaned frame is well-formed:
    its rows are the rows of the cleaned frame. *)
Lemma loaded_table_contents (dir : gmap string csv_file) (t : string)
    (df : DataFrame) (tb : table) :
  t ∈ import_order →
  dir !! (t +:+ "_data.csv") = Some (Readable df) →
  well_formed t (clean t df) →
  loaded_table dir t = Some tb →
  contents tb = rows (clean t df).
Proof.
  intros Ht Hfile [Hcols Hfit] Hload.
  destruct (import_order_schema t Ht) as [Hsch Hnames].
  unfold loaded_table, load_into in Hload. rewrite Hfile in Hload.
  cbn zeta in Hload. destruct (frame_empty (clean t df)) eqn:Hempty.
  - injection Hload as <-. rewrite empty_table_contents.
    unfold frame_empty in Hempty.
    apply orb_true_iff in Hempty as [Hrows|Hnocols].
    + by apply bool_decide_eq_true_1 in Hrows.
    + apply bool_decide_eq_true_1 in Hnocols. rewrite Hcols in Hnocols.
      destruct Hsch as [Hpk _].
      destruct (schema (empty_table t)); discriminate.
  - rewrite Hcols in Hload, Hfit. rewrite Hnames in Hload. cbn in Hload.
    rewrite length_fmap in Hfit.
    rewrite (insert_rows_fit _ _ _ Hsch Hfit Hload).
    by rewrite empty_table_contents.
Qed.

(** After a load that returned True, the file holds for each table what
    its step loaded. *)
Lemma import_true_stored_rows (w w' : world) (dir : gmap string csv_file)
    (t : string) :
  data_dir w = Some dir → import_csv_data w = (Return true, w') →
  t ∈ import_order →
  ∃ tb, loaded_table dir t = Some tb ∧ stored_rows t w' = contents tb.
Proof.
  intros Hdir Himport Ht.
  destruct (import_csv_data_true w w' dir Hdir Himport) as (_ & _ & Hok & ->).
  eapply Forall_forall in Hok as [tb Htb]; [|exact Ht].
  exists tb. split; [done|]. unfold stored_rows. cbn [db_file].
  rewrite loaded_database_lookup, decide_True by done. by rewrite Htb.
Qed.

End InsertFacts.

(* --------------------------------------------------------------------- *)
(** ** The cleaned frames of well-formed batches                           *)
(* --------------------------------------------------------------------- *)

Section CleanedFrames.
Context `{Externals}.

Lemma first_seen_after_Forall (P : list cell → Prop) (key : list cell → string)
    (earlier rs : list (list cell)) :
  Forall P rs → Forall P (first_seen_after key earlier rs).
Proof.
  intros HP. revert earlier. induction HP as [|r rs Hr _ IH]; intros earlier.
  - constructor.
  - cbn. apply Forall_app. split; [|apply IH].
    case_decide; by repeat constructor.
Qed.

Lemma row_fits_insert (n i : nat) (v : cell) (r : list cell) :
  i ≠ 0%nat → row_fits n r → row_fits n (<[i := v]> r).
Proof.
  intros Hi [Hlen [z Hz]]. split; [by rewrite length_insert|].
  exists z. by rewrite list_lookup_insert_ne.
Qed.

(** The frame that reaches the insert loop for providers and receivers:
    the first row of each contact key, with the contact trimmed. *)
Lemma clean_contact_table (t : string) (df : DataFrame) (i : nat) :
  t ∈ ["providers"; "receivers"] → well_formed t df →
  index_of "contact" (columns df) = Some i →
  clean t df
  = mkFrame (columns df)
      (with_trimmed_contact i <$> first_seen (contact_key i) (rows df))
  ∧ well_formed t (clean t df).
Proof.
  intros Ht [Hcols Hfit] Hi.
  assert (Hshape : index_of "expiry_date" (columns df) = None
                   ∧ index_of "quantity" (columns df) = None
                   ∧ i ≠ 0%nat ∧ (i < length (columns df))%nat).
  { rewrite Hcols in Hi |- *.
    repeat (apply elem_of_cons in Ht as [->|Ht];
            [vm_compute in Hi; injection Hi as <-;
             split_and!; [reflexivity|reflexivity|done|compute_done]|]).
    by apply elem_of_nil in Ht. }
  destruct Hshape as (Hexp & Hqty & Hi0 & Hilt).
  assert (Hclean : clean t df
    = mkFrame (columns df)
        (with_trimmed_contact i <$> first_seen (contact_key i) (rows df))).
  { unfold clean, clean_expiry_date. rewrite Hexp.
    unfold clean_quantity. rewrite Hqty.
    unfold clean_contact. rewrite Hi.
    unfold deduplicate. rewrite decide_True by done. cbn [columns rows].
    rewrite Hi. f_equal.
    change (map_column i (λ c, CStr (strip (astype_str c))) (rows df))
      with (with_trimmed_contact i <$> rows df).
    apply drop_duplicates_first_seen.
    eapply Forall_impl; [exact Hfit|]. intros r [Hlen _]. by rewrite Hlen. }
  split; [done|]. rewrite Hclean. split; [done|]. cbn [columns rows].
  apply Forall_fmap. apply first_seen_after_Forall.
  eapply Forall_impl; [exact Hfit|]. intros r Hr. by apply row_fits_insert.
Qed.

Lemma fmap_omap_listing (l : list (list cell * option Timestamp)) :
  (λ r, <[2%nat := cleaned_quantity (get_cell 2 r)]> r)
    <$> omap (λ rp, ts ← rp.2; Some (<[3%nat := CStr (strftime_Ymd ts)]> rp.1)) l
  = omap loaded_listing l.
Proof.
  induction l as [|[r [ts|]] l IH]; cbn; [done| |done].
  unfold cleaned_listing at 1. rewrite get_cell_insert_ne by done.
  f_equal. apply IH.
Qed.

Lemma omap_loaded_listing_Forall (P : list cell → Prop)
    (rs : list (list cell)) (parsed : list (option Timestamp)) :
  (∀ r ts, r ∈ rs → P (cleaned_listing ts r)) →
  Forall P (omap loaded_listing (zip rs parsed)).
Proof.
  intros HP. apply Forall_forall. intros row Hrow.
  apply list_elem_of_omap in Hrow as ([r p] & Hin & Hrow).
  apply list_elem_of_lookup in Hin as [j Hj].
  apply lookup_zip_with_Some in Hj as (r' & p' & [= <- <-] & Hr & Hp).
  destruct p as [ts|]; [|discriminate]. injection Hrow as <-.
  apply HP. by eapply list_elem_of_lookup_2.
Qed.

(** The frame that reaches the insert loop for food listings: the rows
    whose expiry date was read, cleaned. *)
Lemma clean_food_listings (df : DataFrame) :
  well_formed "food_listings" df →
  clean "food_listings" df
  = mkFrame (columns df)
      (omap loaded_listing
         (zip (rows df) (to_datetime (column_values 3 (rows df)))))
  ∧ well_formed "food_listings" (clean "food_listings" df).
Proof.
  intros [Hcols Hfit].
  assert (Hlen : Forall (λ r, length r = 9%nat) (rows df)).
  { eapply Forall_impl; [exact Hfit|]. intros r [Hr _]. by rewrite Hr, Hcols. }
  assert (Hclean : clean "food_listings" df
    = mkFrame (columns df)
        (omap loaded_listing
           (zip (rows df) (to_datetime (column_values 3 (rows df)))))).
  { unfold clean, clean_expiry_date. rewrite Hcols.
    change (index_of "expiry_date" _) with (Some 3%nat). cbn zeta.
    unfold clean_quantity. cbn [columns rows].
    change (index_of "quantity" _) with (Some 2%nat). cbn zeta.
    unfold clean_contact. cbn [columns rows].
    change (index_of "contact" _) with (@None nat).
    unfold deduplicate. rewrite decide_False by compute_done.
    f_equal. rewrite expiry_rows.
    2:{ eapply Forall_impl; [exact Hlen|]. intros r ->. lia. }
    rewrite quantity_rows; [apply fmap_omap_listing|].
    apply Forall_forall. intros row Hrow.
    apply list_elem_of_omap in Hrow as ([r p] & Hin & Hrow).
    apply list_elem_of_lookup in Hin as [j Hj].
    apply lookup_zip_with_Some in Hj as (r' & p' & [= <- <-] & Hr & Hp).
    destruct p as [ts|]; [|discriminate]. injection Hrow as <-.
    rewrite length_insert.
    eapply Forall_lookup_1 in Hlen; [|exact Hr]. cbn in Hlen. lia. }
  split; [done|]. rewrite Hclean. split; [done|]. cbn [columns rows].
  apply omap_loaded_listing_Forall. intros r ts Hr.
  eapply Forall_forall in Hfit; [|exact Hr].
  unfold cleaned_listing. by do 2 (apply row_fits_insert; [done|]).
Qed.

Lemma omap_loaded_listing_length (rs : list (list cell))
    (parsed : list (option Timestamp)) :
  length parsed = length rs →
  length (omap loaded_listing (zip rs parsed))
  = length (filter is_Some parsed).
Proof.
  revert parsed. induction rs as [|r rs IH]; intros [|p parsed] Hlen;
    try done.
  cbn [zip zip_with omap list_omap]. rewrite filter_cons.
  injection Hlen as Hlen. specialize (IH parsed Hlen).
  destruct p as [ts|]; cbn.
  - rewrite decide_True by eauto. cbn. by f_equal.
  - rewrite decide_False by (by intros [? ?]). done.
Qed.

End CleanedFrames.

(* --------------------------------------------------------------------- *)
(** ** The bootstrap                                                       *)
(* --------------------------------------------------------------------- *)

Section BootstrapTheorems.
Context `{Externals}.

(** The fallback on a file that is new, or that holds the five empty
    tables a failed import left, when no connection holds the write lock:
    it stores the sample dataset and closes its connection. *)
Lemma use_sample_data_new (w : world) :
  write_locked w = false →
  db_file w = None ∨ db_file w = Some (fresh_database ∅) →
  use_sample_data w
  = (Return (),
     mkWorld (data_dir w) (Some sample_database) (open_connections w) false).
Proof.
  destruct w as [dd db n locked]. cbn. intros -> [->| ->]; vm_compute; reflexivity.
Qed.

(** The fallback on the five empty tables of a failed import whose
    connection still holds the write lock: the tables are there, so the
    CREATE statements have nothing to write, and the first INSERT raises
    'database is locked'. Nothing is stored and nothing closes the
    connection. *)
Lemma use_sample_data_locked (w : world) :
  write_locked w = true → db_file w = Some (fresh_database ∅) →
  use_sample_data w
  = (Raise,
     mkWorld (data_dir w) (Some (fresh_database ∅)) (S (open_connections w))
       true).
Proof.
  destruct w as [dd db n locked]. cbn. intros -> ->. vm_compute. reflexivity.
Qed.

(** What the bootstrap does after a failed import depends on whether the
    import's connection holds the write lock. *)
Lemma init_database_after_failed_import (w : world) (dir : gmap string csv_file) :
  db_file w = None → write_locked w = false →
  data_dir w = Some dir → csv_files dir ≠ [] →
  (import_csv_data w).1 = Return false →
  init_database w
  = if write_locked (import_csv_data w).2
    then (Raise,
          mkWorld (Some dir) (Some (fresh_database ∅))
            (S (S (open_connections w))) true)
    else (Return (),
          mkWorld (Some dir) (Some sample_database) (S (open_connections w))
            false).
Proof.
  intros Hnew Hfree Hdir Hcsv Hfail. unfold init_database.
  rewrite Hnew, Hdir. rewrite bool_decide_eq_false_2 by done. cbn [negb].
  rewrite (import_csv_data_eq w dir Hdir Hcsv Hfree) in Hfail |- *.
  case_bool_decide; [discriminate|]. cbn [snd write_locked]. rewrite Hnew.
  destruct (in_transaction _).
  - by rewrite use_sample_data_locked.
  - rewrite use_sample_data_new; [done|done|by right].
Qed.

(** X23. The cases in which the fallback works. With no database file, on
    which then no connection holds a lock: when the input directory is
    absent, when it holds no CSV file, and when the import returns False
    without its connection holding the write lock (no INSERT had begun to
    run), [init_database] returns normally and the file holds exactly the
    sample dataset: 5 providers, 5 receivers, 8 food listings, 5 claims,
    and an empty audit log. *)
Theorem init_database_fallback (w : world) :
  db_file w = None → write_locked w = false →
  data_dir w = None
  ∨ (∃ dir, data_dir w = Some dir ∧ csv_files dir = [])
  ∨ (∃ dir, data_dir w = Some dir ∧ csv_files dir ≠ []
            ∧ (import_csv_data w).1 = Return false
            ∧ write_locked (import_csv_data w).2 = false) →
  ∃ w', init_database w = (Return (), w')
      ∧ db_file w' = Some sample_database
      ∧ length (stored_rows "providers" w') = 5%nat
      ∧ length (stored_rows "receivers" w') = 5%nat
      ∧ length (stored_rows "food_listings" w') = 8%nat
      ∧ length (stored_rows "claims" w') = 5%nat.
Proof.
  intros Hnew Hfree Hcase.
  assert (Hdone : ∃ w', use_sample_data w = (Return (), w')
      ∧ db_file w' = Some sample_database
      ∧ length (stored_rows "providers" w') = 5%nat
      ∧ length (stored_rows "receivers" w') = 5%nat
      ∧ length (stored_rows "food_listings" w') = 8%nat
      ∧ length (stored_rows "claims" w') = 5%nat).
  { rewrite (use_sample_data_new w Hfree) by (by left).
    eexists. split; [reflexivity|]. by split_and!. }
  destruct Hcase as [Hdir|[(dir & Hdir & Hcsv)|(dir & Hdir & Hcsv & Hfail & Hunl)]].
  - unfold init_database. by rewrite Hnew, Hdir.
  - unfold init_database. rewrite Hnew, Hdir.
    by rewrite bool_decide_eq_true_2 by done.
  - rewrite (init_database_after_failed_import w dir Hnew Hfree Hdir Hcsv Hfail).
    rewrite Hunl. eexists. split; [reflexivity|]. by split_and!.
Qed.

End BootstrapTheorems.

Lemma import_csv_data_aborts_without_rollback_witness :
  ∃ s, import_session unreadable_receivers_dir unreadable_receivers_world = (false, s)
     ∧ import_csv_data unreadable_receivers_world
       = (Return false, leave_open s (get_db_connection unreadable_receivers_world).2)
     ∧ db_file (import_csv_data unreadable_receivers_world).2
       = Some (fresh_database (default ∅ (db_file unreadable_receivers_world)))
     ∧ (∀ t', t' ∈ program_tables →
          stored_rows t' (import_csv_data unreadable_receivers_world).2 = [])
     ∧ open_connections (import_csv_data unreadable_receivers_world).2
       = S (open_connections unreadable_receivers_world)
     ∧ (∀ t', t' ∈ ["providers"] →
          view s !! t' = loaded_table unreadable_receivers_dir t')
     ∧ (∀ t', t' ∈ ["food_listings"; "claims"] →
          view s !! t' = Some (empty_table t')).
Proof.
  apply (import_csv_data_aborts_without_rollback unreadable_receivers_world
           unreadable_receivers_dir ["providers"] "receivers"
           ["food_listings"; "claims"]).
  - reflexivity.
  - vm_compute. discriminate.
  - reflexivity.
  - reflexivity.
  - constructor; [|constructor]. vm_compute. eexists. reflexivity.
  - vm_compute. reflexivity.
Defined.

(** C5, as stated, fails on the tables replaced before the failure. The
    providers file is good and the receivers file cannot be read. The step
    of the providers succeeds: it inserts two rows. The load then returns
    False, and the providers table on file is not in its replaced state:
    it is empty, and so is what a query reads from it afterwards. *)
Lemma providers_not_stored_after_failed_load :
  (∃ tb, loaded_table unreadable_receivers_dir "providers" = Some tb
         ∧ length (contents tb) = 2%nat)
  ∧ (import_csv_data unreadable_receivers_world).1 = Return false
  ∧ stored_rows "providers" (import_csv_data unreadable_receivers_world).2 = []
  ∧ (run_query (λ db, tb ← db !! "providers"; Some (mkFrame [] (contents tb)))
       (import_csv_data unreadable_receivers_world).2).1
    = Return (mkFrame [] []).
Proof.
  split_and!.
  - eexists. split; vm_compute; reflexivity.
  - vm_compute. reflexivity.
  - vm_compute. reflexivity.
  - vm_compute. reflexivity.
Qed.

Lemma init_database_fallback_witness :
  ∃ w', init_database (mkWorld (Some {[ "providers_data.csv" := Unreadable ]})
                         None 0 false)
        = (Return (), w')
      ∧ db_file w' = Some sample_database
      ∧ length (stored_rows "providers" w') = 5%nat
      ∧ length (stored_rows "receivers" w') = 5%nat
      ∧ length (stored_rows "food_listings" w') = 8%nat
      ∧ length (stored_rows "claims" w') = 5%nat.
Proof.
  apply (init_database_fallback
           (mkWorld (Some {[ "providers_data.csv" := Unreadable ]}) None 0 false)).
  - reflexivity.
  - reflexivity.
  - right. right. eexists. split; [reflexivity|]. split_and!.
    + vm_compute. discriminate.
    + vm_compute. reflexivity.
    + vm_compute. reflexivity.
Defined.

(** C6, at a failing input. There is no database file, and the providers
    file holds two rows with the same [provider_id]. The import inserts
    the first row, fails on the second and returns False with its
    connection open, in a write transaction. [init_database] goes on to
    the sample data, as the claim says, but its first INSERT raises
    'database is locked': the call raises, and the file holds five empty
    tables, not the sample dataset. *)
Theorem init_database_fallback_raises_after_insert :
  db_file same_id_world = None
  ∧ (import_csv_data same_id_world).1 = Return false
  ∧ write_locked (import_csv_data same_id_world).2 = true
  ∧ (init_database same_id_world).1 = Raise
  ∧ db_file (init_database same_id_world).2 = Some (fresh_database ∅)
  ∧ stored_rows "providers" (init_database same_id_world).2 = []
  ∧ db_file (init_database same_id_world).2 ≠ Some sample_database.
Proof.
  assert (Hdb : db_file (init_database same_id_world).2 = Some (fresh_database ∅))
    by (vm_compute; reflexivity).
  split_and!; [vm_compute; reflexivity..|].
  rewrite Hdb. intros Heq.
  apply (f_equal (λ o, length (from_option contents []
                                 (default ∅ o !! "providers")))) in Heq.
  vm_compute in Heq. discriminate.
Qed.

(* --------------------------------------------------------------------- *)
(** ** Connections                                                         *)
(* --------------------------------------------------------------------- *)

Section ConnectionTheorems.
Context `{Externals}.

(** [run_query] closes the connection it opened, whether the query returns
    or raises. *)
Lemma run_query_closes (query : database → option DataFrame) (w : world) :
  open_connections (run_query query w).2 = open_connections w.
Proof. unfold run_query. cbn. by destruct (query _). Qed.

(** So does [execute_query]. *)
Lemma execute_query_closes (stmt : statement) (w : world) :
  open_connections (execute_query stmt w).2 = open_connections w.
Proof. unfold execute_query. cbn. by destruct (execute _ _). Qed.

Lemma log_audit_closes (now : clock) (operation details : string) (w : world) :
  open_connections (log_audit now operation details w).2 = open_connections w.
Proof. apply execute_query_closes. Qed.

(** The loader closes its connection when it returns True... *)
Lemma import_csv_data_true_closes (w w' : world) :
  import_csv_data w = (Return true, w') →
  open_connections w' = open_connections w.
Proof.
  destruct (data_dir w) as [dir|] eqn:Hdir.
  - intros Himport.
    by destruct (import_csv_data_true w w' dir Hdir Himport) as (_ & _ & _ & ->).
  - unfold import_csv_data. rewrite Hdir. by intros [= <-].
Qed.

(** ... and leaves it open when a step of the loop fails, or when lines
    38-101 raise. *)
Lemma import_csv_data_false_leaves_open (w : world) (dir : gmap string csv_file) :
  data_dir w = Some dir → csv_files dir ≠ [] →
  write_locked w = true ∨ ¬ all_steps_succeed dir →
  (import_csv_data w).1 ≠ Return true
  ∧ open_connections (import_csv_data w).2 = S (open_connections w).
Proof.
  intros Hdir Hcsv Hnot. destruct (write_locked w) eqn:Hlock.
  - by rewrite (import_csv_data_locked w dir Hdir Hcsv Hlock).
  - destruct Hnot as [|Hnot]; [done|].
    rewrite (import_csv_data_eq w dir Hdir Hcsv Hlock).
    by rewrite bool_decide_eq_false_2.
Qed.

End ConnectionTheorems.

(** C8, at a failing input. The providers file holds two rows with the same
    [provider_id]; the second INSERT raises, the [except] branch returns
    False, and the connection opened at line 34 is still open: no
    [conn.close()] is reached on this path. *)
Theorem import_csv_data_failure_leaves_connection_open :
  open_connections same_id_world = 0%nat
  ∧ (import_csv_data same_id_world).1 = Return false
  ∧ open_connections (import_csv_data same_id_world).2 = 1%nat.
Proof. vm_compute. by split_and!. Qed.

(* --------------------------------------------------------------------- *)
(** ** The audit log                                                       *)
(* --------------------------------------------------------------------- *)

Section AuditTheorems.
Context `{Externals}.

(** [execute_query] in terms of the statement's effect on the tables, when
    no connection holds the write lock. *)
Lemma execute_query_eq (stmt : statement) (w : world) :
  write_locked w = false →
  let db := default ∅ (db_file w) in
  execute_query stmt w
  = match apply_statement stmt db with
    | Some db' => (Return (rowcount stmt db),
                   mkWorld (data_dir w) (Some db') (open_connections w) false)
    | None => (Raise, mkWorld (data_dir w) (Some db) (open_connections w) false)
    end.
Proof.
  intros Hfree.
  unfold execute_query, execute, get_db_connection, close, commit.
  rewrite Hfree. cbn.
  destruct (apply_statement stmt _) as [db'|]; cbn; [|done].
  by destruct (is_ddl stmt).
Qed.

(** While a connection holds the write lock, an INSERT, UPDATE or DELETE
    of [execute_query] raises; the connection is closed and nothing has
    changed. *)
Lemma execute_query_locked (stmt : statement) (w : world) :
  write_locked w = true → is_ddl stmt = false →
  execute_query stmt w
  = (Raise,
     mkWorld (data_dir w) (Some (default ∅ (db_file w))) (open_connections w)
       true).
Proof.
  intros Hlocked Hdml.
  unfold execute_query, execute, get_db_connection, close.
  rewrite Hlocked. cbn. by destruct stmt.
Qed.

(** INSERT, UPDATE and DELETE change the table they name and no other. *)
Lemma apply_statement_other_table (stmt : statement) (db db' : database) (t : string) :
  apply_statement stmt db = Some db' → t ≠ statement_table stmt →
  is_ddl stmt = false → db' !! t = db !! t.
Proof.
  intros Happly Hne Hddl.
  destruct stmt as [|? ? ? ?|t0 cols values|t0 sets kc k|t0 kc k];
    try discriminate; cbn in *.
  all: destruct (db !! t0) as [tb|]; [|discriminate]; cbn in Happly.
  - destruct (insert_rows tb cols values); [|discriminate].
    injection Happly as <-. by apply lookup_insert_ne.
  - destruct (update_rows tb sets kc k); [|discriminate].
    injection Happly as <-. by apply lookup_insert_ne.
  - destruct (delete_rows tb kc k); [|discriminate].
    injection Happly as <-. by apply lookup_insert_ne.
Qed.

(** An INSERT of one row appends one row. *)
Lemma insert_row_contents (tb tb' : table) cols vals :
  insert_row tb cols vals = Some tb' →
  schema tb' = schema tb ∧ ∃ row, contents tb' = contents tb ++ [row].
Proof.
  unfold insert_row. intros Hins.
  repeat case_match; simplify_eq; cbn; eauto.
Qed.

Lemma action_statement_table (now : clock) (a : action) :
  statement_table (action_statement now a) ≠ "audit_log"
  ∧ is_ddl (action_statement now a) = false.
Proof. by destruct a. Qed.

(** No statement of an action changes the audit log. *)
Lemma action_statement_keeps_audit_rows (now : clock) (a : action) (w : world) :
  audit_rows (execute_query (action_statement now a) w).2 = audit_rows w.
Proof.
  destruct (action_statement_table now a) as [Hne Hddl].
  destruct (write_locked w) eqn:Hlock.
  { rewrite execute_query_locked by done. unfold audit_rows. cbn.
    by destruct (db_file w). }
  rewrite execute_query_eq by done. unfold audit_rows.
  destruct (apply_statement _ _) as [db'|] eqn:Happly; cbn.
  - rewrite (apply_statement_other_table _ _ _ "audit_log" Happly) by done.
    by destruct (db_file w).
  - by destruct (db_file w).
Qed.

(** [log_audit] appends one row, or raises and changes nothing. *)
Lemma log_audit_audit_rows (now : clock) (operation details : string) (w : world) :
  match (log_audit now operation details w).1 with
  | Return _ => ∃ row, audit_rows (log_audit now operation details w).2
                       = audit_rows w ++ [row]
  | Raise => audit_rows (log_audit now operation details w).2 = audit_rows w
  end.
Proof.
  unfold log_audit.
  assert (Hdb : from_option contents [] (default ∅ (db_file w) !! "audit_log")
                = match db_file w with
                  | Some db => from_option contents [] (db !! "audit_log")
                  | None => []
                  end) by (by destruct (db_file w)).
  destruct (write_locked w) eqn:Hlock.
  { rewrite execute_query_locked by done. unfold audit_rows. cbn.
    by rewrite <- Hdb. }
  rewrite execute_query_eq by done. unfold audit_rows.
  cbn [apply_statement].
  rewrite <- Hdb. clear Hdb.
  destruct (default ∅ (db_file w) !! "audit_log") as [tb|] eqn:Htb; cbn.
  - destruct (insert_row tb _ _) as [tb'|] eqn:Hins; cbn.
    + apply insert_row_contents in Hins as [_ [row Hrow]].
      exists row. by rewrite lookup_insert_eq.
    + by rewrite Htb.
  - by rewrite Htb.
Qed.

(** The audit rows after an action: the rows before, and one more exactly
    when the action returned. *)
Lemma perform_audit_rows (now : clock) (a : action) (w : world) :
  match (perform now a w).1 with
  | Return _ => ∃ row, audit_rows (perform now a w).2 = audit_rows w ++ [row]
  | Raise => audit_rows (perform now a w).2 = audit_rows w
  end.
Proof.
  unfold perform.
  pose proof (action_statement_keeps_audit_rows now a w) as Hkeep.
  destruct (execute_query (action_statement now a) w) as [[rc|] w1].
  - pose proof (log_audit_audit_rows now (action_operation a) (action_details a) w1)
      as Hlog.
    cbn [snd] in Hkeep. rewrite Hkeep in Hlog.
    by destruct (log_audit now _ _ w1) as [[rc'|] w2].
  - done.
Qed.

(** The loader leaves no audit row behind once it has opened its
    connection, unless a connection left open keeps the file locked: then
    it raises on its first statement and the audit rows stay. *)
Lemma import_csv_data_erases_audit_rows (w : world) (dir : gmap string csv_file) :
  data_dir w = Some dir → csv_files dir ≠ [] →
  audit_rows (import_csv_data w).2 = if write_locked w then audit_rows w else [].
Proof.
  intros Hdir Hcsv. destruct (write_locked w) eqn:Hlock.
  { rewrite (import_csv_data_locked w dir Hdir Hcsv Hlock).
    unfold audit_rows. cbn. by destruct (db_file w). }
  rewrite (import_csv_data_eq w dir Hdir Hcsv Hlock).
  unfold audit_rows. case_bool_decide; cbn [snd db_file].
  - rewrite loaded_database_lookup. rewrite decide_False by compute_done.
    by rewrite fresh_database_lookup.
  - by rewrite fresh_database_lookup.
Qed.

End AuditTheorems.

Section AuditLog.
Context `{Externals}.

(** The row that [log_audit] writes: its last cell is the reading of
    [datetime.now()], the local time. *)
Lemma log_audit_entry (now : clock) (operation details : string) (w : world)
    (db : database) (tb : table) :
  write_locked w = false →
  db_file w = Some db → db !! "audit_log" = Some tb →
  schema tb = audit_log_schema →
  (log_audit now operation details w).1 = Return 1
  ∧ audit_rows (log_audit now operation details w).2
    = audit_rows w
      ++ [audit_entry (next_rowid tb 0) operation details (local_now now)].
Proof.
  intros Hfree Hdb Htb Hschema. unfold log_audit.
  rewrite execute_query_eq by done.
  assert (Hins : insert_row tb ["operation"; "user"; "details"; "ts_utc"]
            [CStr operation; CStr "streamlit"; CStr details; CStr (local_now now)]
          = Some (mkTable (schema tb) (autoincrement tb)
                    (if autoincrement tb
                     then Z.max (sequence tb) (next_rowid tb 0) else sequence tb)
                    (contents tb
                     ++ [audit_entry (next_rowid tb 0) operation details
                           (local_now now)]))).
  { unfold insert_row. rewrite Hschema. reflexivity. }
  unfold audit_rows. rewrite Hdb. cbn -[insert_row]. rewrite Htb.
  cbn -[insert_row]. rewrite Hins. cbn. by rewrite lookup_insert_eq.
Qed.

(** A page action that returns has appended exactly one audit row, and the
    time in it is the local time. *)
Lemma perform_audit_entry (now : clock) (a : action) (w w' : world)
    (db : database) (tb : table) :
  db_file w = Some db → db !! "audit_log" = Some tb →
  schema tb = audit_log_schema →
  perform now a w = (Return (), w') →
  audit_rows w'
  = audit_rows w
    ++ [audit_entry (next_rowid tb 0) (action_operation a) (action_details a)
          (local_now now)].
Proof.
  intros Hdb Htb Hschema. unfold perform.
  pose proof (action_statement_keeps_audit_rows now a w) as Hkeep.
  destruct (action_statement_table now a) as [Hne Hddl].
  destruct (write_locked w) eqn:Hlock.
  { rewrite execute_query_locked by done. by intros [=]. }
  rewrite execute_query_eq in Hkeep |- * by done. rewrite Hdb in Hkeep |- *.
  change (default ∅ (Some db)) with db in Hkeep |- *.
  destruct (apply_statement (action_statement now a) db) as [db1|] eqn:Happly;
    [|by intros [=]].
  cbn [snd] in Hkeep.
  assert (Htb1 : db1 !! "audit_log" = Some tb).
  { rewrite (apply_statement_other_table _ _ _ "audit_log" Happly); done. }
  destruct (log_audit_entry now (action_operation a) (action_details a)
              (mkWorld (data_dir w) (Some db1) (open_connections w) false) db1 tb
              eq_refl eq_refl Htb1 Hschema) as [Hret Hrows].
  destruct (log_audit now _ _ _) as [[rc|] w2]; [|discriminate].
  intros [= <-]. cbn [snd] in Hrows. by rewrite Hrows, Hkeep.
Qed.

(** C4, as the program has it. The audit rows are only ever extended by the
    actions of the pages, by [log_audit], by the read queries and by the
    bootstrap: the rows present before are still there, unchanged and in
    place, afterwards. The loader is the exception: once it has found a CSV
    file it drops the audit table with the others, and no audit row
    survives a load; only when a connection left open keeps the file
    locked does the loader raise before it has dropped anything. *)
Theorem audit_rows_append_only_except_loader (w : world) :
  (∀ now a, audit_rows w `prefix_of` audit_rows (perform now a w).2)
  ∧ (∀ now operation details,
       audit_rows w `prefix_of` audit_rows (log_audit now operation details w).2)
  ∧ (∀ query, audit_rows (run_query query w).2 = audit_rows w)
  ∧ audit_rows w `prefix_of` audit_rows (init_database w).2
  ∧ (∀ dir, data_dir w = Some dir → csv_files dir ≠ [] →
       audit_rows (reimport w).2 = if write_locked w then audit_rows w else []).
Proof.
  split_and!.
  - intros now a. pose proof (perform_audit_rows now a w) as Hp.
    destruct ((perform now a w).1).
    + destruct Hp as [row ->]. by apply prefix_app_r.
    + by rewrite Hp.
  - intros now operation details.
    pose proof (log_audit_audit_rows now operation details w) as Hp.
    destruct ((log_audit now operation details w).1).
    + destruct Hp as [row ->]. by apply prefix_app_r.
    + by rewrite Hp.
  - intros query. unfold run_query, audit_rows. cbn.
    destruct (query _); cbn; by destruct (db_file w).
  - unfold init_database, audit_rows at 1.
    destruct (db_file w) as [db|] eqn:Hdb; [|apply prefix_nil].
    unfold audit_rows. cbn. by rewrite Hdb.
  - intros dir Hdir Hcsv. by apply (import_csv_data_erases_audit_rows w dir).
Qed.

End AuditLog.

Lemma audit_rows_append_only_except_loader_witness :
  audit_rows world_with_audit_row
    `prefix_of` audit_rows
      (perform clock_ist (DeleteProvider (NInt 3)) world_with_audit_row).2
  ∧ audit_rows (reimport world_with_audit_row).2 = [].
Proof.
  destruct (audit_rows_append_only_except_loader world_with_audit_row)
    as (Hperform & _ & _ & _ & Hload).
  split; [apply Hperform|].
  apply (Hload {[ "providers_data.csv" := Readable shared_contact_providers ]}).
  - vm_compute. reflexivity.
  - vm_compute. discriminate.
Defined.

(** C4, as stated, fails on the loader. A database was made from a
    providers file and one receiver was added through the form, which wrote
    one audit row. Pressing [Re-import CSV Data] then returns True and the
    audit log is empty: the row was deleted. *)
Lemma audit_rows_deleted_by_reimport :
  audit_rows world_with_audit_row
  = [audit_entry 1 "create_receiver" "receiver_id=9" "2025-03-01 14:30:00"]
  ∧ (reimport world_with_audit_row).1 = Return true
  ∧ audit_rows (reimport world_with_audit_row).2 = []
  ∧ ¬ audit_rows world_with_audit_row
        `prefix_of` audit_rows (reimport world_with_audit_row).2.
Proof.
  assert (Hrows : audit_rows world_with_audit_row
    = [audit_entry 1 "create_receiver" "receiver_id=9" "2025-03-01 14:30:00"])
    by (vm_compute; reflexivity).
  assert (Hafter : audit_rows (reimport world_with_audit_row).2 = [])
    by (vm_compute; reflexivity).
  split_and!; [done|vm_compute; reflexivity|done|].
  rewrite Hrows, Hafter. intros [k Hk]. discriminate.
Qed.

(** C9, at a failing input. On a host whose local time is not UTC, adding
    a receiver through the form returns normally and appends exactly one
    audit row, but the cell stored in the column [ts_utc] is the local
    time of the operation, not its UTC time. *)
Theorem log_audit_stores_local_time :
  let w := (init_database shared_contact_world).2 in
  let w' := (perform clock_ist add_receiver_9 w).2 in
  (perform clock_ist add_receiver_9 w).1 = Return ()
  ∧ audit_rows w'
    = audit_rows w
      ++ [audit_entry 1 "create_receiver" "receiver_id=9" (local_now clock_ist)]
  ∧ audit_entry 1 "create_receiver" "receiver_id=9" (local_now clock_ist)
    ≠ audit_entry 1 "create_receiver" "receiver_id=9" (utc_now clock_ist).
Proof. vm_compute. split_and!; [reflexivity|reflexivity|discriminate]. Qed.

(* --------------------------------------------------------------------- *)
(** ** What a load stores                                                  *)
(* --------------------------------------------------------------------- *)

Section LoadedRows.
Context `{Externals}.

(** C1. A well-formed providers or receivers batch, after a load that
    returned True: the table holds, in file order, the first input row of
    each distinct trimmed contact, with its contact trimmed; every later
    row with the same trimmed contact is absent, and the number of stored
    rows is the number of distinct trimmed contacts of the input. *)
Theorem providers_receivers_first_seen_contact (t : string) (w w' : world)
    (dir : gmap string csv_file) (df : DataFrame) (i : nat) :
  t ∈ ["providers"; "receivers"] →
  data_dir w = Some dir →
  dir !! (t +:+ "_data.csv") = Some (Readable df) →
  well_formed t df →
  index_of "contact" (columns df) = Some i →
  import_csv_data w = (Return true, w') →
  stored_rows t w'
  = with_trimmed_contact i <$> first_seen (contact_key i) (rows df)
  ∧ length (stored_rows t w')
    = size (list_to_set (contact_key i <$> rows df) : gset string).
Proof.
  intros Ht Hdir Hfile Hwf Hi Himport.
  assert (Hord : t ∈ import_order).
  { unfold import_order. set_unfold. naive_solver. }
  destruct (import_true_stored_rows w w' dir t Hdir Himport Hord)
    as (tb & Hload & Hstored).
  destruct (clean_contact_table t df i Ht Hwf Hi) as [Hclean Hwf'].
  rewrite Hstored, (loaded_table_contents dir t df tb Hord Hfile Hwf' Hload).
  rewrite Hclean. cbn [rows]. split; [done|].
  by rewrite length_fmap, first_seen_length.
Qed.

(** C2. A well-formed food-listings batch, after a load that returned
    True: the table holds exactly what the rows whose expiry date was read
    contribute, in file order; a row whose date could not be read
    contributes nothing. So every stored row comes from an input row whose
    date was read and shows that date in ISO form, and there are as many
    stored rows as dates read. *)
Theorem food_listings_keep_parsed_expiry_only (w w' : world)
    (dir : gmap string csv_file) (df : DataFrame) :
  data_dir w = Some dir →
  dir !! "food_listings_data.csv" = Some (Readable df) →
  well_formed "food_listings" df →
  import_csv_data w = (Return true, w') →
  let parsed := to_datetime (column_values 3 (rows df)) in
  stored_rows "food_listings" w' = omap loaded_listing (zip (rows df) parsed)
  ∧ Forall (λ row, ∃ j r ts, rows df !! j = Some r
                             ∧ parsed !! j = Some (Some ts)
                             ∧ row = cleaned_listing ts r
                             ∧ get_cell 3 row = CStr (strftime_Ymd ts))
      (stored_rows "food_listings" w')
  ∧ length (stored_rows "food_listings" w') = length (filter is_Some parsed).
Proof.
  intros Hdir Hfile Hwf Himport parsed.
  assert (Hord : "food_listings" ∈ import_order) by compute_done.
  destruct (import_true_stored_rows w w' dir _ Hdir Himport Hord)
    as (tb & Hload & Hstored).
  destruct (clean_food_listings df Hwf) as [Hclean Hwf'].
  assert (Heq : stored_rows "food_listings" w'
                = omap loaded_listing (zip (rows df) parsed)).
  { rewrite Hstored.
    rewrite (loaded_table_contents dir _ df tb Hord Hfile Hwf' Hload).
    by rewrite Hclean. }
  rewrite Heq. split_and!; [done| |].
  - apply Forall_forall. intros row Hrow.
    apply list_elem_of_omap in Hrow as ([r p] & Hin & Hrow).
    apply list_elem_of_lookup in Hin as [j Hj].
    apply lookup_zip_with_Some in Hj as (r' & p' & [= <- <-] & Hr & Hp).
    destruct p as [ts|]; [|discriminate]. injection Hrow as <-.
    exists j, r, ts. split_and!; try done.
    unfold cleaned_listing. rewrite get_cell_insert_ne by done.
    apply get_cell_insert.
    destruct Hwf as [Hcols Hfit].
    eapply Forall_lookup_1 in Hfit as [Hlen _]; [|exact Hr].
    rewrite Hlen, Hcols. compute_done.
  - apply omap_loaded_listing_length. unfold parsed, column_values.
    by rewrite to_datetime_length, length_fmap.
Qed.

(** C3, as the program has it. A well-formed food-listings batch, after a
    load that returned True: an input row whose quantity does not read as
    a number, or reads as a negative number, and whose expiry date was
    read, is in the table with its quantity absent, its expiry date in ISO
    form and every other cell as in the input. *)
Theorem listing_with_bad_quantity_kept_if_expiry_parsed (w w' : world)
    (dir : gmap string csv_file) (df : DataFrame) (j : nat) (r : list cell)
    (ts : Timestamp) :
  data_dir w = Some dir →
  dir !! "food_listings_data.csv" = Some (Readable df) →
  well_formed "food_listings" df →
  import_csv_data w = (Return true, w') →
  rows df !! j = Some r →
  to_datetime (column_values 3 (rows df)) !! j = Some (Some ts) →
  to_numeric (get_cell 2 r) = None
  ∨ (∃ n, to_numeric (get_cell 2 r) = Some n ∧ number_negative n = true) →
  <[2%nat := CNull]> (<[3%nat := CStr (strftime_Ymd ts)]> r)
    ∈ stored_rows "food_listings" w'.
Proof.
  intros Hdir Hfile Hwf Himport Hr Hts Hbad.
  assert (Hord : "food_listings" ∈ import_order) by compute_done.
  destruct (import_true_stored_rows w w' dir _ Hdir Himport Hord)
    as (tb & Hload & Hstored).
  destruct (clean_food_listings df Hwf) as [Hclean Hwf'].
  rewrite Hstored, (loaded_table_contents dir _ df tb Hord Hfile Hwf' Hload).
  rewrite Hclean. cbn [rows].
  apply list_elem_of_omap. exists (r, Some ts). split.
  - eapply list_elem_of_lookup_2. apply lookup_zip_with_Some. eauto.
  - cbn. unfold cleaned_listing, cleaned_quantity.
    destruct Hbad as [->|(n & -> & ->)]; done.
Qed.

End LoadedRows.

Lemma providers_receivers_first_seen_contact_witness :
  let w' := (import_csv_data shared_contact_world).2 in
  stored_rows "providers" w'
  = with_trimmed_contact 5
      <$> first_seen (contact_key 5) (rows shared_contact_providers)
  ∧ length (stored_rows "providers" w')
    = size (list_to_set (contact_key 5 <$> rows shared_contact_providers)
              : gset string).
Proof.
  apply (providers_receivers_first_seen_contact "providers"
           shared_contact_world _
           {[ "providers_data.csv" := Readable shared_contact_providers ]}
           shared_contact_providers 5).
  - compute_done.
  - reflexivity.
  - vm_compute. reflexivity.
  - split; [reflexivity|].
    repeat constructor; eexists; reflexivity.
  - reflexivity.
  - vm_compute. reflexivity.
Defined.

(** The scenario of the specification: providers 1, 2 and 3 with contacts
    X, X and Y load as the two rows with ids 1 and 3. *)
Example shared_contact_providers_loaded :
  stored_rows "providers" (import_csv_data shared_contact_world).2
  = [[int 1; CStr "A"; CStr "Cafe"; CStr "1 Main St"; CStr "Pune"; CStr "X"];
     [int 3; CStr "C"; CStr "Bakery"; CStr "3 Main St"; CStr "Pune"; CStr "Y"]].
Proof. vm_compute. reflexivity. Qed.

Lemma food_listings_keep_parsed_expiry_only_witness :
  let w' := (import_csv_data negative_quantity_world).2 in
  let parsed := to_datetime (column_values 3 (rows negative_quantity_listings)) in
  stored_rows "food_listings" w'
  = omap loaded_listing (zip (rows negative_quantity_listings) parsed)
  ∧ Forall (λ row, ∃ j r ts, rows negative_quantity_listings !! j = Some r
                             ∧ parsed !! j = Some (Some ts)
                             ∧ row = cleaned_listing ts r
                             ∧ get_cell 3 row = CStr (strftime_Ymd ts))
      (stored_rows "food_listings" w')
  ∧ length (stored_rows "food_listings" w') = length (filter is_Some parsed).
Proof.
  apply (food_listings_keep_parsed_expiry_only negative_quantity_world _
           negative_quantity_dir negative_quantity_listings).
  - reflexivity.
  - vm_compute. reflexivity.
  - split; [reflexivity|].
    repeat constructor; eexists; reflexivity.
  - vm_compute. reflexivity.
Defined.

Lemma listing_with_bad_quantity_kept_if_expiry_parsed_witness :
  [int 2; CStr "Rice"; CNull; CStr "2025-02-01"; int 1; CStr "Cafe";
   CStr "Storage B"; CStr "Grain"; CStr "Lunch"]
    ∈ stored_rows "food_listings" (import_csv_data negative_quantity_world).2.
Proof.
  apply (listing_with_bad_quantity_kept_if_expiry_parsed
           negative_quantity_world _ negative_quantity_dir
           negative_quantity_listings 1
           [int 2; CStr "Rice"; int (-5); CStr "2025/02/01"; int 1; CStr "Cafe";
            CStr "Storage B"; CStr "Grain"; CStr "Lunch"]
           (mkTimestamp 2025 2 1)).
  - reflexivity.
  - vm_compute. reflexivity.
  - split; [reflexivity|].
    repeat constructor; eexists; reflexivity.
  - vm_compute. reflexivity.
  - reflexivity.
  - reflexivity.
  - right. eexists. split; reflexivity.
Defined.

(** C3, as stated, fails on a row that breaks both rules. The first listing
    has quantity -5 and the expiry value not-a-date: the load returns True
    and the row is not in the table. Only the second listing, whose date
    2025/02/01 was read, is kept: its quantity is absent and its expiry
    date is stored as 2025-02-01. *)
Lemma negative_quantity_listing_dropped :
  get_cell 2 (default [] (rows negative_quantity_listings !! 0%nat)) = int (-5)
  ∧ get_cell 3 (default [] (rows negative_quantity_listings !! 1%nat))
    = CStr "2025/02/01"
  ∧ (import_csv_data negative_quantity_world).1 = Return true
  ∧ stored_rows "food_listings" (import_csv_data negative_quantity_world).2
    = [[int 2; CStr "Rice"; CNull; CStr "2025-02-01"; int 1; CStr "Cafe";
        CStr "Storage B"; CStr "Grain"; CStr "Lunch"]]
  ∧ ¬ ∃ row, row ∈ stored_rows "food_listings"
                      (import_csv_data negative_quantity_world).2
             ∧ get_cell 0 row = int 1.
Proof.
  assert (Hrows :
    stored_rows "food_listings" (import_csv_data negative_quantity_world).2
    = [[int 2; CStr "Rice"; CNull; CStr "2025-02-01"; int 1; CStr "Cafe";
        CStr "Storage B"; CStr "Grain"; CStr "Lunch"]])
    by (vm_compute; reflexivity).
  split_and!; [reflexivity|reflexivity|vm_compute; reflexivity|done|].
  rewrite Hrows. intros (row & ->%list_elem_of_singleton & Hid).
  discriminate.
Qed.

(* ===================================================================== *)
(** * Part III. Further properties of the code                            *)
(* ===================================================================== *)

(* --------------------------------------------------------------------- *)
(** ** The employee roster: adding, searching, the menu loop               *)
(* --------------------------------------------------------------------- *)

Lemma add_employee_subseteq (self : Employee) id name age department salary :
  dict self ⊆ dict (add_employee self id name age department salary).1.
Proof.
  unfold add_employee. destruct (dict self !! id) eqn:Hid; cbn; [done|].
  by apply insert_subseteq.
Qed.

(** X1. Adding the same id twice in a row: whatever the roster held, the
    second call is rejected with the message that the id exists, and the
    roster is the one the first call left. *)
Theorem add_employee_twice (self : Employee) id name1 age1 department1 salary1
    name2 age2 department2 salary2 :
  add_employee (add_employee self id name1 age1 department1 salary1).1
    id name2 age2 department2 salary2
  = ((add_employee self id name1 age1 department1 salary1).1,
     [AlreadyExists id]).
Proof.
  unfold add_employee at 2 3. destruct (dict self !! id) as [info|] eqn:Hid; cbn.
  - unfold add_employee. by rewrite Hid.
  - unfold add_employee. cbn. by rewrite lookup_insert_eq.
Qed.

(** X2. Searching after adding. A search for the id just passed to
    [add_employee] always finds an employee: the one that was already
    stored under the id if there was one, the new one otherwise. A search
    for any other id gives what it gave before the call. *)
Theorem search_employee_after_add (self : Employee) id name age department
    salary :
  search_employee (add_employee self id name age department salary).1 id
  = EmployeeFound id
      (default (EmployeeInfo name age department salary) (dict self !! id))
  ∧ ∀ other, other ≠ id →
      search_employee (add_employee self id name age department salary).1 other
      = search_employee self other.
Proof.
  unfold search_employee, add_employee.
  destruct (dict self !! id) as [info|] eqn:Hid; cbn.
  - by rewrite Hid.
  - rewrite lookup_insert_eq. split; [done|].
    intros other Hne. by rewrite lookup_insert_ne.
Qed.

(** X3. Whatever is typed at the menu, and however the script ends, every
    employee of the roster the loop started with is still in the roster
    it ends with, with the same fields: no input removes or changes an
    entry. *)
Theorem run_session_keeps_employees (py_int : string → option Z)
    (py_float : string → option Q) (lines : list string) (emp : Employee) :
  dict emp ⊆ dict (run_session py_int py_float lines emp).2.
Proof.
  remember (length lines) as n eqn:Hn. revert lines emp Hn.
  induction n as [n IH] using lt_wf_ind. intros lines emp ->.
  destruct lines as [|choice_line rest]; [done|]. cbn [run_session].
  destruct (py_int choice_line) as [choice|]; [|done].
  repeat case_decide; try done.
  - destruct rest as [|id_line rest1]; [done|].
    destruct (py_int id_line) as [id|]; [|done].
    destruct rest1 as [|name [|age_line rest2]]; [done|done|].
    destruct (py_int age_line) as [age|]; [|done].
    destruct rest2 as [|department [|salary_line rest3]]; [done|done|].
    destruct (py_float salary_line) as [salary|]; [|done].
    etrans; [apply (add_employee_subseteq emp id name age department salary)|].
    eapply IH; [|done]. cbn. lia.
  - eapply IH; [|done]. cbn. lia.
  - destruct rest as [|id_line rest1]; [done|].
    destruct (py_int id_line) as [id|]; [|done].
    eapply IH; [|done]. cbn. lia.
  - eapply IH; [|done]. cbn. lia.
Qed.

(* --------------------------------------------------------------------- *)
(** ** The loader: outcome, replacement, missing files                     *)
(* --------------------------------------------------------------------- *)

Section LoaderOutcome.
Context `{Externals}.




(** X6. A table whose input file is missing is not an error: after a load
    that returned True the table exists and is empty. *)
Theorem import_csv_data_skips_missing_file (w w' : world)
    (dir : gmap string csv_file) (t : string) :
  data_dir w = Some dir → import_csv_data w = (Return true, w') →
  t ∈ import_order → dir !! (t +:+ "_data.csv") = None →
  (∃ db, db_file w' = Some db ∧ db !! t = Some (empty_table t))
  ∧ stored_rows t w' = [].
Proof.
  intros Hdir Himport Ht Hmissing.
  destruct (import_true_stored_rows w w' dir t Hdir Himport Ht)
    as (tb & Hload & Hstored).
  unfold loaded_table, load_into in Hload. rewrite Hmissing in Hload.
  injection Hload as <-. split.
  - destruct (import_csv_data_true w w' dir Hdir Himport) as (_ & _ & _ & ->).
    eexists. split; [reflexivity|].
    rewrite loaded_database_lookup, decide_True by done.
    unfold loaded_table, load_into. by rewrite Hmissing.
  - by rewrite Hstored, empty_table_contents.
Qed.

(** X7. A data directory that holds CSV files, none of them under one of
    the four expected names, and a database file that no connection keeps
    locked: the load returns True, closes its connection, and leaves the
    five tables of the program empty, whatever they held. *)
Theorem import_csv_data_unrelated_csv_files (w : world)
    (dir : gmap string csv_file) :
  data_dir w = Some dir → csv_files dir ≠ [] → write_locked w = false →
  (∀ t, t ∈ import_order → dir !! (t +:+ "_data.csv") = None) →
  import_csv_data w
  = (Return true,
     mkWorld (Some dir) (Some (fresh_database (default ∅ (db_file w))))
       (open_connections w) false).
Proof.
  intros Hdir Hcsv Hfree Hnone.
  assert (Hloaded : ∀ t, t ∈ import_order →
            loaded_table dir t = Some (empty_table t)).
  { intros t Ht. unfold loaded_table, load_into. by rewrite (Hnone t Ht). }
  rewrite (import_csv_data_eq w dir Hdir Hcsv Hfree).
  rewrite bool_decide_eq_true_2.
  2:{ apply Forall_forall. intros t Ht. rewrite (Hloaded t Ht). eauto. }
  do 2 f_equal. f_equal. f_equal. apply map_eq. intros t. rewrite loaded_database_lookup.
  case_decide as Ht; [|done].
  rewrite (Hloaded t Ht), fresh_database_lookup.
  by rewrite decide_True by by apply import_order_program_tables.
Qed.

End LoaderOutcome.



Lemma import_csv_data_skips_missing_file_witness :
  (∃ db, db_file (import_csv_data shared_contact_world).2 = Some db
         ∧ db !! "claims" = Some (empty_table "claims"))
  ∧ stored_rows "claims" (import_csv_data shared_contact_world).2 = [].
Proof.
  apply (import_csv_data_skips_missing_file shared_contact_world _
           {[ "providers_data.csv" := Readable shared_contact_providers ]}
           "claims").
  - reflexivity.
  - vm_compute. reflexivity.
  - compute_done.
  - vm_compute. reflexivity.
Defined.

Lemma import_csv_data_unrelated_csv_files_witness :
  import_csv_data unrelated_csv_sample_world
  = (Return true,
     mkWorld (Some unrelated_csv_dir) (Some (fresh_database sample_database)) 0
       false)
  ∧ stored_rows "providers" unrelated_csv_sample_world ≠ []
  ∧ stored_rows "providers" (import_csv_data unrelated_csv_sample_world).2 = [].
Proof.
  assert (Hrun := import_csv_data_unrelated_csv_files
                    unrelated_csv_sample_world unrelated_csv_dir eq_refl).
  split; [|split].
  - apply Hrun.
    + vm_compute. discriminate.
    + reflexivity.
    + assert (Hnone : Forall (λ t, unrelated_csv_dir !! (t +:+ "_data.csv") = None)
                        import_order).
      { unfold import_order.
        repeat (apply Forall_cons; split; [vm_compute; reflexivity|]).
        constructor. }
      intros t Ht. exact (proj1 (Forall_forall _ _) Hnone t Ht).
  - vm_compute. discriminate.
  - vm_compute. reflexivity.
Defined.

(* --------------------------------------------------------------------- *)
(** ** The bootstrap: all paths                                            *)
(* --------------------------------------------------------------------- *)

Section BootstrapPaths.
Context `{Externals}.

(** Whichever way it ends, the bootstrap leaves a database file. *)
Lemma init_database_leaves_file (w : world) :
  is_Some (db_file (init_database w).2).
Proof.
  assert (Hsample : ∀ w0, is_Some (db_file (use_sample_data w0).2)).
  { intros w0. unfold use_sample_data, get_db_connection.
    destruct (execute_all _ _) as [[] s1]; cbn; eauto. }
  unfold init_database. destruct (db_file w) as [db|] eqn:Hdb.
  { cbn. rewrite Hdb. eauto. }
  destruct (data_dir w) as [dir|] eqn:Hdir; [|apply Hsample].
  destruct (decide (csv_files dir = [])) as [Hcsv|Hcsv].
  { rewrite bool_decide_eq_true_2 by done. apply Hsample. }
  rewrite bool_decide_eq_false_2 by done. cbn [negb].
  assert (Himport : is_Some (db_file (import_csv_data w).2)).
  { unfold import_csv_data, get_db_connection.
    rewrite Hdir, bool_decide_eq_false_2 by done.
    destruct (execute_all _ _) as [[] s1]; [|cbn; eauto].
    destruct (import_loop _ _ _) as [[] s2]; cbn; eauto. }
  destruct (import_csv_data w) as [[[]|] w']; [done|apply Hsample|done].
Qed.

(** X8. The bootstrap acts at most once: called again on the state a first
    call left, whether that call returned or raised, it returns at once
    and changes nothing, since the database file now exists. *)
Theorem init_database_runs_once (w : world) :
  init_database (init_database w).2 = (Return (), (init_database w).2).
Proof.
  destruct (init_database_leaves_file w) as [db Hdb].
  unfold init_database at 1. by rewrite Hdb.
Qed.

(** X9. With no database file and a data directory on whose CSV files
    every step of the loader succeeds, the bootstrap stores what the
    loader made of the files and does not insert the sample data, even
    when no file had one of the expected names and the tables are empty. *)
Theorem init_database_prefers_csv (w : world) (dir : gmap string csv_file) :
  db_file w = None → write_locked w = false →
  data_dir w = Some dir → csv_files dir ≠ [] →
  all_steps_succeed dir →
  init_database w
  = (Return (),
     mkWorld (Some dir) (Some (loaded_database dir ∅)) (open_connections w)
       false).
Proof.
  intros Hnew Hfree Hdir Hcsv Hok. unfold init_database. rewrite Hnew, Hdir.
  rewrite bool_decide_eq_false_2 by done. cbn [negb].
  rewrite (import_csv_data_eq w dir Hdir Hcsv Hfree).
  rewrite bool_decide_eq_true_2 by done. by rewrite Hnew.
Qed.

End BootstrapPaths.

Lemma init_database_prefers_csv_witness :
  init_database unrelated_csv_new_world
  = (Return (),
     mkWorld (Some unrelated_csv_dir)
       (Some (loaded_database unrelated_csv_dir ∅)) 0 false)
  ∧ stored_rows "providers" (init_database unrelated_csv_new_world).2 = []
  ∧ stored_rows "claims" (init_database unrelated_csv_new_world).2 = [].
Proof.
  split; [|split; vm_compute; reflexivity].
  apply (init_database_prefers_csv unrelated_csv_new_world unrelated_csv_dir).
  - reflexivity.
  - reflexivity.
  - reflexivity.
  - vm_compute. discriminate.
  - unfold all_steps_succeed, import_order.
    repeat constructor; vm_compute; eexists; reflexivity.
Defined.

(* --------------------------------------------------------------------- *)
(** ** What a load stores: claims, quantities, contacts                    *)
(* --------------------------------------------------------------------- *)

Section MoreLoadedRows.
Context `{Externals}.

(** The rows a successful load stores for a table whose cleaned frame is
    well-formed. *)
Lemma stored_rows_cleaned (t : string) (w w' : world)
    (dir : gmap string csv_file) (df : DataFrame) :
  t ∈ import_order → data_dir w = Some dir →
  dir !! (t +:+ "_data.csv") = Some (Readable df) →
  well_formed t (clean t df) →
  import_csv_data w = (Return true, w') →
  stored_rows t w' = rows (clean t df).
Proof.
  intros Ht Hdir Hfile Hwf Himport.
  destruct (import_true_stored_rows w w' dir t Hdir Himport Ht)
    as (tb & Hload & Hstored).
  by rewrite Hstored, (loaded_table_contents dir t df tb Ht Hfile Hwf Hload).
Qed.

Lemma stored_food_listings (w w' : world) (dir : gmap string csv_file)
    (df : DataFrame) :
  data_dir w = Some dir →
  dir !! "food_listings_data.csv" = Some (Readable df) →
  well_formed "food_listings" df →
  import_csv_data w = (Return true, w') →
  stored_rows "food_listings" w'
  = omap loaded_listing
      (zip (rows df) (to_datetime (column_values 3 (rows df)))).
Proof.
  intros Hdir Hfile Hwf Himport.
  destruct (clean_food_listings df Hwf) as [Hclean Hwf'].
  rewrite (stored_rows_cleaned "food_listings" w w' dir df); try done.
  - by rewrite Hclean.
  - compute_done.
Qed.

(** X11. No negative quantity is ever loaded: for a well-formed
    food-listings batch, after a load that returned True, the quantity of
    every stored row is either absent or a number that is not negative. *)
Theorem loaded_quantities_not_negative (w w' : world)
    (dir : gmap string csv_file) (df : DataFrame) :
  data_dir w = Some dir →
  dir !! "food_listings_data.csv" = Some (Readable df) →
  well_formed "food_listings" df →
  import_csv_data w = (Return true, w') →
  Forall (λ row, get_cell 2 row = CNull
                 ∨ ∃ n, get_cell 2 row = CNum n ∧ number_negative n = false)
    (stored_rows "food_listings" w').
Proof.
  intros Hdir Hfile Hwf Himport.
  rewrite (stored_food_listings w w' dir df Hdir Hfile Hwf Himport).
  apply omap_loaded_listing_Forall. intros r ts Hr.
  destruct Hwf as [Hcols Hfit].
  eapply Forall_forall in Hfit as [Hlen _]; [|exact Hr].
  unfold cleaned_listing. rewrite get_cell_insert.
  2:{ rewrite length_insert, Hlen, Hcols. compute_done. }
  unfold cleaned_quantity. destruct (to_numeric (get_cell 2 r)) as [n|]; [|by left].
  destruct (number_negative n) eqn:Hneg; [by left|]. right.
  eexists. split; [done|]. by apply to_float64_sign.
Qed.

(** X12. A quantity that reads as an integer from 0 to 2^53 is kept as that
    integer: such a row of a well-formed batch, when its expiry date was
    read, is in the table with the integer as its quantity, its expiry
    date in ISO form and every other cell as in the input. (Above 2^53 the
    float64 column of pandas rounds.) *)
Theorem listing_with_valid_quantity_kept (w w' : world)
    (dir : gmap string csv_file) (df : DataFrame) (j : nat) (r : list cell)
    (ts : Timestamp) (z : Z) :
  data_dir w = Some dir →
  dir !! "food_listings_data.csv" = Some (Readable df) →
  well_formed "food_listings" df →
  import_csv_data w = (Return true, w') →
  rows df !! j = Some r →
  to_datetime (column_values 3 (rows df)) !! j = Some (Some ts) →
  to_numeric (get_cell 2 r) = Some (NInt z) → (0 ≤ z ≤ 2 ^ 53)%Z →
  <[2%nat := int z]> (<[3%nat := CStr (strftime_Ymd ts)]> r)
    ∈ stored_rows "food_listings" w'.
Proof.
  intros Hdir Hfile Hwf Himport Hr Hts Hnum Hz.
  rewrite (stored_food_listings w w' dir df Hdir Hfile Hwf Himport).
  apply list_elem_of_omap. exists (r, Some ts). split.
  - eapply list_elem_of_lookup_2. apply lookup_zip_with_Some. eauto.
  - cbn. unfold cleaned_listing, cleaned_quantity. rewrite Hnum. cbn.
    rewrite (proj2 (Z.ltb_ge z 0)) by lia.
    by rewrite to_float64_exact by lia.
Qed.

Lemma first_seen_after_NoDup (key : list cell → string)
    (earlier rs : list (list cell)) :
  NoDup (key <$> first_seen_after key earlier rs)
  ∧ ∀ k, k ∈ key <$> first_seen_after key earlier rs → k ∉ key <$> earlier.
Proof.
  revert earlier. induction rs as [|r rs IH]; intros earlier.
  - cbn. split; [constructor|]. by intros k ?%elem_of_nil.
  - cbn [first_seen_after]. destruct (IH (earlier ++ [r])) as [Hnd Hnew].
    set (later := first_seen_after key (earlier ++ [r]) rs) in *.
    assert (Hlater : ∀ k, (k ∈ key <$> later) →
                          (k ∉ key <$> earlier) ∧ k ≠ key r).
    { intros k Hk. specialize (Hnew k Hk).
      rewrite fmap_app, elem_of_app in Hnew. split.
      - intros ?. apply Hnew. by left.
      - intros ->. apply Hnew. right. cbn. by left. }
    case_decide as Hin; cbn.
    + split; [done|]. intros k Hk. by apply Hlater.
    + split.
      * constructor; [|done]. intros Hk. by apply Hlater in Hk as [_ ?].
      * intros k [->|Hk]%elem_of_cons; [done|]. by apply Hlater.
Qed.

(** X13. Contacts are unique after a load: for a well-formed providers or
    receivers batch, after a load that returned True, no two stored rows
    have the same contact. *)
Theorem loaded_contacts_distinct (t : string) (w w' : world)
    (dir : gmap string csv_file) (df : DataFrame) (i : nat) :
  t ∈ ["providers"; "receivers"] →
  data_dir w = Some dir →
  dir !! (t +:+ "_data.csv") = Some (Readable df) →
  well_formed t df →
  index_of "contact" (columns df) = Some i →
  import_csv_data w = (Return true, w') →
  NoDup (get_cell i <$> stored_rows t w').
Proof.
  intros Ht Hdir Hfile Hwf Hi Himport.
  destruct (clean_contact_table t df i Ht Hwf Hi) as [Hclean Hwf'].
  rewrite (stored_rows_cleaned t w w' dir df); try done.
  2:{ unfold import_order. set_unfold. naive_solver. }
  rewrite Hclean. cbn [rows]. rewrite <- list_fmap_compose.
  assert (Hilt : Forall (λ r, (i < length r)%nat) (rows df)).
  { destruct Hwf as [Hcols Hfit]. eapply Forall_impl; [exact Hfit|].
    intros r [Hlen _]. rewrite Hlen.
    clear -Hi. revert i Hi. induction (columns df) as [|c cols IH]; intros i Hi.
    - discriminate.
    - cbn in Hi. case_decide; [injection Hi as <-; cbn; lia|].
      destruct (index_of "contact" cols) as [i'|]; [|discriminate].
      injection Hi as <-. specialize (IH i' eq_refl). cbn. lia. }
  rewrite (Forall_fmap_ext_1 _ (CStr ∘ contact_key i)).
  2:{ apply first_seen_after_Forall. eapply Forall_impl; [exact Hilt|].
      intros r Hr. cbn. by apply get_cell_insert. }
  rewrite list_fmap_compose.
  assert (Hinj : Inj (=) (=) CStr) by (by intros ?? [=]).
  apply (NoDup_fmap_2 CStr). apply first_seen_after_NoDup.
Qed.

End MoreLoadedRows.

Lemma loaded_quantities_not_negative_witness :
  Forall (λ row, get_cell 2 row = CNull
                 ∨ ∃ n, get_cell 2 row = CNum n ∧ number_negative n = false)
    (stored_rows "food_listings" (import_csv_data text_quantity_world).2).
Proof.
  apply (loaded_quantities_not_negative text_quantity_world _
           text_quantity_dir text_quantity_listings).
  - reflexivity.
  - vm_compute. reflexivity.
  - split; [reflexivity|]. repeat constructor; eexists; reflexivity.
  - vm_compute. reflexivity.
Defined.

Lemma listing_with_valid_quantity_kept_witness :
  [int 1; CStr "Bread"; int 12; CStr "2025-03-01"; int 1; CStr "Cafe";
   CStr "Kitchen A"; CStr "Bread"; CStr "Breakfast"]
    ∈ stored_rows "food_listings" (import_csv_data text_quantity_world).2.
Proof.
  apply (listing_with_valid_quantity_kept text_quantity_world _
           text_quantity_dir text_quantity_listings 0
           [int 1; CStr "Bread"; CStr "12"; CStr "2025-03-01"; int 1;
            CStr "Cafe"; CStr "Kitchen A"; CStr "Bread"; CStr "Breakfast"]
           (mkTimestamp 2025 3 1) 12).
  - reflexivity.
  - vm_compute. reflexivity.
  - split; [reflexivity|]. repeat constructor; eexists; reflexivity.
  - vm_compute. reflexivity.
  - reflexivity.
  - reflexivity.
  - reflexivity.
  - lia.
Defined.

Lemma loaded_contacts_distinct_witness :
  NoDup (get_cell 5
           <$> stored_rows "providers" (import_csv_data shared_contact_world).2).
Proof.
  apply (loaded_contacts_distinct "providers" shared_contact_world _
           {[ "providers_data.csv" := Readable shared_contact_providers ]}
           shared_contact_providers 5).
  - compute_done.
  - reflexivity.
  - vm_compute. reflexivity.
  - split; [reflexivity|]. repeat constructor; eexists; reflexivity.
  - reflexivity.
  - vm_compute. reflexivity.
Defined.

(* --------------------------------------------------------------------- *)
(** ** When a load step succeeds                                           *)
(* --------------------------------------------------------------------- *)

Section LoadStep.
Context `{Externals}.

Lemma rowids_snoc (rs : list (list cell)) (r : list cell) (z : Z) :
  get_cell 0 r = int z → rowids 0 (rs ++ [r]) = rowids 0 rs ++ [z].
Proof. intros Hz. unfold rowids. rewrite omap_app. cbn. by rewrite Hz. Qed.

Lemma rowids_cons (rs : list (list cell)) (r : list cell) (z : Z) :
  get_cell 0 r = int z → rowids 0 (r :: rs) = z :: rowids 0 rs.
Proof. intros Hz. unfold rowids. cbn. by rewrite Hz. Qed.

Lemma row_fits_id (n : nat) (r : list cell) :
  row_fits n r → ∃ z, get_cell 0 r = int z.
Proof. intros [_ [z Hz]]. exists z. unfold get_cell. by rewrite Hz. Qed.

(** The INSERT of a row that fits the schema: it is stored as it is when
    the constraints accept it and its id is new, and raises otherwise. *)
Lemma insert_row_fits_eq (tb : table) (r : list cell) (z : Z) :
  direct_schema (schema tb) →
  row_fits (length (schema tb)) r → get_cell 0 r = int z →
  forallb bindable r = true →
  insert_row tb (col_name <$> schema tb) r
  = if row_accepted (schema tb) r
       && bool_decide (z ∉ rowids 0 (contents tb))
    then Some (mkTable (schema tb) (autoincrement tb)
                 (if autoincrement tb then Z.max (sequence tb) z
                  else sequence tb)
                 (contents tb ++ [r]))
    else None.
Proof.
  intros (Hpk & Hcols & Hrow) Hfit Hz Hbind. pose proof Hfit as [Hlen _].
  unfold insert_row. rewrite (Hrow r Hlen), Hpk.
  fold (row_accepted (schema tb) r).
  unfold insert_binds. rewrite Hbind, Hcols, length_fmap, Hlen.
  rewrite bool_decide_eq_true_2 by done. cbn [andb negb].
  destruct (row_accepted (schema tb) r); cbn [andb negb]; [|done].
  rewrite Hz. cbn [rowid_of_cell int].
  assert (Hsame : <[0%nat := CNum (NInt z)]> r = r).
  { apply list_insert_id. unfold get_cell in Hz.
    destruct (r !! 0%nat) as [c|]; cbn in Hz; [by subst|discriminate]. }
  rewrite Hsame. case_decide.
  - by rewrite bool_decide_eq_false_2 by (by intros ?).
  - by rewrite bool_decide_eq_true_2.
Qed.

(** An INSERT of a row that the constraints reject raises. *)
Lemma insert_row_rejected (tb : table) (r : list cell) :
  direct_schema (schema tb) →
  length r = length (schema tb) →
  row_accepted (schema tb) r = false →
  insert_row tb (col_name <$> schema tb) r = None.
Proof.
  intros (_ & _ & Hrow) Hlen Hrej. unfold insert_row.
  rewrite (Hrow r Hlen).
  fold (row_accepted (schema tb) r). rewrite Hrej. by case_match.
Qed.

Lemma insert_rows_rejected (tb : table) (rs : list (list cell)) (r : list cell) :
  direct_schema (schema tb) →
  Forall (row_fits (length (schema tb))) rs →
  r ∈ rs → row_accepted (schema tb) r = false →
  insert_rows tb (col_name <$> schema tb) rs = None.
Proof.
  intros Hsch Hfit. revert tb Hsch Hfit.
  induction rs as [|r0 rs IH]; intros tb Hsch Hfit Hin Hrej.
  - by apply elem_of_nil in Hin.
  - apply Forall_cons in Hfit as [Hr0 Hrs]. cbn.
    apply elem_of_cons in Hin as [->|Hin].
    + rewrite insert_row_rejected; [done|done| |done]. by destruct Hr0.
    + destruct (insert_row tb _ r0) as [tb1|] eqn:H1; [|done]. cbn.
      destruct (insert_row_fits tb tb1 r0 Hsch Hr0 H1) as [Hsch1 _].
      rewrite <- Hsch1. apply IH; rewrite ?Hsch1; done.
Qed.

(** The insert loop on rows that fit the schema succeeds exactly when the
    constraints accept every row and the ids are new and pairwise
    distinct. *)
Lemma insert_rows_fit_iff (tb : table) (rs : list (list cell)) :
  direct_schema (schema tb) →
  Forall (row_fits (length (schema tb))) rs →
  Forall (λ r, forallb bindable r = true) rs →
  is_Some (insert_rows tb (col_name <$> schema tb) rs)
  ↔ Forall (λ r, row_accepted (schema tb) r = true) rs
    ∧ NoDup (rowids 0 rs)
    ∧ ∀ z, z ∈ rowids 0 rs → z ∉ rowids 0 (contents tb).
Proof.
  intros Hsch Hfit Hbind. revert tb Hsch Hfit.
  induction Hbind as [|r rs Hr _ IH]; intros tb Hsch Hfit.
  - cbn. split; [|eauto]. intros _. split_and!; [constructor|constructor|].
    by intros z ?%elem_of_nil.
  - apply Forall_cons in Hfit as [Hfr Hfrs].
    destruct (row_fits_id _ _ Hfr) as [z Hz].
    rewrite (rowids_cons rs r z Hz), Forall_cons, NoDup_cons. cbn [insert_rows].
    rewrite (insert_row_fits_eq tb r z Hsch Hfr Hz Hr).
    destruct (row_accepted (schema tb) r); cbn [andb].
    2:{ cbn. split; [by intros [? [=]]|]. by intros [[[=] _] _]. }
    case_bool_decide as Hnew; cbn.
    2:{ split; [by intros [? [=]]|]. intros (_ & _ & Hdisj).
        exfalso. apply (Hdisj z); [by left|done]. }
    match goal with
    | |- is_Some (insert_rows ?tb1 _ _) ↔ _ =>
        pose proof (IH tb1 Hsch Hfrs) as IH1
    end.
    cbn [schema contents] in IH1. rewrite IH1. clear IH1.
    rewrite (rowids_snoc _ r z Hz).
    split.
    + intros (Hacc & Hndr & Hdisj). split_and!; [done|done| |done|].
      * intros Hzin. apply (Hdisj z Hzin), elem_of_app. right. by left.
      * intros z' [->|Hz']%elem_of_cons; [done|].
        intros Hold. apply (Hdisj z' Hz'), elem_of_app. by left.
    + intros ([_ Hacc] & [Hznew Hndr] & Hdisj). split_and!; [done|done|].
      intros z' Hz' [Hold|Hlast]%elem_of_app.
      * apply (Hdisj z'); [by right|done].
      * apply list_elem_of_singleton in Hlast as ->. done.
Qed.

(** X14. For a file whose cleaned frame is well-formed and holds only
    values that can be bound, the step of the loader for its table succeeds
    exactly when every row that reaches the insert loop satisfies the NOT
    NULL and CHECK constraints of the table and no two of these rows have
    the same id. *)
Theorem load_step_succeeds_iff (dir : gmap string csv_file) (t : string)
    (df : DataFrame) :
  t ∈ import_order →
  dir !! (t +:+ "_data.csv") = Some (Readable df) →
  well_formed t (clean t df) →
  Forall (λ r, forallb bindable r = true) (rows (clean t df)) →
  is_Some (loaded_table dir t)
  ↔ Forall (λ r, row_accepted (schema (empty_table t)) r = true)
      (rows (clean t df))
    ∧ NoDup (rowids 0 (rows (clean t df))).
Proof.
  intros Ht Hfile [Hcols Hfit] Hbind.
  destruct (import_order_schema t Ht) as [Hsch Hnames].
  unfold loaded_table, load_into. rewrite Hfile. cbn zeta.
  destruct (frame_empty (clean t df)) eqn:Hempty.
  - unfold frame_empty in Hempty.
    apply orb_true_iff in Hempty as [Hrows|Hnocols].
    + apply bool_decide_eq_true_1 in Hrows. rewrite Hrows.
      split; [|eauto]. intros _. split; constructor.
    + apply bool_decide_eq_true_1 in Hnocols. rewrite Hcols in Hnocols.
      destruct Hsch as [Hpk _].
      destruct (schema (empty_table t)); discriminate.
  - rewrite Hcols in Hfit |- *. rewrite Hnames. cbn [mbind option_bind].
    rewrite length_fmap in Hfit.
    rewrite (insert_rows_fit_iff _ _ Hsch Hfit Hbind).
    rewrite empty_table_contents. cbn.
    split; [by intros (? & ? & _)|]. intros [? ?]. split_and!; [done|done|].
    by intros z _ ?%elem_of_nil.
Qed.

Lemma csv_files_nonempty (dir : gmap string csv_file) (t : string)
    (f : csv_file) :
  t ∈ import_order → dir !! (t +:+ "_data.csv") = Some f → csv_files dir ≠ [].
Proof.
  intros Ht Hf Hnil.
  assert (Hin : t +:+ "_data.csv" ∈ csv_files dir).
  { unfold csv_files. apply list_elem_of_filter. split.
    - unfold import_order in Ht.
      repeat (apply elem_of_cons in Ht as [->|Ht]; [reflexivity|]).
      by apply elem_of_nil in Ht.
    - apply elem_of_elements, elem_of_dom. eauto. }
  rewrite Hnil in Hin. by apply elem_of_nil in Hin.
Qed.

(** A row of the cleaned frame that the table's constraints reject makes
    the whole load return False; on a file that a connection keeps locked
    the load has raised before it reads a file. *)
Lemma rejected_row_aborts_load (t : string) (w : world)
    (dir : gmap string csv_file) (df : DataFrame) (r : list cell) :
  t ∈ import_order → data_dir w = Some dir →
  dir !! (t +:+ "_data.csv") = Some (Readable df) →
  well_formed t (clean t df) →
  r ∈ rows (clean t df) →
  row_accepted (schema (empty_table t)) r = false →
  (import_csv_data w).1 = if write_locked w then Raise else Return false.
Proof.
  intros Ht Hdir Hfile [Hcols Hfit] Hr Hrej.
  destruct (import_order_schema t Ht) as [Hsch Hnames].
  pose proof (csv_files_nonempty dir t _ Ht Hfile) as Hcsv.
  destruct (write_locked w) eqn:Hlock.
  { by rewrite (import_csv_data_locked w dir Hdir Hcsv Hlock). }
  rewrite (import_csv_data_eq w dir Hdir Hcsv Hlock).
  rewrite bool_decide_eq_false_2; [done|].
  intros Hok. eapply Forall_forall in Hok as [tb Htb]; [|exact Ht].
  unfold loaded_table, load_into in Htb. rewrite Hfile in Htb. cbn zeta in Htb.
  destruct (frame_empty (clean t df)) eqn:Hempty.
  - unfold frame_empty in Hempty.
    apply orb_true_iff in Hempty as [Hrows|Hnocols].
    + apply bool_decide_eq_true_1 in Hrows. rewrite Hrows in Hr.
      by apply elem_of_nil in Hr.
    + apply bool_decide_eq_true_1 in Hnocols. rewrite Hcols in Hnocols.
      destruct Hsch as [Hpk _].
      destruct (schema (empty_table t)); discriminate.
  - rewrite Hcols in Htb, Hfit. rewrite Hnames in Htb. cbn in Htb.
    rewrite length_fmap in Hfit.
    rewrite (insert_rows_rejected _ _ r Hsch Hfit Hr Hrej) in Htb.
    discriminate.
Qed.

(** X15. A provider without a name aborts the load: when a row of a
    well-formed providers batch that survives de-duplication has a missing
    name, [import_csv_data] returns False (the column is NOT NULL); on a
    file that a connection keeps locked it has raised before. *)
Theorem provider_without_name_aborts_load (w : world)
    (dir : gmap string csv_file) (df : DataFrame) (r : list cell) :
  data_dir w = Some dir →
  dir !! "providers_data.csv" = Some (Readable df) →
  well_formed "providers" df →
  r ∈ first_seen (contact_key 5) (rows df) →
  get_cell 1 r = CNull →
  (import_csv_data w).1 = if write_locked w then Raise else Return false.
Proof.
  intros Hdir Hfile Hwf Hr Hname.
  assert (Hi : index_of "contact" (columns df) = Some 5%nat).
  { destruct Hwf as [-> _]. reflexivity. }
  destruct (clean_contact_table "providers" df 5) as [Hclean Hwf'];
    [compute_done|done|done|].
  apply (rejected_row_aborts_load "providers" w dir df
           (with_trimmed_contact 5 r)); try done.
  - compute_done.
  - rewrite Hclean. cbn [rows]. by apply list_elem_of_fmap_2.
  - destruct Hwf' as [_ Hfit]. rewrite Hclean in Hfit. cbn [rows columns] in Hfit.
    eapply Forall_forall in Hfit as [Hlen _];
      [|by apply list_elem_of_fmap_2].
    assert (Hname' : get_cell 1 (with_trimmed_contact 5 r) = CNull).
    { unfold with_trimmed_contact. by rewrite get_cell_insert_ne. }
    destruct Hwf as [Hcols _]. rewrite Hcols in Hlen.
    destruct (with_trimmed_contact 5 r) as [|c0 [|c1 [|c2 [|c3 [|c4 [|c5 [|]]]]]]];
      try discriminate.
    cbn in Hname'. subst c1. reflexivity.
Qed.

(** X16. A claim whose status is a text other than Pending, Completed or
    Cancelled aborts the load: [import_csv_data] returns False (the CHECK
    constraint of the column); on a file that a connection keeps locked it
    has raised before. *)
Theorem claim_with_unknown_status_aborts_load (w : world)
    (dir : gmap string csv_file) (df : DataFrame) (r : list cell) (s : string) :
  data_dir w = Some dir →
  dir !! "claims_data.csv" = Some (Readable df) →
  well_formed "claims" df →
  r ∈ rows df → get_cell 3 r = CStr s →
  s ∉ ["Pending"; "Completed"; "Cancelled"] →
  (import_csv_data w).1 = if write_locked w then Raise else Return false.
Proof.
  intros Hdir Hfile Hwf Hr Hstatus Hbad.
  assert (Hclean : clean "claims" df = df).
  { destruct Hwf as [Hcols _].
    unfold clean, clean_expiry_date. rewrite Hcols.
    change (index_of "expiry_date" _) with (@None nat).
    unfold clean_quantity. rewrite Hcols.
    change (index_of "quantity" _) with (@None nat).
    unfold clean_contact. rewrite Hcols.
    change (index_of "contact" _) with (@None nat).
    unfold deduplicate. by rewrite decide_False by compute_done. }
  apply (rejected_row_aborts_load "claims" w dir df r); try done.
  - compute_done.
  - by rewrite Hclean.
  - by rewrite Hclean.
  - destruct Hwf as [Hcols Hfit].
    eapply Forall_forall in Hfit as [Hlen _]; [|exact Hr].
    rewrite Hcols in Hlen.
    destruct r as [|c0 [|c1 [|c2 [|c3 [|c4 [|]]]]]]; try discriminate.
    cbn in Hstatus. subst c3.
    change (schema (empty_table "claims")) with claims_schema.
    unfold row_accepted, claims_schema, column_accepts, plain, primary.
    cbn [zip zip_with forallb fst snd col_not_null col_check negb orb andb].
    by rewrite bool_decide_eq_false_2.
Qed.





End LoadStep.


Lemma load_step_succeeds_iff_witness :
  is_Some (loaded_table
             {[ "providers_data.csv" := Readable same_id_providers ]} "providers")
  ↔ Forall (λ r, row_accepted (schema (empty_table "providers")) r = true)
      (rows (clean "providers" same_id_providers))
    ∧ NoDup (rowids 0 (rows (clean "providers" same_id_providers))).
Proof.
  apply (load_step_succeeds_iff
           {[ "providers_data.csv" := Readable same_id_providers ]}
           "providers" same_id_providers).
  - compute_done.
  - vm_compute. reflexivity.
  - split; [reflexivity|]. vm_compute.
    repeat constructor; eexists; reflexivity.
  - compute_done.
Defined.

Lemma provider_without_name_aborts_load_witness :
  (import_csv_data nameless_provider_world).1 = Return false.
Proof.
  apply (provider_without_name_aborts_load nameless_provider_world
           {[ "providers_data.csv" := Readable nameless_provider ]}
           nameless_provider
           [int 2; CNull; CStr "Hotel"; CStr "2 Main St"; CStr "Pune"; CStr "Y"]).
  - reflexivity.
  - vm_compute. reflexivity.
  - split; [reflexivity|]. repeat constructor; eexists; reflexivity.
  - vm_compute. apply elem_of_cons. right. apply elem_of_cons. by left.
  - reflexivity.
Defined.

Lemma claim_with_unknown_status_aborts_load_witness :
  (import_csv_data bad_status_world).1 = Return false.
Proof.
  apply (claim_with_unknown_status_aborts_load bad_status_world
           {[ "claims_data.csv" := Readable bad_status_claims ]}
           bad_status_claims
           [int 2; int 9; int 3; CStr "Done"; CStr "2025-03-02 10:00:00"]
           "Done").
  - reflexivity.
  - vm_compute. reflexivity.
  - split; [reflexivity|]. repeat constructor; eexists; reflexivity.
  - apply elem_of_cons. right. apply elem_of_cons. by left.
  - reflexivity.
  - compute_done.
Defined.

(* --------------------------------------------------------------------- *)
(** ** The actions of the pages                                            *)
(* --------------------------------------------------------------------- *)

Section ActionFacts.
Context `{Externals}.

(** [log_audit] when the audit table is the one the program creates: it
    returns and the table has one more entry. *)
Lemma log_audit_eq (now : clock) (operation details : string) (w : world)
    (db : database) (tb : table) :
  write_locked w = false →
  db_file w = Some db → db !! "audit_log" = Some tb →
  schema tb = audit_log_schema →
  log_audit now operation details w
  = (Return 1,
     mkWorld (data_dir w)
       (Some (<["audit_log" := with_audit_entry tb operation details
                                 (local_now now)]> db))
       (open_connections w) false).
Proof.
  intros Hfree Hdb Htb Hschema. unfold log_audit.
  rewrite execute_query_eq by done.
  assert (Hins : insert_row tb ["operation"; "user"; "details"; "ts_utc"]
            [CStr operation; CStr "streamlit"; CStr details; CStr (local_now now)]
          = Some (with_audit_entry tb operation details (local_now now))).
  { unfold insert_row, with_audit_entry. rewrite Hschema. reflexivity. }
  rewrite Hdb. cbn -[insert_row]. rewrite Htb.
  cbn -[insert_row]. rewrite Hins. reflexivity.
Qed.

(** An action in terms of its statement, when no connection holds the
    write lock: when the statement raises, nothing is written and nothing
    is logged; otherwise its effect and one audit entry are on file. *)
Lemma perform_eq (now : clock) (a : action) (w : world) (db : database)
    (tba : table) :
  write_locked w = false →
  db_file w = Some db → db !! "audit_log" = Some tba →
  schema tba = audit_log_schema →
  perform now a w
  = match apply_statement (action_statement now a) db with
    | Some db1 =>
        (Return (),
         mkWorld (data_dir w)
           (Some (<["audit_log" := with_audit_entry tba (action_operation a)
                                     (action_details a) (local_now now)]> db1))
           (open_connections w) false)
    | None => (Raise, mkWorld (data_dir w) (Some db) (open_connections w) false)
    end.
Proof.
  intros Hfree Hdb Htba Hschema. unfold perform.
  rewrite execute_query_eq by done.
  rewrite Hdb. change (default ∅ (Some db)) with db.
  destruct (action_statement_table now a) as [Hne Hddl].
  destruct (apply_statement (action_statement now a) db) as [db1|] eqn:Happly;
    [|done].
  assert (Htba1 : db1 !! "audit_log" = Some tba).
  { rewrite (apply_statement_other_table _ _ _ "audit_log" Happly); done. }
  by rewrite (log_audit_eq now _ _ (mkWorld _ (Some db1) _ false) db1 tba
                eq_refl eq_refl Htba1 Hschema).
Qed.

(** While a connection holds the write lock, every action raises and
    changes nothing. *)
Lemma perform_locked (now : clock) (a : action) (w : world) :
  write_locked w = true →
  perform now a w
  = (Raise,
     mkWorld (data_dir w) (Some (default ∅ (db_file w))) (open_connections w)
       true).
Proof.
  intros Hlocked. unfold perform.
  destruct (action_statement_table now a) as [_ Hddl].
  by rewrite execute_query_locked.
Qed.

(** X17. An action that raises has changed nothing: when the audit table is
    the one the program creates, an action that lets an exception escape
    leaves the database file, with its audit log, exactly as it was, and
    no connection open. *)
Theorem failed_action_changes_nothing (now : clock) (a : action) (w : world)
    (db : database) (tba : table) :
  db_file w = Some db → db !! "audit_log" = Some tba →
  schema tba = audit_log_schema →
  (perform now a w).1 = Raise →
  (perform now a w).2 = w.
Proof.
  intros Hdb Htba Hschema. destruct (write_locked w) eqn:Hlock.
  { rewrite (perform_locked now a w Hlock). intros _.
    destruct w as [dd dbf n locked]. cbn in *. by subst. }
  rewrite (perform_eq now a w db tba Hlock Hdb Htba Hschema).
  destruct (apply_statement _ _); [discriminate|]. intros _.
  destruct w as [dd dbf n locked]. cbn in *. by subst.
Qed.

(** X18. Whatever happens, an action leaves as many connections open as it
    found: both of its calls to [execute_query] close theirs, on the path
    that returns and on the paths that raise. *)
Theorem perform_closes_connections (now : clock) (a : action) (w : world) :
  open_connections (perform now a w).2 = open_connections w.
Proof.
  unfold perform.
  pose proof (execute_query_closes (action_statement now a) w) as H1.
  destruct (execute_query (action_statement now a) w) as [[rc|] w1]; [|done].
  pose proof (log_audit_closes now (action_operation a) (action_details a) w1)
    as H2.
  destruct (log_audit now _ _ w1) as [[rc'|] w2]; cbn in *; congruence.
Qed.

(** An INSERT under a key that is in use raises. *)
Lemma insert_row_duplicate_key (tb : table) (cols : list string)
    (vals : list cell) (z : Z) :
  primary_key_index (schema tb) = Some 0%nat →
  get_cell 0 (inserted_row (schema tb) cols vals) = int z →
  z ∈ rowids 0 (contents tb) →
  insert_row tb cols vals = None.
Proof.
  intros Hpk Hkey Hin. unfold insert_row.
  destruct (negb _); [done|]. destruct (negb _); [done|].
  rewrite Hpk, Hkey. cbn. by rewrite decide_True.
Qed.

(** X19. Creating a row under an id that is already stored in the table is
    refused: the action raises (the primary key), the database file is
    left as it was, and no audit entry is written. This holds for the
    four create actions, for an id typed as an integer. *)
Theorem create_with_existing_id_refused (now : clock) (a : action) (w : world)
    (db : database) (t : string) (z : Z) (tb : table) :
  created_key a = Some (t, z) →
  db_file w = Some db → db !! t = Some tb →
  schema tb = schema (empty_table t) →
  z ∈ rowids 0 (contents tb) →
  perform now a w = (Raise, w).
Proof.
  intros Hkey Hdb Htb Hschema Hin. destruct (write_locked w) eqn:Hlock.
  { rewrite (perform_locked now a w Hlock).
    destruct w as [dd dbf n locked]. cbn in *. by subst. }
  unfold perform.
  rewrite execute_query_eq, Hdb by done. change (default ∅ (Some db)) with db.
  assert (Hnone : apply_statement (action_statement now a) db = None).
  { destruct a as [[k|q]| | |[k|q]| |[k|q]| | |[k|q]| | ]; try discriminate;
      injection Hkey as <- <-; cbn [action_statement apply_statement];
      rewrite Htb; cbn [mbind option_bind insert_rows];
      (rewrite (insert_row_duplicate_key tb _ _ k);
        [done|by rewrite Hschema|by rewrite Hschema|done]). }
  rewrite Hnone. destruct w as [dd dbf n locked]. cbn in *. by subst.
Qed.

End ActionFacts.

Section AddAndDelete.
Context `{Externals}.

Lemma sql_eq_int (k z : Z) : sql_eq (int k) (int z) = bool_decide (k = z).
Proof.
  unfold sql_eq, int, number_to_Q. case_bool_decide as Hkz.
  - apply Qeq_bool_iff. by apply inject_Z_injective.
  - destruct (Qeq_bool (inject_Z k) (inject_Z z)) eqn:Heq; [|done].
    exfalso. apply Hkz, inject_Z_injective. by apply Qeq_bool_iff.
Qed.

(** A DELETE on an existing table never raises: it removes the rows whose
    key cell equals the key and keeps the others in order. *)
Lemma delete_statement (db : database) (t key_col : string) (key : cell)
    (tb : table) (k : nat) :
  db !! t = Some tb →
  column_index (schema tb) key_col = Some k →
  bindable key = true →
  apply_statement (DeleteWhere t key_col key) db
  = Some (<[t := without_key tb k key]> db).
Proof.
  intros Htb Hk Hbind. cbn [apply_statement]. rewrite Htb. cbn.
  unfold delete_rows. by rewrite Hk, Hbind.
Qed.

Lemma filter_keeps_all {A} (P : A → Prop) `{∀ x, Decision (P x)} (l : list A) :
  Forall P l → filter P l = l.
Proof.
  induction 1 as [|x l Hx _ IH]; [done|].
  by rewrite filter_cons_True, IH.
Qed.

(** Deleting the key of the row just stored gives back the rows the table
    had, when its keys are integers and the key was new. *)
Lemma filter_new_key (rs : list (list cell)) (row : list cell) (z : Z) :
  Forall (λ r, ∃ k, get_cell 0 r = int k) rs →
  z ∉ rowids 0 rs → get_cell 0 row = int z →
  filter (λ r, sql_eq (get_cell 0 r) (int z) = false) (rs ++ [row]) = rs.
Proof.
  intros Hint Hnew Hrow. rewrite filter_app.
  rewrite (filter_cons_False _ row []).
  2:{ rewrite Hrow, sql_eq_int. by rewrite bool_decide_eq_true_2. }
  rewrite filter_nil, app_nil_r. apply filter_keeps_all.
  apply Forall_forall. intros r Hr.
  eapply Forall_forall in Hint as [k Hk]; [|exact Hr].
  rewrite Hk, sql_eq_int. apply bool_decide_eq_false_2. intros ->.
  apply Hnew. unfold rowids. apply list_elem_of_omap. exists r.
  split; [done|]. by rewrite Hk.
Qed.

(** The INSERT of the provider form under a new id stores the row. *)
Lemma add_provider_statement (now : clock) (db : database) (tb : table) (z : Z)
    (name type_ address city contact : string) :
  db !! "providers" = Some tb → schema tb = providers_schema →
  z ∉ rowids 0 (contents tb) → int64 z = true →
  apply_statement
    (action_statement now (AddProvider (NInt z) name type_ address city contact))
    db
  = Some (<["providers" :=
             with_row tb z (provider_row z name type_ address city contact)]> db).
Proof.
  intros Htb Hschema Hnew Hz. cbn [action_statement apply_statement].
  rewrite Htb. cbn [mbind option_bind insert_rows].
  change ["provider_id"; "name"; "type"; "address"; "city"; "contact"]
    with (col_name <$> providers_schema).
  rewrite <- Hschema.
  rewrite (insert_row_fits_eq tb _ z).
  - rewrite Hschema at 1.
    change (row_accepted providers_schema _) with true.
    by rewrite bool_decide_eq_true_2.
  - rewrite Hschema. apply (import_order_schema "providers"). compute_done.
  - rewrite Hschema. split; [done|]. by exists z.
  - done.
  - cbn. by rewrite Hz.
Qed.

(** X20. Adding a provider under a new id and then deleting that id is a
    round trip on the providers table: after the first action the table
    holds the new row besides the rows it held, after the second it holds
    exactly the rows it held at the start. Both actions return and each
    writes one audit entry. (No connection keeps the file locked, the id
    is a 64-bit integer, and the ids stored in the table are integers, as
    SQLite makes them.) *)
Theorem add_then_delete_provider (now1 now2 : clock) (w : world)
    (db : database) (tb tba : table) (z : Z)
    (name type_ address city contact : string) :
  db_file w = Some db → write_locked w = false →
  db !! "providers" = Some tb → schema tb = providers_schema →
  Forall (λ r, ∃ k, get_cell 0 r = int k) (contents tb) →
  z ∉ rowids 0 (contents tb) → int64 z = true →
  db !! "audit_log" = Some tba → schema tba = audit_log_schema →
  let added :=
    perform now1 (AddProvider (NInt z) name type_ address city contact) w in
  let deleted := perform now2 (DeleteProvider (NInt z)) added.2 in
  added.1 = Return ()
  ∧ stored_rows "providers" added.2
    ≡ₚ provider_row z name type_ address city contact
       :: stored_rows "providers" w
  ∧ deleted.1 = Return ()
  ∧ stored_rows "providers" deleted.2 = stored_rows "providers" w
  ∧ length (audit_rows deleted.2) = (length (audit_rows w) + 2)%nat.
Proof.
  intros Hdb Hfree Htb Hschema Hint Hnew Hz Htba Hschema_a added deleted.
  set (row := provider_row z name type_ address city contact).
  set (tb1 := with_row tb z row).
  set (tba1 := with_audit_entry tba "create_provider"
                 (action_details (AddProvider (NInt z) name type_ address city
                                    contact)) (local_now now1)).
  set (db1 := <["audit_log" := tba1]> (<["providers" := tb1]> db)).
  assert (Hadded : added = (Return (),
            mkWorld (data_dir w) (Some db1) (open_connections w) false)).
  { unfold added. rewrite (perform_eq _ _ w db tba Hfree Hdb Htba Hschema_a).
    by rewrite (add_provider_statement now1 db tb z _ _ _ _ _ Htb Hschema Hnew
                  Hz). }
  assert (Htb1 : db1 !! "providers" = Some tb1).
  { unfold db1. rewrite lookup_insert_ne by done. apply lookup_insert_eq. }
  assert (Htba1 : db1 !! "audit_log" = Some tba1).
  { unfold db1. apply lookup_insert_eq. }
  set (tb2 := without_key tb1 0 (int z)).
  set (tba2 := with_audit_entry tba1 "delete_provider"
                 (action_details (DeleteProvider (NInt z))) (local_now now2)).
  assert (Hdeleted : deleted = (Return (),
            mkWorld (data_dir w)
              (Some (<["audit_log" := tba2]> (<["providers" := tb2]> db1)))
              (open_connections w) false)).
  { unfold deleted. rewrite Hadded. cbn [snd].
    rewrite (perform_eq _ _ (mkWorld _ (Some db1) _ false) db1 tba1 eq_refl
               eq_refl Htba1 Hschema_a).
    cbn [action_statement].
    rewrite (delete_statement db1 "providers" "provider_id" _ tb1 0 Htb1);
      [done| |by cbn; rewrite Hz].
    cbn [tb1 with_row schema]. by rewrite Hschema. }
  rewrite Hadded, Hdeleted. unfold stored_rows, audit_rows. cbn [fst snd db_file].
  rewrite Hdb, Htb1, Htb, Htba. cbn [from_option].
  rewrite lookup_insert_ne by done. rewrite !lookup_insert_eq. cbn [from_option].
  split_and!; try done.
  - cbn [tb1 with_row contents]. symmetry. apply Permutation_cons_append.
  - cbn [tb2 without_key contents tb1 with_row]. by apply filter_new_key.
  - cbn [tba2 tba1 with_audit_entry contents]. rewrite !length_app. cbn. lia.
Qed.

(** X21. Deleting a listing whose id no stored row has is not an error:
    the action returns, the food-listings table holds the rows it held,
    and an audit entry [delete_listing] is written all the same. (No
    connection keeps the file locked, and the id can be bound.) *)
Theorem delete_absent_listing_is_logged (now : clock) (w : world)
    (db : database) (tb tba : table) (del_id : number) :
  db_file w = Some db → write_locked w = false →
  bindable (CNum del_id) = true →
  db !! "food_listings" = Some tb → schema tb = food_listings_schema →
  Forall (λ r, sql_eq (get_cell 0 r) (CNum del_id) = false) (contents tb) →
  db !! "audit_log" = Some tba → schema tba = audit_log_schema →
  (perform now (DeleteListing del_id) w).1 = Return ()
  ∧ stored_rows "food_listings" (perform now (DeleteListing del_id) w).2
    = stored_rows "food_listings" w
  ∧ audit_rows (perform now (DeleteListing del_id) w).2
    = audit_rows w
      ++ [audit_entry (next_rowid tba 0) "delete_listing"
            ("food_id=" +:+ number_str del_id) (local_now now)].
Proof.
  intros Hdb Hfree Hbind Htb Hschema Hnone Htba Hschema_a.
  rewrite (perform_eq _ _ w db tba Hfree Hdb Htba Hschema_a).
  cbn [action_statement].
  rewrite (delete_statement db "food_listings" "food_id" _ tb 0 Htb);
    [|by rewrite Hschema|done].
  unfold stored_rows, audit_rows. cbn [fst snd db_file]. rewrite Hdb, Htb, Htba.
  rewrite lookup_insert_ne by done. rewrite !lookup_insert_eq.
  cbn [from_option without_key contents].
  split_and!; [done| |done]. by apply filter_keeps_all.
Qed.

End AddAndDelete.

Lemma failed_action_changes_nothing_witness :
  (perform clock_ist (AddProvider (NInt 1) "Again" "Cafe" "" "Pune" "W")
     loaded_world).2
  = loaded_world.
Proof.
  apply (failed_action_changes_nothing clock_ist _ loaded_world
           (tables_of loaded_world) (table_of "audit_log" loaded_world)).
  - vm_compute. reflexivity.
  - vm_compute. reflexivity.
  - vm_compute. reflexivity.
  - vm_compute. reflexivity.
Defined.

Lemma create_with_existing_id_refused_witness :
  perform clock_ist (AddProvider (NInt 1) "Again" "Cafe" "" "Pune" "W")
    loaded_world
  = (Raise, loaded_world).
Proof.
  apply (create_with_existing_id_refused clock_ist _ loaded_world
           (tables_of loaded_world) "providers" 1
           (table_of "providers" loaded_world)).
  - reflexivity.
  - vm_compute. reflexivity.
  - vm_compute. reflexivity.
  - vm_compute. reflexivity.
  - vm_compute. by left.
Defined.

Lemma add_then_delete_provider_witness :
  let added :=
    perform clock_ist (AddProvider (NInt 2) "B" "Hotel" "2 Main St" "Pune" "W")
      loaded_world in
  let deleted := perform clock_ist (DeleteProvider (NInt 2)) added.2 in
  added.1 = Return ()
  ∧ stored_rows "providers" added.2
    ≡ₚ provider_row 2 "B" "Hotel" "2 Main St" "Pune" "W"
       :: stored_rows "providers" loaded_world
  ∧ deleted.1 = Return ()
  ∧ stored_rows "providers" deleted.2 = stored_rows "providers" loaded_world
  ∧ length (audit_rows deleted.2) = (length (audit_rows loaded_world) + 2)%nat.
Proof.
  apply (add_then_delete_provider clock_ist clock_ist loaded_world
           (tables_of loaded_world) (table_of "providers" loaded_world)
           (table_of "audit_log" loaded_world) 2).
  - vm_compute. reflexivity.
  - vm_compute. reflexivity.
  - vm_compute. reflexivity.
  - vm_compute. reflexivity.
  - vm_compute. repeat constructor; eexists; reflexivity.
  - compute_done.
  - reflexivity.
  - vm_compute. reflexivity.
  - vm_compute. reflexivity.
Defined.

Lemma delete_absent_listing_is_logged_witness :
  (perform clock_ist (DeleteListing (NInt 42)) sample_world).1 = Return ()
  ∧ stored_rows "food_listings"
      (perform clock_ist (DeleteListing (NInt 42)) sample_world).2
    = stored_rows "food_listings" sample_world
  ∧ audit_rows (perform clock_ist (DeleteListing (NInt 42)) sample_world).2
    = audit_rows sample_world
      ++ [audit_entry (next_rowid (table_of "audit_log" sample_world) 0)
            "delete_listing" ("food_id=" +:+ number_str (NInt 42))
            (local_now clock_ist)].
Proof.
  apply (delete_absent_listing_is_logged clock_ist sample_world
           (tables_of sample_world) (table_of "food_listings" sample_world)
           (table_of "audit_log" sample_world) (NInt 42)).
  - vm_compute. reflexivity.
  - vm_compute. reflexivity.
  - reflexivity.
  - vm_compute. reflexivity.
  - vm_compute. reflexivity.
  - vm_compute. repeat constructor.
  - vm_compute. reflexivity.
  - vm_compute. reflexivity.
Defined.

Lemma search_employee_after_add_witness :
  let roster := (add_employee Employee_init 7 "Asha" 31 "Data" (52000 # 1)).1 in
  search_employee (add_employee roster 7 "Ravi" 45 "Ops" (1 # 1)).1 7
  = EmployeeFound 7 (EmployeeInfo "Asha" 31 "Data" (52000 # 1))
  ∧ search_employee (add_employee roster 7 "Ravi" 45 "Ops" (1 # 1)).1 8
    = search_employee roster 8.
Proof.
  intros roster.
  destruct (search_employee_after_add roster 7 "Ravi" 45 "Ops" (1 # 1))
    as [Hsame Hother].
  split.
  - rewrite Hsame. reflexivity.
  - apply Hother. lia.
Defined.


(* --------------------------------------------------------------------- *)
(** ** Cleaning twice                                                      *)
(* --------------------------------------------------------------------- *)

Section CleaningTwice.
Context `{Externals}.

Lemma contact_key_trimmed (i : nat) (r : list cell) :
  (i < length r)%nat →
  contact_key i (with_trimmed_contact i r) = contact_key i r.
Proof.
  intros Hi. unfold contact_key at 1, with_trimmed_contact.
  rewrite get_cell_insert by done. cbn [astype_str].
  unfold contact_key. apply strip_idempotent.
Qed.

Lemma with_trimmed_contact_twice (i : nat) (r : list cell) :
  (i < length r)%nat →
  with_trimmed_contact i (with_trimmed_contact i r) = with_trimmed_contact i r.
Proof.
  intros Hi. unfold with_trimmed_contact at 1.
  rewrite contact_key_trimmed by done. unfold with_trimmed_contact.
  by rewrite list_insert_insert_eq.
Qed.

Lemma first_seen_after_distinct (key : list cell → string)
    (earlier rs : list (list cell)) :
  NoDup (key <$> rs) → (∀ k, k ∈ key <$> rs → k ∉ key <$> earlier) →
  first_seen_after key earlier rs = rs.
Proof.
  revert earlier. induction rs as [|r rs IH]; intros earlier Hnd Hnew; [done|].
  cbn in Hnd. apply NoDup_cons in Hnd as [Hr Hnd]. cbn [first_seen_after].
  rewrite decide_False by (apply Hnew; cbn; by left). cbn. f_equal.
  apply IH; [done|]. intros k Hk. rewrite fmap_app, elem_of_app. cbn.
  intros [Hold|Hlast].
  - apply (Hnew k); [cbn; by right|done].
  - apply list_elem_of_singleton in Hlast as ->. done.
Qed.

(** X22. Cleaning is idempotent on providers and receivers: cleaning the
    cleaned frame of a well-formed batch gives that frame again, no row is
    dropped and no contact changes the second time. *)
Theorem clean_contact_batch_idempotent (t : string) (df : DataFrame) (i : nat) :
  t ∈ ["providers"; "receivers"] → well_formed t df →
  index_of "contact" (columns df) = Some i →
  clean t (clean t df) = clean t df.
Proof.
  intros Ht Hwf Hi.
  destruct (clean_contact_table t df i Ht Hwf Hi) as [Hclean Hwf'].
  assert (Hi' : index_of "contact" (columns (clean t df)) = Some i)
    by (by rewrite Hclean).
  destruct (clean_contact_table t (clean t df) i Ht Hwf' Hi') as [Hclean2 _].
  rewrite Hclean2. rewrite Hclean at 3. rewrite Hclean. cbn [columns rows].
  f_equal.
  set (kept := first_seen (contact_key i) (rows df)).
  assert (Hlen : Forall (λ r, (i < length r)%nat) kept).
  { apply first_seen_after_Forall. destruct Hwf as [Hcols Hfit].
    eapply Forall_impl; [exact Hfit|]. intros r [Hr _]. rewrite Hr.
    clear -Hi. revert i Hi. induction (columns df) as [|c cols IH]; intros i Hi.
    - discriminate.
    - cbn in Hi. case_decide; [injection Hi as <-; cbn; lia|].
      destruct (index_of "contact" cols) as [i'|]; [|discriminate].
      injection Hi as <-. specialize (IH i' eq_refl). cbn. lia. }
  assert (Hkeys : contact_key i <$> (with_trimmed_contact i <$> kept)
                  = contact_key i <$> kept).
  { rewrite <- list_fmap_compose. apply Forall_fmap_ext_1.
    eapply Forall_impl; [exact Hlen|]. intros r Hr. cbn.
    by apply contact_key_trimmed. }
  unfold first_seen at 1. rewrite first_seen_after_distinct.
  - rewrite <- list_fmap_compose. apply Forall_fmap_ext_1.
    eapply Forall_impl; [exact Hlen|]. intros r Hr. cbn.
    by apply with_trimmed_contact_twice.
  - rewrite Hkeys. apply first_seen_after_NoDup.
  - intros k _. cbn. by intros ?%elem_of_nil.
Qed.

End CleaningTwice.

Lemma clean_contact_batch_idempotent_witness :
  clean "providers" (clean "providers" shared_contact_providers)
  = clean "providers" shared_contact_providers.
Proof.
  apply (clean_contact_batch_idempotent "providers" shared_contact_providers 5).
  - compute_done.
  - split; [reflexivity|]. repeat constructor; eexists; reflexivity.
  - reflexivity.
Defined.
